(** * pytest-fixture-tools: fixture resolution, duplicate report, fixture graph

    A shallow embedding of [pytest_fixture_tools/plugin.py] together with the
    properties of its resolution algorithm ([_find_fixture_def]), its
    duplicate report ([_show_fixture_duplicates_main], [print_duplicates])
    and its graph export ([save_fixture_graph]).

    Python values are modelled as follows.
    - [str] is [string], holding the UTF-8 bytes of the text; comparison of
      [str] is [String.ltb] (the order of the bytes is the order of the code
      points); [len] and unpacking go by code points ([code_points]).
    - A [dict] is an association list in insertion order; assignment to an
      existing key keeps the key's position.
    - [sorted(xs, key=k)] is a stable sort that only uses [<] on the keys.
    - An exception is a value of [exn]; a fallible computation returns
      [result]. *)

From Stdlib Require Import List String Ascii ZArith Lia Bool Arith.
From Stdlib Require Import Permutation Sorted OrderedTypeEx.
From Equations Require Import Equations.
Import ListNotations.

Local Open Scope string_scope.
Local Open Scope list_scope.

(** ** Python builtins used by the plugin *)

Module Py.

(** [sys.maxsize] of a 64-bit CPython. *)
Definition sys_maxsize : Z := 9223372036854775807.

Inductive exn : Type :=
| AssertionError
| ValueError
| OSError
| KeyboardInterrupt.

(** [isinstance(e, Exception)]: what a clause [except Exception] catches.
    [KeyboardInterrupt] derives from [BaseException] only. *)
Definition is_Exception (e : exn) : bool :=
  match e with
  | KeyboardInterrupt => false
  | _ => true
  end.

Inductive result (A : Type) : Type :=
| Ok (a : A)
| Raise (e : exn).
Arguments Ok {A} a.
Arguments Raise {A} e.

Definition bind {A B : Type} (m : result A) (k : A -> result B) : result B :=
  match m with
  | Ok a => k a
  | Raise e => Raise e
  end.

(** [l.index(x)]: position of the first occurrence, [None] for the
    [ValueError] raised when [x] is not in [l]. *)
Fixpoint list_index (x : string) (l : list string) : option nat :=
  match l with
  | [] => None
  | y :: t =>
      if String.eqb y x then Some 0
      else match list_index x t with
           | Some i => Some (S i)
           | None => None
           end
  end.

(** A byte [10xxxxxx], which continues a code point in UTF-8. *)
Definition is_continuation (c : ascii) : bool :=
  Nat.leb 128 (nat_of_ascii c) && Nat.ltb (nat_of_ascii c) 192.

(** Whether the text goes on inside a character: its first byte is a
    continuation byte. *)
Definition continues (s : string) : bool :=
  match s with
  | EmptyString => false
  | String c _ => is_continuation c
  end.

(** [list(s)]: the characters of a [str], each with its own bytes. A byte
    starts a character, and the continuation bytes that follow it belong to
    that character. *)
Fixpoint code_points (s : string) : list string :=
  match s with
  | EmptyString => []
  | String c r =>
      match code_points r with
      | g :: gs =>
          if continues r then String c g :: gs
          else String c EmptyString :: g :: gs
      | [] => [String c EmptyString]
      end
  end.

(** [len(s)] *)
Definition str_len (s : string) : nat := List.length (code_points s).

(** [x in l] for a list of strings. *)
Definition str_in (x : string) (l : list string) : bool :=
  existsb (String.eqb x) l.

Section Sorted.
Context {A K : Type}.
Variable ltb : K -> K -> bool.
Variable key : A -> K.

(** One step of the stable sort: [x] stood before every element of [l]
    in the input, so it is placed before the first element whose key is
    not smaller than its own. *)
Fixpoint insert_sorted (x : A) (l : list A) : list A :=
  match l with
  | [] => [x]
  | y :: t =>
      if ltb (key y) (key x) then y :: insert_sorted x t
      else x :: y :: t
  end.

(** [sorted(l, key=key)]. *)
Fixpoint sorted (l : list A) : list A :=
  match l with
  | [] => []
  | x :: t => insert_sorted x (sorted t)
  end.

(** The first element, in input order, among those of least key. *)
Fixpoint first_min (l : list A) : option A :=
  match l with
  | [] => None
  | x :: t =>
      match first_min t with
      | None => Some x
      | Some m => if ltb (key m) (key x) then Some m else Some x
      end
  end.
End Sorted.

(** *** Dictionaries with string keys *)

Definition dict (V : Type) : Type := list (string * V).

Fixpoint dict_get {V : Type} (d : dict V) (k : string) : option V :=
  match d with
  | [] => None
  | (k', v) :: t => if String.eqb k' k then Some v else dict_get t k
  end.

Definition dict_mem {V : Type} (k : string) (d : dict V) : bool :=
  match dict_get d k with
  | Some _ => true
  | None => false
  end.

Definition dict_keys {V : Type} (d : dict V) : list string := map fst d.

(** [d[k] = v]. *)
Fixpoint dict_set {V : Type} (d : dict V) (k : string) (v : V) : dict V :=
  match d with
  | [] => [(k, v)]
  | (k', v') :: t =>
      if String.eqb k' k then (k', v) :: t else (k', v') :: dict_set t k v
  end.

End Py.

(** ** [os.path] on a POSIX system *)

Module PosixPath.

Definition is_sep (c : ascii) : bool := Ascii.eqb c "/"%char.

Fixpoint has_sep (p : string) : bool :=
  match p with
  | EmptyString => false
  | String c r => is_sep c || has_sep r
  end.

(** [p[:p.rfind('/') + 1]] *)
Fixpoint head_to_last_sep (p : string) : string :=
  match p with
  | EmptyString => EmptyString
  | String c r =>
      if is_sep c || has_sep r then String c (head_to_last_sep r)
      else EmptyString
  end.

(** [s == '/' * len(s)] *)
Fixpoint all_sep (s : string) : bool :=
  match s with
  | EmptyString => true
  | String c r => is_sep c && all_sep r
  end.

(** [s.rstrip('/')] *)
Fixpoint rstrip_sep (s : string) : string :=
  match s with
  | EmptyString => EmptyString
  | String c r =>
      match rstrip_sep r with
      | EmptyString => if is_sep c then EmptyString else String c EmptyString
      | r' => String c r'
      end
  end.

(** [s.endswith('/')] *)
Fixpoint ends_sep (s : string) : bool :=
  match s with
  | EmptyString => false
  | String c EmptyString => is_sep c
  | String _ r => ends_sep r
  end.

(** [s.startswith('/')] *)
Definition starts_sep (s : string) : bool :=
  match s with
  | EmptyString => false
  | String c _ => is_sep c
  end.

(** [os.path.dirname(p)] *)
Definition dirname (p : string) : string :=
  let head := head_to_last_sep p in
  if negb (String.eqb head "") && negb (all_sep head)
  then rstrip_sep head
  else head.

(** [os.path.join(a, b)] *)
Definition join (a b : string) : string :=
  if starts_sep b then b
  else if String.eqb a "" || ends_sep a then a ++ b
  else a ++ "/" ++ b.

(** [s.startswith(prefix)] *)
Definition startswith (s pre : string) : bool := String.prefix pre s.

Lemma head_length (p : string) :
  String.length (head_to_last_sep p) <= String.length p.
Proof.
  induction p as [|c r IH]; simpl; [lia|].
  destruct (is_sep c || has_sep r); simpl; lia.
Qed.

Lemma head_full (p : string) :
  String.length (head_to_last_sep p) = String.length p ->
  head_to_last_sep p = p.
Proof.
  induction p as [|c r IH]; simpl; [reflexivity|].
  destruct (is_sep c || has_sep r); simpl; [|discriminate].
  intros H. f_equal. apply IH. lia.
Qed.

Lemma rstrip_length (s : string) :
  String.length (rstrip_sep s) <= String.length s.
Proof.
  induction s as [|c r IH]; simpl; [lia|].
  destruct (rstrip_sep r); simpl in *; [destruct (is_sep c); simpl; lia | lia].
Qed.

Lemma rstrip_ends_sep (s : string) :
  ends_sep s = true -> String.length (rstrip_sep s) < String.length s.
Proof.
  induction s as [|c r IH]; simpl; [discriminate|].
  destruct r as [|c' r'].
  - intros ->. simpl. lia.
  - intros H. specialize (IH H).
    destruct (rstrip_sep (String c' r')); simpl in *;
      [destruct (is_sep c); simpl; lia | lia].
Qed.

Lemma head_nonempty (p : string) :
  has_sep p = true -> head_to_last_sep p <> "".
Proof.
  destruct p as [|c r]; simpl; [discriminate|].
  intros ->. discriminate.
Qed.

Lemma head_ends_sep (p : string) :
  head_to_last_sep p <> "" -> ends_sep (head_to_last_sep p) = true.
Proof.
  induction p as [|c r IH]; simpl; [congruence|].
  destruct (is_sep c || has_sep r) eqn:E; [|congruence].
  intros _. simpl.
  destruct (head_to_last_sep r) as [|c' h'] eqn:Eh.
  - destruct (has_sep r) eqn:Er.
    + exfalso. apply (head_nonempty r Er). exact Eh.
    + rewrite orb_false_r in E. exact E.
  - apply IH. discriminate.
Qed.

(** The parent of a path is the path itself or a strictly shorter string:
    this is what makes the recursion on parents stop. *)
Lemma dirname_shrinks (p : string) :
  dirname p <> p -> String.length (dirname p) < String.length p.
Proof.
  unfold dirname.
  destruct (negb (head_to_last_sep p =? "") && negb (all_sep (head_to_last_sep p)))
    eqn:E.
  - intros _. apply andb_true_iff in E. destruct E as [E _].
    apply negb_true_iff, String.eqb_neq in E.
    pose proof (rstrip_ends_sep _ (head_ends_sep p E)).
    pose proof (head_length p). lia.
  - intros Hne. pose proof (head_length p) as Hl.
    destruct (Nat.eq_dec (String.length (head_to_last_sep p)) (String.length p))
      as [Heq|Hneq]; [|lia].
    exfalso. apply Hne. apply head_full. exact Heq.
Qed.

End PosixPath.

(** ** The plugin *)

Module Plugin.
Import Py PosixPath.

(** The attributes of a pytest [FixtureDef] that the plugin reads:
    [fixturedef.baseid], [fixturedef.func.__module__],
    [inspect.getfile(fixturedef.func)] and [fixturedef.argnames].
    [_get_func_path] memoises [inspect.getfile] in [path_cache]; the cache
    never changes the value returned, so [get_func_path(fixture_def.func)]
    is the field [func_file]. *)
Record FixtureDef : Type := mkFixtureDef {
  baseid : string;
  func_module : string;
  func_file : string;
  argnames : list string
}.

Equations? _get_fixture_search_order (func_path : string) : list string
  by wf (String.length func_path) lt :=
  _get_fixture_search_order func_path
    with string_dec (dirname func_path) func_path => {
    | left _ := [];
    | right _ :=
        join (dirname func_path) "conftest.py"
          :: _get_fixture_search_order (dirname func_path) }.
Proof. apply dirname_shrinks. assumption. Qed.

(** The [sort_key] closure of [_find_fixture_def]. *)
Definition sort_key (search_order : list string) (fixture_def : FixtureDef) : Z :=
  match list_index (func_file fixture_def) search_order with
  | Some i => Z.of_nat i
  | None => sys_maxsize
  end.

(** The value of [search_order] when the candidates are sorted. *)
Definition find_search_order
    (source_fixture_name func_path fixture_name : string) : list string :=
  let search_order := _get_fixture_search_order (dirname func_path) in
  if negb (String.eqb source_fixture_name fixture_name)
  then func_path :: search_order
  else search_order.

(** [sorted(target_fixture_defs, key=sort_key)[0]], [None] on [IndexError]. *)
Definition first_sorted (search_order : list string)
    (target_fixture_defs : list FixtureDef) : option FixtureDef :=
  hd_error (sorted Z.ltb (sort_key search_order) target_fixture_defs).

Definition _find_fixture_def
    (source_fixture_name func_path fixture_name : string)
    (name2fixturedefs : dict (list FixtureDef)) : option FixtureDef :=
  let search_order :=
    find_search_order source_fixture_name func_path fixture_name in
  match dict_get name2fixturedefs fixture_name with
  | None => None
  | Some target_fixture_defs => first_sorted search_order target_fixture_defs
  end.

(** *** The duplicate report *)

(** A call on the module's [TerminalWriter] [tw]. *)
Inductive tw_call : Type :=
| tw_line (s : string)
| tw_sep (sepchar title : string).

(** The module global [verbose]. *)
Definition verbose : Z := 1.

(** The tuple [(len(fixturedef.baseid), fixturedef.func.__module__,
    curdir.bestrelpath(loc), fixturedef)] built by
    [_show_fixture_duplicates_main]; Python's [fixture[2]] is [bestrel]. *)
Record fixture : Type := mkFixture {
  baseid_len : nat;
  module_name : string;
  bestrel : string;
  fixturedef : FixtureDef
}.

(** [previous_argname != argname], where [previous_argname] may be [None]. *)
Definition differs (previous_argname : option string) (argname : string) : bool :=
  match previous_argname with
  | Some p => negb (String.eqb p argname)
  | None => true
  end.

(** [argname[0] == "_"]; only evaluated when [verbose <= 0]. *)
Definition starts_underscore (argname : string) : bool :=
  match argname with
  | String c _ => Ascii.eqb c "_"%char
  | EmptyString => false
  end.

(** The [for] loop of [print_duplicates]. *)
Fixpoint print_members (argname : string) (fixtures : list fixture)
    (previous_argname : option string) : list tw_call :=
  match fixtures with
  | [] => []
  | f :: rest =>
      let header :=
        if differs previous_argname argname
        then [tw_line ""; tw_sep "-" argname] else [] in
      let previous_argname :=
        if differs previous_argname argname
        then Some argname else previous_argname in
      let body :=
        if (verbose <=? 0)%Z && starts_underscore argname
        then [] else [tw_line (bestrel f)] in
      header ++ body ++ print_members argname rest previous_argname
  end.

Definition print_duplicates (argname : string) (fixtures : list fixture)
    (previous_argname : option string) : list tw_call :=
  if Nat.ltb 1 (List.length fixtures)
  then print_members argname (sorted String.ltb bestrel fixtures) previous_argname
  else [].

(** The loop over the sorted [available] of the unfiltered report. *)
Fixpoint print_all (available : list (string * list fixture))
    (previous_argname : option string) : list tw_call :=
  match available with
  | [] => []
  | (argname, fixtures) :: rest =>
      print_duplicates argname fixtures previous_argname
        ++ print_all rest (Some argname)
  end.

(** [available[argname]] of the [defaultdict(list)]. *)
Definition available_get (available : dict (list fixture)) (argname : string)
    : list fixture :=
  match dict_get available argname with
  | Some l => l
  | None => []
  end.

(** The expression bound to [arg2fixturedefs]: the names that are scanned. *)
Definition arg2fixturedefs (fixture_name : string)
    (registry : dict (list FixtureDef)) : list string :=
  if negb (String.eqb fixture_name "") && dict_mem fixture_name registry
  then [fixture_name]
  else dict_keys registry.

Section Duplicates.

(** The host's [fm.getfixturedefs(argname, nodeid)]; [None] is Python's
    [None]. *)
Variable getfixturedefs : string -> string -> option (list FixtureDef).

(** The host's [curdir.bestrelpath(getlocation(fixturedef.func, curdir))]. *)
Variable location : FixtureDef -> string.

Definition make_fixture (fd : FixtureDef) : fixture :=
  mkFixture (str_len (baseid fd)) (func_module fd) (location fd) fd.

(** The body of [for fixturedef in fixturedefs]. *)
Definition collect_fixturedef (argname : string)
    (available : dict (list fixture)) (fd : FixtureDef) : dict (list fixture) :=
  let fixture := make_fixture fd in
  if str_in (bestrel fixture) (map bestrel (available_get available argname))
  then available
  else dict_set available argname (available_get available argname ++ [fixture]).

(** The body of [for argname in arg2fixturedefs]. *)
Definition collect_argname (nodeid : string) (available : dict (list fixture))
    (argname : string) : result (dict (list fixture)) :=
  match getfixturedefs argname nodeid with
  | None => Raise AssertionError
  | Some [] => Ok available
  | Some fixturedefs =>
      Ok (fold_left (collect_fixturedef argname) fixturedefs available)
  end.

Fixpoint collect_argnames (nodeid : string) (names : list string)
    (available : dict (list fixture)) : result (dict (list fixture)) :=
  match names with
  | [] => Ok available
  | argname :: rest =>
      bind (collect_argname nodeid available argname)
           (collect_argnames nodeid rest)
  end.

(** [for item in session.items], an item being given by its [nodeid]. *)
Fixpoint collect_items (items : list string) (names : list string)
    (available : dict (list fixture)) : result (dict (list fixture)) :=
  match items with
  | [] => Ok available
  | nodeid :: rest =>
      bind (collect_argnames nodeid names available)
           (collect_items rest names)
  end.

(** [_show_fixture_duplicates_main] after [session.perform_collect()]:
    [fixture_name] is [config.option.fixture_name], [registry] is
    [fm._arg2fixturedefs], [items] is [session.items]. The result is the
    sequence of calls on [tw]. *)
Definition _show_fixture_duplicates_main (fixture_name : string)
    (registry : dict (list FixtureDef)) (items : list string)
    : result (list tw_call) :=
  bind (collect_items items (arg2fixturedefs fixture_name registry) [])
    (fun available =>
       if negb (String.eqb fixture_name "")
       then Ok (print_duplicates fixture_name
                  (available_get available fixture_name) None)
       else Ok (print_all (sorted String.ltb fst available) None)).

End Duplicates.

(** *** The fixture graph *)

(** An element of a [depended_list]: the pair built by
    [_get_fixture_node_name], or a name of [func_args]. *)
Inductive depended : Type :=
| dep_pair (cluster name : string)
| dep_name (argname : string).

(** [data]: cluster name, then fixture name, to [(depended_list, color)]. *)
Definition graph_data : Type := dict (dict (list depended * string)).

(** [data[cluster][name] = v] on the [defaultdict(dict)]. *)
Definition data_set (data : graph_data) (cluster name : string)
    (v : list depended * string) : graph_data :=
  let subgraph_data :=
    match dict_get data cluster with
    | Some d => d
    | None => []
    end in
  dict_set data cluster (dict_set subgraph_data name v).

(** The calls on [pydot]: [Node(name, style="filled", fillcolor=color)] with
    its label, [Cluster(graph_name=func_path)] with its label and nodes, and
    [Edge(node, dest)] as the pair of the endpoints' names. *)
Record Node : Type := mkNode {
  node_name : string;
  node_label : string;
  fillcolor : string
}.

Record Cluster : Type := mkCluster {
  graph_name : string;
  cluster_label : string;
  cluster_nodes : list Node
}.

Record Dot : Type := mkDot {
  subgraphs : list Cluster;
  edges : list (string * string)
}.

(** The names of all the nodes of a graph. *)
Definition node_names (g : Dot) : list string :=
  flat_map (fun c => map node_name (cluster_nodes c)) (subgraphs g).

(** [dest_cluster, dest_name = d]: a pair unpacks to its components, a
    string to its characters when there are exactly two of them. *)
Definition unpack_pair (d : depended) : result (string * string) :=
  match d with
  | dep_pair c n => Ok (c, n)
  | dep_name s =>
      match code_points s with
      | [a; b] => Ok (a, b)
      | _ => Raise ValueError
      end
  end.

(** [for dest_cluster, dest_name in depended_list]. *)
Fixpoint node_edges (node : string) (depended_list : list depended)
    : result (list (string * string)) :=
  match depended_list with
  | [] => Ok []
  | d :: rest =>
      bind (unpack_pair d) (fun '(dest_cluster, dest_name) =>
      bind (node_edges node rest) (fun es =>
        if String.eqb dest_name "" then Ok es
        else Ok ((node, (dest_cluster ++ "/" ++ dest_name)%string) :: es)))
  end.

(** [for name, depended_list in list(subgraph_data.items())]. *)
Fixpoint subgraph_nodes_edges (func_path : string)
    (subgraph_data : dict (list depended * string))
    : result (list Node * list (string * string)) :=
  match subgraph_data with
  | [] => Ok ([], [])
  | (name, (depended_list, color)) :: rest =>
      let node := mkNode (func_path ++ "/" ++ name)%string name color in
      bind (node_edges (node_name node) depended_list) (fun es =>
      bind (subgraph_nodes_edges func_path rest) (fun '(ns, es') =>
        Ok (node :: ns, es ++ es')))
  end.

(** [for func_path, subgraph_data in data.items()]. *)
Fixpoint build_graph (data : graph_data) : result Dot :=
  match data with
  | [] => Ok (mkDot [] [])
  | (func_path, subgraph_data) :: rest =>
      bind (subgraph_nodes_edges func_path subgraph_data) (fun '(ns, es) =>
      bind (build_graph rest) (fun g =>
        Ok (mkDot (mkCluster func_path func_path ns :: subgraphs g)
                  (es ++ edges g))))
  end.

Section Graph.

(** [os.path.relpath]. *)
Variable relpath : string -> string -> string.

(** [os.getcwd() + os.sep]. *)
Variable cwd : string.

Definition _get_cluster_name (func_path : string) : string :=
  if startswith func_path cwd then relpath func_path cwd else func_path.

Definition _get_fixture_node_name (fixture_name : string)
    (fixture_def : option FixtureDef) : string * string :=
  match fixture_def with
  | None => ("", "")
  | Some fd => (_get_cluster_name (func_file fd), fixture_name)
  end.

(** The list comprehension over [fixture_def.argnames]. *)
Definition depended_of (name2fixturedefs : dict (list FixtureDef))
    (fixture_name : string) (fixture_def : FixtureDef) : list depended :=
  map (fun argname =>
         let '(c, n) :=
           _get_fixture_node_name argname
             (_find_fixture_def fixture_name (func_file fixture_def) argname
                name2fixturedefs) in
         dep_pair c n)
      (argnames fixture_def).

(** [for fixture_def in fixture_defs]. *)
Definition add_fixture_defs (name2fixturedefs : dict (list FixtureDef))
    (fixture_name : string) (fixture_defs : list FixtureDef)
    (data : graph_data) : graph_data :=
  fold_left
    (fun data fixture_def =>
       data_set data (_get_cluster_name (func_file fixture_def)) fixture_name
         (depended_of name2fixturedefs fixture_name fixture_def, "green"))
    fixture_defs data.

(** [for fixture_name, fixture_defs in list(name2fixturedefs.items())]. *)
Definition add_registry (name2fixturedefs : dict (list FixtureDef))
    (items : list (string * list FixtureDef)) (data : graph_data) : graph_data :=
  fold_left
    (fun data '(fixture_name, fixture_defs) =>
       if String.eqb fixture_name "request" then data
       else add_fixture_defs name2fixturedefs fixture_name fixture_defs data)
    items data.

(** [data] as it stands before the graph is assembled. *)
Definition build_data (name2fixturedefs : dict (list FixtureDef))
    (func_args : option (list string)) : graph_data :=
  let data :=
    match func_args with
    | Some (a :: l) => data_set [] "" "func_args" (map dep_name (a :: l), "red")
    | _ => []
    end in
  add_registry name2fixturedefs name2fixturedefs data.

(** The graph that [save_fixture_graph] assembles. *)
Definition fixture_graph (name2fixturedefs : dict (list FixtureDef))
    (func_args : option (list string)) : result Dot :=
  build_graph (build_data name2fixturedefs func_args).

End Graph.

(** *** Writing the graph *)

(** What the export does to the outside world, in order. [ev_write path
    format] is a call [graph.write(path)] ([format] is [None]: the textual
    form) or [graph.write(path, format=f)] (the external renderer). *)
Inductive event : Type :=
| ev_makedirs (path : string)
| ev_tw (c : tw_call)
| ev_write (path : string) (format : option string).

(** The outcome of [os.makedirs]. *)
Inductive makedirs_outcome : Type :=
| md_created
| md_oserror (errno_is_EEXIST : bool).

(** How the outside world answers. *)
Record World : Type := mkWorld {
  makedirs : string -> makedirs_outcome;
  isdir : string -> bool;
  write_raw : string -> option exn;
  render : string -> string -> option exn
}.

(** A computation with effects: the events so far and the outcome. *)
Definition io (A : Type) : Type := list event * result A.

Definition io_ret {A : Type} (a : A) : io A := ([], Ok a).

Definition io_bind {A B : Type} (m : io A) (k : A -> io B) : io B :=
  match m with
  | (t, Ok a) => let '(t', r) := k a in (t ++ t', r)
  | (t, Raise e) => (t, Raise e)
  end.

Definition io_emit (e : event) : io unit := ([e], Ok tt).

Definition io_raise {A : Type} (e : exn) : io A := ([], Raise e).

(** [try: m except Exception: handler]. *)
Definition try_except_Exception {A : Type} (m : io A) (handler : io A) : io A :=
  match m with
  | (t, Raise e) =>
      if is_Exception e then let '(t', r) := handler in (t ++ t', r)
      else (t, Raise e)
  | ok => ok
  end.

Notation "m ;; k" := (io_bind m (fun _ => k))
  (at level 61, right associativity).

Definition newline : string := String (ascii_of_nat 10) EmptyString.
Definition tab : string := String (ascii_of_nat 9) EmptyString.

Section WriteGraph.

Variable w : World.

Definition mkdir_recursive (path : string) : io unit :=
  io_emit (ev_makedirs path) ;;
  match makedirs w path with
  | md_created => io_ret tt
  | md_oserror errno_is_EEXIST =>
      if errno_is_EEXIST && isdir w path then io_ret tt else io_raise OSError
  end.

Definition line (s : string) : io unit := io_emit (ev_tw (tw_line s)).
Definition sep (sepchar title : string) : io unit :=
  io_emit (ev_tw (tw_sep sepchar title)).

(** [graph.write(path)] and [graph.write(path, format=f)]. *)
Definition graph_write (path : string) (format : option string) : io unit :=
  io_emit (ev_write path format) ;;
  match format with
  | None => match write_raw w path with
            | None => io_ret tt
            | Some e => io_raise e
            end
  | Some f => match render w path f with
              | None => io_ret tt
              | Some e => io_raise e
              end
  end.

(** [save_fixture_graph] from [log_dir = ...] on: [log_dir] and
    [output_type] are the options [fixture_graph_output_dir] and
    [fixture_graph_output_type] of [config]. *)
Definition write_graph (log_dir output_type filename : string) : io unit :=
  mkdir_recursive log_dir ;;
  let filename := join log_dir filename in
  line "" ;;
  sep "-" "fixture-graph" ;;
  line ("created " ++ filename ++ ".dot.") ;;
  graph_write (filename ++ ".dot") None ;;
  try_except_Exception
    (graph_write (filename ++ "." ++ output_type) (Some output_type) ;;
     line ("created " ++ filename ++ "." ++ output_type ++ "."))
    (line "graphvis wasn't found in PATH" ;;
     line ("You can convert it to a PNG using:" ++ newline ++ tab
           ++ "'dot -Tpng " ++ filename ++ ".dot -o " ++ filename ++ ".png'")).

Definition save_fixture_graph (relpath : string -> string -> string)
    (cwd log_dir output_type : string)
    (name2fixturedefs : dict (list FixtureDef)) (filename : string)
    (func_args : option (list string)) : io unit :=
  match fixture_graph relpath cwd name2fixturedefs func_args with
  | Raise e => io_raise e
  | Ok _ => write_graph log_dir output_type filename
  end.

End WriteGraph.

End Plugin.

Import Py PosixPath Plugin.

Example dirname_ex1 : dirname "/root/api/test_x.py" = "/root/api".
Proof. reflexivity. Qed.
Example dirname_ex2 : dirname "/root" = "/".
Proof. reflexivity. Qed.
Example dirname_ex3 : dirname "/" = "/".
Proof. reflexivity. Qed.
Example dirname_ex4 : dirname "a/b//c" = "a/b".
Proof. reflexivity. Qed.
Example dirname_ex5 : dirname "conftest.py" = "".
Proof. reflexivity. Qed.
Example search_order_ex1 :
  _get_fixture_search_order "/root/api" = ["/root/conftest.py"; "/conftest.py"].
Proof. reflexivity. Qed.

(** ** Characters of a [str] *)

Lemma code_points_nil (s : string) : code_points s = [] -> s = "".
Proof.
  destruct s as [|c r]; [reflexivity|]. simpl.
  destruct (code_points r) as [|g gs]; [discriminate|].
  destruct (continues r); discriminate.
Qed.

(** The characters of a text are its bytes, cut into pieces. *)
Lemma code_points_concat (s : string) : String.concat "" (code_points s) = s.
Proof.
  induction s as [|c r IH]; [reflexivity|]. simpl.
  destruct (code_points r) as [|g gs] eqn:E.
  - rewrite (code_points_nil r E). reflexivity.
  - destruct (continues r).
    + rewrite <- IH. destruct gs; reflexivity.
    + rewrite <- IH. reflexivity.
Qed.

(** No character is empty, and only the first one can start with a
    continuation byte (in a text that is not well-formed UTF-8). *)
Lemma code_points_nonempty (s : string) :
  Forall (fun g => g <> "") (code_points s).
Proof.
  induction s as [|c r IH]; [constructor|]. simpl.
  destruct (code_points r) as [|g gs].
  - constructor; [discriminate | constructor].
  - destruct (continues r).
    + constructor; [discriminate | exact (Forall_inv_tail IH)].
    + constructor; [discriminate | exact IH].
Qed.

(** A text of 7-bit characters only. *)
Definition is_ascii (s : string) : bool :=
  forallb (fun c => Nat.ltb (nat_of_ascii c) 128) (list_ascii_of_string s).

Lemma is_ascii_not_continues (s : string) : is_ascii s = true -> continues s = false.
Proof.
  destruct s as [|c r]; [reflexivity|]. unfold is_ascii. simpl.
  intros H. apply andb_prop in H. destruct H as [H _].
  unfold is_continuation. apply Nat.ltb_lt in H.
  destruct (Nat.leb_spec 128 (nat_of_ascii c)); [lia | reflexivity].
Qed.

(** In such a text every byte is a character. *)
Lemma code_points_ascii (s : string) :
  is_ascii s = true ->
  code_points s = map (fun c => String c "") (list_ascii_of_string s).
Proof.
  induction s as [|c r IH]; [reflexivity|]. intros H.
  assert (Hr : is_ascii r = true).
  { unfold is_ascii in *. simpl in H. apply andb_prop in H. apply H. }
  simpl. rewrite (is_ascii_not_continues r Hr), (IH Hr).
  destruct r as [|c' r']; reflexivity.
Qed.

Lemma str_len_ascii (s : string) : is_ascii s = true -> str_len s = String.length s.
Proof.
  intros H. unfold str_len. rewrite (code_points_ascii s H), length_map.
  clear H. induction s as [|c r IH]; simpl; congruence.
Qed.

(** The small Greek letters lambda (U+03BB) and mu (U+03BC) in UTF-8. *)
Definition lambda : string :=
  String (ascii_of_nat 206) (String (ascii_of_nat 187) "").
Definition mu : string :=
  String (ascii_of_nat 206) (String (ascii_of_nat 188) "").

Example str_len_lambda : str_len lambda = 1 /\ String.length lambda = 2.
Proof. split; reflexivity. Qed.
Example code_points_lambda_mu : code_points (lambda ++ mu) = [lambda; mu].
Proof. reflexivity. Qed.
Example code_points_mixed :
  code_points ("a" ++ lambda ++ "b") = ["a"; lambda; "b"].
Proof. reflexivity. Qed.

(** Unpacking a name goes by characters: a single letter of two bytes does
    not unpack, two letters of two bytes each do. *)
Example unpack_lambda : unpack_pair (dep_name lambda) = Raise ValueError.
Proof. reflexivity. Qed.
Example unpack_lambda_mu :
  unpack_pair (dep_name (lambda ++ mu)) = Ok (lambda, mu).
Proof. reflexivity. Qed.
Example unpack_db : unpack_pair (dep_name "db") = Ok ("d", "b").
Proof. reflexivity. Qed.

(** ** The ancestor chain: [_get_fixture_search_order] *)

Lemma search_order_unfold (p : string) :
  _get_fixture_search_order p =
  if String.eqb (dirname p) p then []
  else join (dirname p) "conftest.py" :: _get_fixture_search_order (dirname p).
Proof.
  rewrite _get_fixture_search_order_equation_1.
  destruct (string_dec (dirname p) p) as [e|n]; simpl.
  - rewrite (proj2 (String.eqb_eq _ _) e). reflexivity.
  - rewrite (proj2 (String.eqb_neq _ _) n). reflexivity.
Qed.

(** Induction on a path along its parents. *)
Lemma path_ind (P : string -> Prop) :
  (forall p, (dirname p <> p -> P (dirname p)) -> P p) -> forall p, P p.
Proof.
  intros step p.
  remember (String.length p) as n eqn:Hn.
  revert p Hn.
  induction n as [n IH] using lt_wf_ind.
  intros p ->. apply step. intros Hne.
  apply (IH (String.length (dirname p))); [|reflexivity].
  apply dirname_shrinks. exact Hne.
Qed.

(** What the chain of [p] looks like when it has [n] entries: the [i]-th
    entry is the [conftest.py] of the [i+1]-th parent, no path before the
    [n]-th parent is its own parent, and the [n]-th parent is. *)
Definition chain_shape (p : string) (n : nat) : Prop :=
  _get_fixture_search_order p =
    map (fun i => join (Nat.iter (S i) dirname p) "conftest.py") (seq 0 n)
  /\ dirname (Nat.iter n dirname p) = Nat.iter n dirname p
  /\ Forall (fun i =>
       dirname (Nat.iter i dirname p) <> Nat.iter i dirname p
       /\ String.length (Nat.iter (S i) dirname p)
          < String.length (Nat.iter i dirname p))
       (seq 0 n).

Lemma search_order_shape (p : string) :
  chain_shape p (List.length (_get_fixture_search_order p))
  /\ List.length (_get_fixture_search_order p) <= String.length p.
Proof.
  induction p as [p IH] using path_ind.
  unfold chain_shape.
  pose proof (search_order_unfold p) as Hu.
  destruct (String.eqb_spec (dirname p) p) as [Heq|Hne]; rewrite Hu.
  - split; [|simpl; lia].
    repeat split; simpl; [exact Heq | constructor].
  - destruct (IH Hne) as [[Hmap [Hfix Hall]] Hlen].
    pose proof (dirname_shrinks p Hne) as Hlt.
    split; [|simpl; lia].
    set (n := List.length (_get_fixture_search_order (dirname p))) in *.
    change (List.length (_ :: _get_fixture_search_order (dirname p))) with (S n).
    repeat split.
    + rewrite Hmap at 1. cbn [seq map]. f_equal.
      rewrite <- seq_shift, map_map.
      apply map_ext. intros i. rewrite <- !Nat.iter_succ_r. reflexivity.
    + rewrite Nat.iter_succ_r. exact Hfix.
    + cbn [seq]. constructor.
      * split; [exact Hne | exact Hlt].
      * rewrite <- seq_shift. apply Forall_map.
        revert Hall. apply Forall_impl. intros i.
        rewrite <- !Nat.iter_succ_r. tauto.
Qed.

(** C8: the ancestor chain is defined for every path (the recursion is on a
    strictly shorter parent, so it has at most as many entries as the path
    has characters); it is empty exactly when the path is its own parent and
    otherwise starts with the parent's [conftest.py] followed by the
    parent's chain; entry [i] is the declaration file of the [i+1]-th
    parent, nearest first, and the recursion stops at the first parent that
    is its own parent. *)
Theorem search_order_terminates_nearest_first (func_path : string) :
  let n := List.length (_get_fixture_search_order func_path) in
  _get_fixture_search_order func_path =
    (if String.eqb (dirname func_path) func_path then []
     else join (dirname func_path) "conftest.py"
            :: _get_fixture_search_order (dirname func_path))
  /\ n <= String.length func_path
  /\ _get_fixture_search_order func_path =
       map (fun i => join (Nat.iter (S i) dirname func_path) "conftest.py")
           (seq 0 n)
  /\ dirname (Nat.iter n dirname func_path) = Nat.iter n dirname func_path
  /\ Forall (fun i =>
       dirname (Nat.iter i dirname func_path) <> Nat.iter i dirname func_path
       /\ String.length (Nat.iter (S i) dirname func_path)
          < String.length (Nat.iter i dirname func_path))
       (seq 0 n).
Proof.
  intros n.
  destruct (search_order_shape func_path) as [[Hmap [Hfix Hall]] Hlen].
  split; [apply search_order_unfold|].
  split; [exact Hlen|].
  split; [exact Hmap|].
  split; [exact Hfix | exact Hall].
Qed.

(** ** Parents of declaration files *)

(** A path as [dirname] returns it: only separators, or no trailing one. *)
Definition dir_normal (d : string) : Prop :=
  all_sep d = true \/ ends_sep d = false.

Lemma rstrip_not_ends (s : string) : ends_sep (rstrip_sep s) = false.
Proof.
  induction s as [|c r IH]; simpl; [reflexivity|].
  destruct (rstrip_sep r) as [|c' r'] eqn:E.
  - destruct (is_sep c) eqn:Ec; simpl; [reflexivity | exact Ec].
  - exact IH.
Qed.

Lemma dirname_normal (p : string) : dir_normal (dirname p).
Proof.
  unfold dirname, dir_normal.
  destruct (negb (head_to_last_sep p =? "") && negb (all_sep (head_to_last_sep p)))
    eqn:E.
  - right. apply rstrip_not_ends.
  - apply andb_false_iff in E. destruct E as [E|E].
    + apply negb_false_iff, String.eqb_eq in E. rewrite E. left. reflexivity.
    + apply negb_false_iff in E. left. exact E.
Qed.

Lemma head_no_sep (b : string) : has_sep b = false -> head_to_last_sep b = "".
Proof.
  destruct b as [|c r]; simpl; [reflexivity|]. intros ->. reflexivity.
Qed.

Lemma ends_sep_has_sep (s : string) : ends_sep s = true -> has_sep s = true.
Proof.
  induction s as [|c r IH]; simpl; [discriminate|].
  destruct r as [|c' r'].
  - intros ->. reflexivity.
  - intros H. rewrite (IH H). apply orb_true_r.
Qed.

Lemma has_sep_app_l (a b : string) : has_sep a = true -> has_sep (a ++ b) = true.
Proof.
  induction a as [|c r IH]; simpl; [discriminate|].
  destruct (is_sep c); simpl; [reflexivity | exact IH].
Qed.

Lemma has_sep_app_sep (a b : string) : has_sep (a ++ String "/" b) = true.
Proof.
  induction a as [|c r IH]; simpl; [reflexivity|].
  rewrite IH. apply orb_true_r.
Qed.

Lemma head_app_ends (d b : string) :
  ends_sep d = true -> has_sep b = false -> head_to_last_sep (d ++ b) = d.
Proof.
  intros Hd Hb. induction d as [|c r IH]; [discriminate|].
  destruct r as [|c' r'].
  - simpl in Hd. simpl. rewrite Hd. simpl. rewrite (head_no_sep b Hb). reflexivity.
  - assert (Hr : ends_sep (String c' r') = true) by exact Hd.
    change (String c (String c' r') ++ b)%string
      with (String c (String c' r' ++ b)).
    cbn [head_to_last_sep].
    rewrite (has_sep_app_l _ b (ends_sep_has_sep _ Hr)), orb_true_r.
    rewrite (IH Hr). reflexivity.
Qed.

Lemma head_app_sep (d b : string) :
  has_sep b = false ->
  head_to_last_sep (d ++ String "/" b) = (d ++ "/")%string.
Proof.
  intros Hb. induction d as [|c r IH].
  - simpl. rewrite (head_no_sep b Hb). reflexivity.
  - change (String c r ++ String "/" b)%string
      with (String c (r ++ String "/" b)).
    cbn [head_to_last_sep]. rewrite has_sep_app_sep, orb_true_r, IH. reflexivity.
Qed.

Lemma all_sep_ends (s : string) : s <> "" -> all_sep s = true -> ends_sep s = true.
Proof.
  induction s as [|c r IH]; [congruence|]. intros _. simpl.
  intros H. apply andb_true_iff in H. destruct H as [Hc Hr].
  destruct r as [|c' r']; [exact Hc|]. apply IH; [discriminate | exact Hr].
Qed.

Lemma all_sep_app_l (a b : string) : all_sep (a ++ b) = true -> all_sep a = true.
Proof.
  induction a as [|c r IH]; simpl; [reflexivity|].
  intros H. apply andb_true_iff in H. destruct H as [Hc Hr].
  rewrite Hc, (IH Hr). reflexivity.
Qed.

Lemma rstrip_app_sep (d : string) :
  ends_sep d = false -> rstrip_sep (d ++ "/") = d.
Proof.
  induction d as [|c r IH]; [reflexivity|].
  destruct r as [|c' r'].
  - simpl. intros ->. reflexivity.
  - intros H. assert (Hr : ends_sep (String c' r') = false) by exact H.
    change (String c (String c' r') ++ "/")%string
      with (String c (String c' r' ++ "/")).
    cbn [rstrip_sep]. rewrite (IH Hr). reflexivity.
Qed.

(** The parent of the [conftest.py] of a directory is that directory. *)
Lemma dirname_join_conftest (d : string) :
  dir_normal d -> dirname (join d "conftest.py") = d.
Proof.
  intros Hn. destruct (String.eqb_spec d "") as [->|Hne]; [reflexivity|].
  unfold join. cbn [starts_sep is_sep Ascii.eqb Bool.eqb].
  rewrite (proj2 (String.eqb_neq _ _) Hne). cbn [orb].
  destruct (ends_sep d) eqn:Hend.
  - destruct Hn as [Hall|Hf]; [|congruence].
    unfold dirname. rewrite head_app_ends by (exact Hend || reflexivity).
    rewrite Hall. rewrite andb_false_r. reflexivity.
  - cbn [String.append]. unfold dirname. rewrite head_app_sep by reflexivity.
    assert (Hd : all_sep (d ++ "/")%string = false).
    { destruct (all_sep (d ++ "/")%string) eqn:E; [|reflexivity].
      apply all_sep_app_l in E. apply (all_sep_ends d Hne) in E. congruence. }
    rewrite Hd.
    assert (Hnz : ((d ++ "/")%string =? "") = false).
    { apply String.eqb_neq. destruct d; discriminate. }
    rewrite Hnz. cbn [negb andb]. apply rstrip_app_sep. exact Hend.
Qed.

(** Along the chain of [q] the parents get strictly shorter. *)
Lemma chain_parent_shorter (q : string) (i : nat) :
  i < List.length (_get_fixture_search_order q) ->
  String.length (Nat.iter (S i) dirname q) < String.length q.
Proof.
  destruct (search_order_shape q) as [[_ [_ Hall]] _].
  rewrite Forall_forall in Hall.
  induction i as [|i IH]; intros Hi.
  - apply (Hall 0). apply in_seq. lia.
  - assert (Hi' : i < List.length (_get_fixture_search_order q)) by lia.
    specialize (IH Hi').
    pose proof (Hall (S i)) as H. simpl in H.
    assert (Hin : In (S i) (seq 0 (List.length (_get_fixture_search_order q)))).
    { apply in_seq. lia. }
    apply H in Hin. simpl. simpl in IH. lia.
Qed.

(** A file is never in the chain of its own directory. *)
Lemma file_not_in_own_chain (func_path : string) :
  ~ In func_path (_get_fixture_search_order (dirname func_path)).
Proof.
  set (q := dirname func_path).
  destruct (search_order_shape q) as [[Hmap _] _].
  rewrite Hmap. intros Hin. apply in_map_iff in Hin.
  destruct Hin as [i [Heq Hi]]. apply in_seq in Hi.
  assert (Hd : dirname func_path = Nat.iter (S i) dirname q).
  { rewrite <- Heq. apply dirname_join_conftest. simpl. apply dirname_normal. }
  pose proof (chain_parent_shorter q i ltac:(lia)) as Hlt.
  fold q in Hd. rewrite <- Hd in Hlt. lia.
Qed.

(** ** Facts about [sorted] and [list.index] *)

Section SortedFacts.
Context {A K : Type}.
Variable ltb : K -> K -> bool.
Variable key : A -> K.

Lemma insert_sorted_perm (x : A) (l : list A) :
  Permutation (insert_sorted ltb key x l) (x :: l).
Proof.
  induction l as [|y t IH]; simpl; [apply Permutation_refl|].
  destruct (ltb (key y) (key x)); [|apply Permutation_refl].
  apply perm_trans with (y :: x :: t); [apply perm_skip, IH | apply perm_swap].
Qed.

Lemma sorted_perm (l : list A) : Permutation (sorted ltb key l) l.
Proof.
  induction l as [|x t IH]; simpl; [apply perm_nil|].
  apply perm_trans with (x :: sorted ltb key t);
    [apply insert_sorted_perm | apply perm_skip, IH].
Qed.

Lemma hd_insert_sorted (x : A) (l : list A) :
  hd_error (insert_sorted ltb key x l) =
  match hd_error l with
  | None => Some x
  | Some y => if ltb (key y) (key x) then Some y else Some x
  end.
Proof.
  destruct l as [|y t]; simpl; [reflexivity|].
  destruct (ltb (key y) (key x)); reflexivity.
Qed.

(** The head of the sorted list is the first element of least key. *)
Lemma hd_sorted (l : list A) : hd_error (sorted ltb key l) = first_min ltb key l.
Proof.
  induction l as [|x t IH]; simpl; [reflexivity|].
  rewrite hd_insert_sorted, IH. reflexivity.
Qed.

Lemma first_min_none (l : list A) : first_min ltb key l = None -> l = [].
Proof.
  destruct l as [|x t]; simpl; [reflexivity|].
  destruct (first_min ltb key t); [destruct (ltb _ _)|]; discriminate.
Qed.

Hypothesis ltb_trans :
  forall a b c, ltb a b = true -> ltb b c = true -> ltb a c = true.
Hypothesis ltb_asym : forall a b, ltb a b = true -> ltb b a = false.
Hypothesis geb_trans :
  forall a b c, ltb b a = false -> ltb c b = false -> ltb c a = false.

(** [a] comes no later than [b] in the order of the keys. *)
Definition key_le (a b : A) : Prop := ltb (key b) (key a) = false.

Lemma insert_sorted_sorted (x : A) (l : list A) :
  StronglySorted key_le l -> StronglySorted key_le (insert_sorted ltb key x l).
Proof.
  induction l as [|y t IH]; intros Hs; simpl.
  - constructor; [constructor | constructor].
  - inversion Hs as [|y' t' Ht Hall]; subst.
    destruct (ltb (key y) (key x)) eqn:E.
    + constructor; [apply IH; exact Ht|].
      apply (Permutation_Forall (x := x :: t)).
      * apply Permutation_sym, insert_sorted_perm.
      * constructor; [apply ltb_asym; exact E | exact Hall].
    + constructor; [exact Hs|].
      constructor; [exact E|].
      revert Hall. apply Forall_impl. intros z Hz.
      unfold key_le in *. apply (geb_trans _ (key y)); assumption.
Qed.

Lemma sorted_sorted (l : list A) : StronglySorted key_le (sorted ltb key l).
Proof.
  induction l as [|x t IH]; simpl; [constructor|].
  apply insert_sorted_sorted. exact IH.
Qed.

(** Where the first element of least key stands in the input. *)
Lemma first_min_split (l : list A) (m : A) :
  first_min ltb key l = Some m ->
  exists l1 l2, l = l1 ++ m :: l2
    /\ Forall (fun x => ltb (key m) (key x) = true) l1
    /\ Forall (fun x => ltb (key x) (key m) = false) l2.
Proof.
  revert m. induction l as [|x t IH]; intros m; simpl; [discriminate|].
  destruct (first_min ltb key t) as [m'|] eqn:E.
  - destruct (IH m' eq_refl) as [l1 [l2 [Ht [H1 H2]]]].
    destruct (ltb (key m') (key x)) eqn:Elt; intros [= <-].
    + exists (x :: l1), l2. rewrite Ht. split; [reflexivity|].
      split; [constructor; assumption | exact H2].
    + exists [], t. split; [reflexivity|]. split; [constructor|].
      rewrite Ht. apply Forall_app. split; [|constructor].
      * revert H1. apply Forall_impl. intros y Hy.
        destruct (ltb (key y) (key x)) eqn:Ey; [|reflexivity].
        rewrite (ltb_trans _ _ _ Hy Ey) in Elt. discriminate.
      * exact Elt.
      * revert H2. apply Forall_impl. intros y Hy.
        apply (geb_trans _ (key m')); assumption.
  - intros [= <-]. apply first_min_none in E. subst t.
    exists [], []. repeat split; constructor.
Qed.

Lemma first_min_least (l : list A) (m : A) :
  first_min ltb key l = Some m ->
  In m l /\ forall x, In x l -> ltb (key x) (key m) = false.
Proof.
  intros H. destruct (first_min_split l m H) as [l1 [l2 [-> [H1 H2]]]].
  rewrite Forall_forall in H1, H2.
  split; [apply in_elt|].
  intros x Hx. apply in_app_or in Hx. destruct Hx as [Hx|[<-|Hx]].
  - apply ltb_asym, H1, Hx.
  - destruct (ltb (key m) (key m)) eqn:E; [|reflexivity].
    rewrite (ltb_asym _ _ E) in E. discriminate.
  - apply H2, Hx.
Qed.

(** Stability: a selection that never takes two elements of different keys
    is found in the sorted list in the order of the input. *)
Lemma filter_insert_sorted (sel : A -> bool) (x : A) (l : list A) :
  (forall y, ltb (key y) (key x) = true -> sel x = true -> sel y = false) ->
  filter sel (insert_sorted ltb key x l) = filter sel (x :: l).
Proof.
  intros Hsel. induction l as [|y t IH]; [reflexivity|].
  cbn [insert_sorted]. destruct (ltb (key y) (key x)) eqn:E; [|reflexivity].
  cbn [filter] in *. rewrite IH.
  destruct (sel x) eqn:Ex; [|reflexivity].
  rewrite (Hsel y E eq_refl). reflexivity.
Qed.

Lemma filter_sorted (sel : A -> bool) (l : list A) :
  (forall x y, ltb (key y) (key x) = true -> sel x = true -> sel y = false) ->
  filter sel (sorted ltb key l) = filter sel l.
Proof.
  intros Hsel. induction l as [|x t IH]; [reflexivity|].
  cbn [sorted]. rewrite filter_insert_sorted by (apply Hsel).
  cbn [filter]. rewrite IH. reflexivity.
Qed.

End SortedFacts.

Lemma StronglySorted_weaken {A : Type} (R R' : A -> A -> Prop) (l : list A) :
  (forall a b, R a b -> R' a b) -> StronglySorted R l -> StronglySorted R' l.
Proof.
  intros HR Hs. induction Hs as [|a l Hl IH Hall]; constructor.
  - exact IH.
  - revert Hall. apply Forall_impl. intros b. apply HR.
Qed.

Lemma list_index_Some (x : string) (l : list string) (i : nat) :
  list_index x l = Some i ->
  nth_error l i = Some x /\ forall j, j < i -> nth_error l j <> Some x.
Proof.
  revert i. induction l as [|y t IH]; intros i; simpl; [discriminate|].
  destruct (String.eqb_spec y x) as [->|Hne].
  - intros [= <-]. split; [reflexivity | intros j Hj; lia].
  - destruct (list_index x t) as [k|]; [|discriminate].
    intros [= <-]. destruct (IH k eq_refl) as [Hk Hlt].
    split; [exact Hk|]. intros [|j] Hj; simpl; [congruence|].
    apply Hlt. lia.
Qed.

Lemma list_index_None (x : string) (l : list string) :
  list_index x l = None <-> ~ In x l.
Proof.
  induction l as [|y t IH]; simpl; [tauto|].
  destruct (String.eqb_spec y x) as [->|Hne].
  - split; [discriminate | tauto].
  - destruct (list_index x t) as [k|].
    + split; [discriminate|]. intros H.
      destruct (in_dec string_dec x t) as [Hin|Hnin].
      * exfalso. apply H. right. exact Hin.
      * apply IH in Hnin. discriminate.
    + split; [|reflexivity]. intros _ [H|H]; [congruence|].
      destruct IH as [IH _]. apply (IH eq_refl H).
Qed.

Lemma list_index_first (x : string) (l : list string) (i : nat) :
  nth_error l i = Some x ->
  (forall j, j < i -> nth_error l j <> Some x) ->
  list_index x l = Some i.
Proof.
  intros Hi Hlt. destruct (list_index x l) as [k|] eqn:E.
  - destruct (list_index_Some x l k E) as [Hk Hklt].
    destruct (Nat.lt_trichotomy k i) as [H|[H|H]].
    + exfalso. apply (Hlt k H Hk).
    + congruence.
    + exfalso. apply (Hklt i H Hi).
  - exfalso. apply list_index_None in E. apply E.
    apply (nth_error_In _ _ Hi).
Qed.

(** ** The selector: [_find_fixture_def] *)

Lemma Z_ltb_trans (a b c : Z) :
  Z.ltb a b = true -> Z.ltb b c = true -> Z.ltb a c = true.
Proof. rewrite !Z.ltb_lt. lia. Qed.

Lemma Z_ltb_asym (a b : Z) : Z.ltb a b = true -> Z.ltb b a = false.
Proof. rewrite Z.ltb_lt, Z.ltb_ge. lia. Qed.

Lemma Z_geb_trans (a b c : Z) :
  Z.ltb b a = false -> Z.ltb c b = false -> Z.ltb c a = false.
Proof. rewrite !Z.ltb_ge. lia. Qed.

Lemma dirname_length (p : string) : String.length (dirname p) <= String.length p.
Proof.
  destruct (string_dec (dirname p) p) as [->|Hne]; [lia|].
  pose proof (dirname_shrinks p Hne). lia.
Qed.

Lemma find_search_order_length (source_fixture_name func_path fixture_name : string) :
  List.length (find_search_order source_fixture_name func_path fixture_name)
  <= S (String.length func_path).
Proof.
  unfold find_search_order.
  destruct (search_order_shape (dirname func_path)) as [_ Hlen].
  pose proof (dirname_length func_path).
  destruct (negb (source_fixture_name =? fixture_name)); simpl; lia.
Qed.

Lemma sort_key_present (search_order : list string) (d : FixtureDef) (i : nat) :
  nth_error search_order i = Some (func_file d) ->
  (forall j, j < i -> nth_error search_order j <> Some (func_file d)) ->
  sort_key search_order d = Z.of_nat i.
Proof.
  intros Hi Hlt. unfold sort_key.
  rewrite (list_index_first _ _ _ Hi Hlt). reflexivity.
Qed.

Lemma sort_key_absent (search_order : list string) (d : FixtureDef) :
  ~ In (func_file d) search_order -> sort_key search_order d = sys_maxsize.
Proof.
  intros H. unfold sort_key.
  rewrite (proj2 (list_index_None _ _) H). reflexivity.
Qed.

(** The candidate chosen among a non-empty list has the least key. *)
Lemma first_sorted_least (search_order : list string) (l : list FixtureDef) :
  l <> [] ->
  exists d, first_sorted search_order l = Some d /\ In d l
    /\ forall c, In c l -> (sort_key search_order d <= sort_key search_order c)%Z.
Proof.
  intros Hne. unfold first_sorted. rewrite hd_sorted.
  destruct (first_min Z.ltb (sort_key search_order) l) as [d|] eqn:E.
  - exists d. split; [reflexivity|].
    destruct (first_min_least Z.ltb _ Z_ltb_trans Z_ltb_asym Z_geb_trans l d E)
      as [Hin Hle].
    split; [exact Hin|]. intros c Hc. apply Z.ltb_ge. apply Hle. exact Hc.
  - apply first_min_none in E. contradiction.
Qed.

(** The nearest location of the search order at which a candidate is
    declared is the location of the chosen candidate. *)
Lemma first_sorted_nearest (search_order : list string) (l : list FixtureDef)
    (i : nat) (Y : string) :
  (Z.of_nat i < sys_maxsize)%Z ->
  nth_error search_order i = Some Y ->
  (exists c, In c l /\ func_file c = Y) ->
  (forall c j, In c l -> j < i -> nth_error search_order j <> Some (func_file c)) ->
  exists d, first_sorted search_order l = Some d /\ In d l /\ func_file d = Y.
Proof.
  intros Hi Hnth [c [Hc HY]] Hnear.
  assert (Hne : l <> []) by (intros ->; destruct Hc).
  destruct (first_sorted_least search_order l Hne) as [d [Hd [Hin Hle]]].
  exists d. split; [exact Hd|]. split; [exact Hin|].
  assert (Hkc : sort_key search_order c = Z.of_nat i).
  { apply sort_key_present; [rewrite HY; exact Hnth|].
    intros j Hj. apply Hnear; assumption. }
  specialize (Hle c Hc). rewrite Hkc in Hle.
  unfold sort_key in Hle.
  destruct (list_index (func_file d) search_order) as [k|] eqn:Ek; [|lia].
  destruct (list_index_Some _ _ _ Ek) as [Hk _].
  destruct (Nat.eq_dec k i) as [->|Hki]; [congruence|].
  exfalso. apply (Hnear d k Hin); [lia | exact Hk].
Qed.

(** C1: the search order of [_find_fixture_def] is the ancestor chain of
    the directory of [func_path], with [func_path] itself put in front
    exactly when the requesting name differs from the wanted one. The
    chosen candidate is declared at the first location of the search order
    at which any candidate is declared: with different names a candidate in
    the consumer's own file wins over the nearest ancestor, which wins over
    the next one; with equal names the consumer's own file is not in the
    search order and the nearest ancestor's candidate is chosen, never one
    of the consumer's own file. The function is total. *)
Theorem find_fixture_def_precedence
    (name2fixturedefs : dict (list FixtureDef))
    (source_fixture_name fixture_name func_path : string) :
  let search_order :=
    find_search_order source_fixture_name func_path fixture_name in
  let chain := _get_fixture_search_order (dirname func_path) in
  (source_fixture_name <> fixture_name -> search_order = func_path :: chain)
  /\ (source_fixture_name = fixture_name ->
      search_order = chain /\ ~ In func_path search_order)
  /\ (forall target_fixture_defs i Y,
        (Z.of_nat (String.length func_path) < sys_maxsize)%Z ->
        dict_get name2fixturedefs fixture_name = Some target_fixture_defs ->
        nth_error search_order i = Some Y ->
        (exists c, In c target_fixture_defs /\ func_file c = Y) ->
        (forall c j, In c target_fixture_defs -> j < i ->
                     nth_error search_order j <> Some (func_file c)) ->
        exists d,
          _find_fixture_def source_fixture_name func_path fixture_name
            name2fixturedefs = Some d
          /\ In d target_fixture_defs
          /\ func_file d = Y
          /\ (source_fixture_name = fixture_name -> func_file d <> func_path)).
Proof.
  intros search_order chain.
  assert (Hne : source_fixture_name <> fixture_name ->
                search_order = func_path :: chain).
  { intros H. unfold search_order, find_search_order.
    rewrite (proj2 (String.eqb_neq _ _) H). reflexivity. }
  assert (Heq : source_fixture_name = fixture_name ->
                search_order = chain /\ ~ In func_path search_order).
  { intros H. unfold search_order, find_search_order.
    rewrite (proj2 (String.eqb_eq _ _) H). cbn [negb].
    split; [reflexivity | apply file_not_in_own_chain]. }
  split; [exact Hne|]. split; [exact Heq|].
  intros l i Y Hlen Hreg Hnth Hcand Hnear.
  assert (Hi : (Z.of_nat i < sys_maxsize)%Z).
  { pose proof (find_search_order_length source_fixture_name func_path
                  fixture_name) as Hl.
    assert (i < List.length search_order)
      by (apply nth_error_Some; rewrite Hnth; discriminate).
    fold search_order in Hl. lia. }
  destruct (first_sorted_nearest search_order l i Y Hi Hnth Hcand Hnear)
    as [d [Hd [Hin HdY]]].
  exists d. unfold _find_fixture_def. rewrite Hreg.
  fold search_order. split; [exact Hd|]. split; [exact Hin|].
  split; [exact HdY|].
  intros Hsame Hfile. destruct (Heq Hsame) as [_ Hnot]. apply Hnot.
  rewrite <- Hfile, HdY. apply (nth_error_In _ _ Hnth).
Qed.

(** Three definitions of [db]: at the root, one directory below, and in the
    consumer's own file. *)
Definition db_at_root : FixtureDef :=
  mkFixtureDef "" "conftest" "/conftest.py" [].
Definition db_at_depth1 : FixtureDef :=
  mkFixtureDef "root" "root.conftest" "/root/conftest.py" [].
Definition db_at_consumer : FixtureDef :=
  mkFixtureDef "root/api" "root.api.conftest" "/root/api/conftest.py" ["db"].

Example precedence_own_file :
  _find_fixture_def "client" "/root/api/conftest.py" "db"
    [("db", [db_at_root; db_at_depth1; db_at_consumer])] = Some db_at_consumer.
Proof. reflexivity. Qed.

Example precedence_depth1 :
  _find_fixture_def "client" "/root/api/conftest.py" "db"
    [("db", [db_at_root; db_at_depth1])] = Some db_at_depth1.
Proof. reflexivity. Qed.

Example precedence_depth2 :
  _find_fixture_def "client" "/root/api/conftest.py" "db"
    [("db", [db_at_root])] = Some db_at_root.
Proof. reflexivity. Qed.

Example precedence_self_override :
  _find_fixture_def "db" "/root/api/conftest.py" "db"
    [("db", [db_at_consumer; db_at_root; db_at_depth1])] = Some db_at_depth1.
Proof. reflexivity. Qed.

Lemma find_fixture_def_precedence_witness :
  (exists d,
     _find_fixture_def "client" "/root/api/conftest.py" "db"
       [("db", [db_at_root; db_at_depth1; db_at_consumer])] = Some d
     /\ func_file d = "/root/api/conftest.py")
  /\ (exists d,
     _find_fixture_def "db" "/root/api/conftest.py" "db"
       [("db", [db_at_consumer; db_at_root; db_at_depth1])] = Some d
     /\ func_file d = "/root/conftest.py"
     /\ func_file d <> "/root/api/conftest.py").
Proof.
  split.
  - destruct (find_fixture_def_precedence
                [("db", [db_at_root; db_at_depth1; db_at_consumer])]
                "client" "db" "/root/api/conftest.py") as [_ [_ H]].
    destruct (H [db_at_root; db_at_depth1; db_at_consumer] 0
                "/root/api/conftest.py") as [d [Hd [_ [HY _]]]].
    + reflexivity.
    + reflexivity.
    + reflexivity.
    + exists db_at_consumer. simpl. tauto.
    + intros c j _ Hj. lia.
    + exists d. split; [exact Hd | exact HY].
  - destruct (find_fixture_def_precedence
                [("db", [db_at_consumer; db_at_root; db_at_depth1])]
                "db" "db" "/root/api/conftest.py") as [_ [_ H]].
    destruct (H [db_at_consumer; db_at_root; db_at_depth1] 0
                "/root/conftest.py") as [d [Hd [_ [HY Hown]]]].
    + reflexivity.
    + reflexivity.
    + reflexivity.
    + exists db_at_depth1. simpl. tauto.
    + intros c j _ Hj. lia.
    + exists d. split; [exact Hd|]. split; [exact HY | exact (Hown eq_refl)].
Defined.

(** The chosen candidate is the first one of least key: every candidate
    before it in the input has a greater key, none after it has a smaller
    one. *)
Lemma first_sorted_split (search_order : list string) (l : list FixtureDef)
    (m : FixtureDef) :
  first_sorted search_order l = Some m ->
  exists l1 l2, l = l1 ++ m :: l2
    /\ Forall (fun x => (sort_key search_order m < sort_key search_order x)%Z) l1
    /\ Forall (fun x => (sort_key search_order m <= sort_key search_order x)%Z) l2.
Proof.
  unfold first_sorted. rewrite hd_sorted. intros E.
  destruct (first_min_split Z.ltb _ Z_ltb_trans Z_geb_trans l m E)
    as [l1 [l2 [Hl [H1 H2]]]].
  exists l1, l2. split; [exact Hl|]. split.
  - revert H1. apply Forall_impl. intros x. apply Z.ltb_lt.
  - revert H2. apply Forall_impl. intros x. apply Z.ltb_ge.
Qed.

Lemma first_sorted_none (search_order : list string) (l : list FixtureDef) :
  first_sorted search_order l = None <-> l = [].
Proof.
  unfold first_sorted. rewrite hd_sorted. split.
  - apply first_min_none.
  - intros ->. reflexivity.
Qed.

(** A location of the search order has a first position in it. *)
Lemma list_index_In (x : string) (l : list string) :
  In x l ->
  exists i, list_index x l = Some i /\ nth_error l i = Some x
    /\ (forall j, j < i -> nth_error l j <> Some x) /\ i < List.length l.
Proof.
  intros Hin. destruct (list_index x l) as [i|] eqn:E.
  - exists i. destruct (list_index_Some x l i E) as [Hi Hlt].
    split; [reflexivity|]. split; [exact Hi|]. split; [exact Hlt|].
    apply nth_error_Some. rewrite Hi. discriminate.
  - exfalso. apply (proj1 (list_index_None x l) E Hin).
Qed.

(** C2: the candidates are sorted by [sort_key], the position of their file
    in the search order: the sorted list is a permutation of the candidates
    in ascending order of the keys; candidates of equal key stand in their
    original order; the key of a candidate whose file is in the search
    order is the first position of that file in it; a candidate whose file
    is not in the search order has the key [sys.maxsize], which no key
    exceeds and which is greater than the key of every candidate that is in
    the search order, when the search order is a Python list; the first
    element of the sorted list is returned: it is the first candidate of
    least key in the original order, the first candidate declared at the
    nearest location of the search order at which any candidate is
    declared, and the first candidate of the registry when no candidate's
    file is in the search order. *)
Theorem first_sorted_stable
    (search_order : list string) (target_fixture_defs : list FixtureDef) :
  let key := sort_key search_order in
  let s := sorted Z.ltb key target_fixture_defs in
  Permutation s target_fixture_defs
  /\ StronglySorted (fun a b => (key a <= key b)%Z) s
  /\ (forall k, filter (fun d => (key d =? k)%Z) s
                = filter (fun d => (key d =? k)%Z) target_fixture_defs)
  /\ first_sorted search_order target_fixture_defs = hd_error s
  /\ (forall source_fixture_name func_path fixture_name name2fixturedefs,
        find_search_order source_fixture_name func_path fixture_name
          = search_order ->
        dict_get name2fixturedefs fixture_name = Some target_fixture_defs ->
        _find_fixture_def source_fixture_name func_path fixture_name
          name2fixturedefs = hd_error s)
  /\ (forall d, ~ In (func_file d) search_order -> key d = sys_maxsize)
  /\ (forall d i, list_index (func_file d) search_order = Some i ->
                  key d = Z.of_nat i /\ i < List.length search_order)
  /\ ((Z.of_nat (List.length search_order) <= sys_maxsize)%Z ->
      forall d, (key d <= sys_maxsize)%Z)
  /\ ((forall d, In d target_fixture_defs -> ~ In (func_file d) search_order) ->
      first_sorted search_order target_fixture_defs
        = hd_error target_fixture_defs)
  /\ (forall d i,
        nth_error search_order i = Some (func_file d) ->
        (forall j, j < i -> nth_error search_order j <> Some (func_file d)) ->
        key d = Z.of_nat i)
  /\ (forall d, In (func_file d) search_order ->
        exists i, nth_error search_order i = Some (func_file d)
          /\ (forall j, j < i -> nth_error search_order j <> Some (func_file d))
          /\ key d = Z.of_nat i /\ i < List.length search_order)
  /\ ((Z.of_nat (List.length search_order) <= sys_maxsize)%Z ->
      forall a b, In (func_file a) search_order ->
                  ~ In (func_file b) search_order -> (key a < key b)%Z)
  /\ (first_sorted search_order target_fixture_defs = None
      <-> target_fixture_defs = [])
  /\ (forall m, first_sorted search_order target_fixture_defs = Some m ->
        exists l1 l2, target_fixture_defs = l1 ++ m :: l2
          /\ Forall (fun x => (key m < key x)%Z) l1
          /\ Forall (fun x => (key m <= key x)%Z) l2)
  /\ (forall i Y,
        (Z.of_nat i < sys_maxsize)%Z ->
        nth_error search_order i = Some Y ->
        (exists c, In c target_fixture_defs /\ func_file c = Y) ->
        (forall c j, In c target_fixture_defs -> j < i ->
                     nth_error search_order j <> Some (func_file c)) ->
        exists l1 d l2, target_fixture_defs = l1 ++ d :: l2
          /\ first_sorted search_order target_fixture_defs = Some d
          /\ func_file d = Y
          /\ Forall (fun x => func_file x <> Y) l1).
Proof.
  intros key s.
  assert (Hidx : forall d i, list_index (func_file d) search_order = Some i ->
                 key d = Z.of_nat i /\ i < List.length search_order).
  { intros d i Hi. unfold key, sort_key. rewrite Hi. split; [reflexivity|].
    apply list_index_Some in Hi. destruct Hi as [Hi _].
    apply nth_error_Some. rewrite Hi. discriminate. }
  assert (Hpos : forall d, In (func_file d) search_order ->
            exists i, nth_error search_order i = Some (func_file d)
              /\ (forall j, j < i -> nth_error search_order j <> Some (func_file d))
              /\ key d = Z.of_nat i /\ i < List.length search_order).
  { intros d Hin.
    destruct (list_index_In _ _ Hin) as [i [Hi [Hnth [Hlt Hlen]]]].
    exists i. split; [exact Hnth|]. split; [exact Hlt|].
    split; [exact (proj1 (Hidx d i Hi)) | exact Hlen]. }
  split; [apply sorted_perm|].
  split.
  { apply (StronglySorted_weaken (key_le Z.ltb key)).
    - intros a b Hb. unfold key_le in Hb. apply Z.ltb_ge in Hb. exact Hb.
    - apply sorted_sorted; [exact Z_ltb_asym | exact Z_geb_trans]. }
  split.
  { intros k. apply filter_sorted. intros x y Hlt Hx.
    apply Z.ltb_lt in Hlt. apply Z.eqb_eq in Hx. apply Z.eqb_neq. lia. }
  split; [reflexivity|].
  split.
  { intros r L w reg Hso Hreg. unfold _find_fixture_def.
    rewrite Hreg, Hso. reflexivity. }
  split; [intros d; apply sort_key_absent|].
  split; [exact Hidx|].
  split.
  { intros Hlen d. unfold key, sort_key.
    destruct (list_index (func_file d) search_order) as [i|] eqn:Ei; [|lia].
    destruct (Hidx d i Ei) as [_ Hi]. lia. }
  split.
  { intros Habs.
    destruct target_fixture_defs as [|x t]; [reflexivity|].
    destruct (first_sorted search_order (x :: t)) as [m|] eqn:E.
    - destruct (first_sorted_split search_order (x :: t) m E)
        as [l1 [l2 [Hl [H1 _]]]].
      destruct l1 as [|y l1]; [injection Hl as -> _; reflexivity|].
      exfalso. injection Hl as Hxy Ht. subst y.
      inversion H1 as [|? ? Hlt _]; subst.
      rewrite (sort_key_absent search_order m) in Hlt.
      + rewrite (sort_key_absent search_order x) in Hlt; [lia|].
        apply Habs. left. reflexivity.
      + apply Habs. right. apply in_elt.
    - apply first_sorted_none in E. discriminate E. }
  split; [intros d i; apply sort_key_present|].
  split; [exact Hpos|].
  split.
  { intros Hlen a b Ha Hb.
    destruct (Hpos a Ha) as [i [_ [_ [Hk Hi]]]].
    unfold key in *. rewrite Hk, (sort_key_absent search_order b Hb). lia. }
  split; [apply first_sorted_none|].
  split; [intros m; apply first_sorted_split|].
  intros i Y Hi Hnth Hcand Hnear.
  destruct (first_sorted_nearest search_order target_fixture_defs i Y Hi Hnth
              Hcand Hnear) as [d [Hd [_ HdY]]].
  destruct (first_sorted_split search_order target_fixture_defs d Hd)
    as [l1 [l2 [Hl [H1 _]]]].
  exists l1, d, l2. split; [exact Hl|]. split; [exact Hd|].
  split; [exact HdY|].
  revert H1. apply Forall_impl. intros x Hlt Hx.
  unfold sort_key in Hlt. rewrite Hx, HdY in Hlt. lia.
Qed.

Definition absent_first : FixtureDef :=
  mkFixtureDef "other" "other.a" "/other/a.py" [].
Definition absent_second : FixtureDef :=
  mkFixtureDef "other" "other.b" "/other/b.py" [].

(** A second definition at [/root/conftest.py], after [db_at_depth1]. *)
Definition db_at_depth1_again : FixtureDef :=
  mkFixtureDef "root" "root.conftest" "/root/conftest.py" ["request"].

Lemma first_sorted_stable_witness :
  first_sorted ["/root/api/test_x.py"; "/root/conftest.py"; "/conftest.py"]
    [absent_first; absent_second] = Some absent_first
  /\ (sort_key ["/root/api/test_x.py"; "/root/conftest.py"; "/conftest.py"]
        absent_second <= sys_maxsize)%Z
  /\ sort_key ["/root/api/test_x.py"; "/root/conftest.py"; "/conftest.py"]
       db_at_depth1 = 1%Z
  /\ sort_key ["/root/api/test_x.py"; "/root/conftest.py"; "/conftest.py"]
       db_at_root = 2%Z
  /\ (sort_key ["/root/api/test_x.py"; "/root/conftest.py"; "/conftest.py"]
        db_at_root
      < sort_key ["/root/api/test_x.py"; "/root/conftest.py"; "/conftest.py"]
          absent_first)%Z
  /\ first_sorted ["/root/api/test_x.py"; "/root/conftest.py"; "/conftest.py"]
       [absent_first; db_at_root; db_at_depth1; db_at_depth1_again]
     = Some db_at_depth1.
Proof.
  split; [|split; [|split; [|split; [|split]]]].
  - destruct (first_sorted_stable
                ["/root/api/test_x.py"; "/root/conftest.py"; "/conftest.py"]
                [absent_first; absent_second])
      as [_ [_ [_ [_ [_ [_ [_ [_ [Hfirst _]]]]]]]]].
    rewrite Hfirst; [reflexivity|].
    intros d [<-|[<-|[]]]; simpl; intros [H|[H|[H|[]]]]; discriminate H.
  - destruct (first_sorted_stable
                ["/root/api/test_x.py"; "/root/conftest.py"; "/conftest.py"]
                [absent_first; absent_second])
      as [_ [_ [_ [_ [_ [_ [_ [Hlast _]]]]]]]].
    apply Hlast. vm_compute. discriminate.
  - destruct (first_sorted_stable
                ["/root/api/test_x.py"; "/root/conftest.py"; "/conftest.py"]
                [absent_first; db_at_root; db_at_depth1; db_at_depth1_again])
      as [_ [_ [_ [_ [_ [_ [_ [_ [_ [Hkey _]]]]]]]]]].
    apply (Hkey db_at_depth1 1); [reflexivity|].
    intros [|j] Hj; [simpl; discriminate | lia].
  - destruct (first_sorted_stable
                ["/root/api/test_x.py"; "/root/conftest.py"; "/conftest.py"]
                [absent_first; db_at_root; db_at_depth1; db_at_depth1_again])
      as [_ [_ [_ [_ [_ [_ [_ [_ [_ [Hkey _]]]]]]]]]].
    apply (Hkey db_at_root 2); [reflexivity|].
    intros [|[|j]] Hj; [simpl; discriminate | simpl; discriminate | lia].
  - destruct (first_sorted_stable
                ["/root/api/test_x.py"; "/root/conftest.py"; "/conftest.py"]
                [absent_first; db_at_root; db_at_depth1; db_at_depth1_again])
      as [_ [_ [_ [_ [_ [_ [_ [_ [_ [_ [_ [Hlt _]]]]]]]]]]]].
    apply Hlt.
    + vm_compute. discriminate.
    + simpl. tauto.
    + simpl. intros [H|[H|[H|[]]]]; discriminate H.
  - destruct (first_sorted_stable
                ["/root/api/test_x.py"; "/root/conftest.py"; "/conftest.py"]
                [absent_first; db_at_root; db_at_depth1; db_at_depth1_again])
      as [_ [_ [_ [_ [_ [_ [_ [_ [_ [_ [_ [_ [_ [_ Hnear]]]]]]]]]]]]]].
    destruct (Hnear 1 "/root/conftest.py") as [l1 [d [l2 [Hl [Hd [HY Hl1]]]]]].
    + vm_compute. reflexivity.
    + reflexivity.
    + exists db_at_depth1. simpl. tauto.
    + intros c [|j] Hc Hj; [|lia]. simpl.
      destruct Hc as [<-|[<-|[<-|[<-|[]]]]]; simpl; discriminate.
    + rewrite Hd. f_equal.
      destruct l1 as [|x1 [|x2 [|x3 [|x4 l1]]]]; simpl in Hl.
      * injection Hl as Hx _. subst d. discriminate HY.
      * injection Hl as _ Hx _. subst d. discriminate HY.
      * injection Hl as _ _ Hx _. symmetry. exact Hx.
      * exfalso. injection Hl as _ _ Hx _. subst x3.
        inversion Hl1 as [|? ? _ Hl1']. inversion Hl1' as [|? ? _ Hl1''].
        inversion Hl1'' as [|? ? Hne _]. apply Hne. reflexivity.
      * exfalso. injection Hl as _ _ _ _ Hx.
        destruct l1; discriminate Hx.
Defined.

(** ** Order of strings *)

Lemma str_ltb_lt (a b : string) : String.ltb a b = true <-> String_as_OT.lt a b.
Proof.
  unfold String.ltb. rewrite <- String_as_OT.cmp_lt. unfold String_as_OT.cmp.
  destruct (String.compare a b); split; congruence.
Qed.

Lemma str_ltb_trans (a b c : string) :
  String.ltb a b = true -> String.ltb b c = true -> String.ltb a c = true.
Proof. rewrite !str_ltb_lt. apply String_as_OT.lt_trans. Qed.

Lemma str_ltb_asym (a b : string) : String.ltb a b = true -> String.ltb b a = false.
Proof.
  intros H. destruct (String.ltb b a) eqn:E; [|reflexivity].
  exfalso. apply str_ltb_lt in H, E.
  apply (String_as_OT.lt_not_eq a a); [|reflexivity].
  apply (String_as_OT.lt_trans _ _ _ H E).
Qed.

Lemma str_ltb_false (a b : string) :
  String.ltb a b = false -> a = b \/ String.ltb b a = true.
Proof.
  unfold String.ltb. rewrite (String.compare_antisym a b).
  destruct (String.compare b a) eqn:E; simpl; try discriminate.
  - intros _. left. symmetry. apply String.compare_eq_iff. exact E.
  - intros _. right. reflexivity.
Qed.

Lemma str_geb_trans (a b c : string) :
  String.ltb b a = false -> String.ltb c b = false -> String.ltb c a = false.
Proof.
  intros Hba Hcb. destruct (String.ltb c a) eqn:E; [|reflexivity].
  destruct (str_ltb_false _ _ Hba) as [->|Hab]; [congruence|].
  destruct (str_ltb_false _ _ Hcb) as [->|Hbc]; [congruence|].
  pose proof (str_ltb_trans _ _ _ Hab Hbc) as Hac.
  rewrite (str_ltb_asym _ _ Hac) in E. discriminate.
Qed.

Lemma str_leb_ltb (a b : string) : String.leb a b = negb (String.ltb b a).
Proof.
  unfold String.leb, String.ltb. rewrite (String.compare_antisym a b).
  destruct (String.compare b a); reflexivity.
Qed.

(** ** The duplicate report: [print_duplicates] *)

(** The header printed before the first member. *)
Definition report_header (argname : string) (previous_argname : option string)
    : list tw_call :=
  if differs previous_argname argname
  then [tw_line ""; tw_sep "-" argname] else [].

Lemma differs_same (argname : string) : differs (Some argname) argname = false.
Proof. simpl. rewrite String.eqb_refl. reflexivity. Qed.

Lemma print_members_same (argname : string) (fixtures : list fixture) :
  print_members argname fixtures (Some argname)
  = map (fun f => tw_line (bestrel f)) fixtures.
Proof.
  induction fixtures as [|f rest IH]; [reflexivity|].
  cbn [print_members]. rewrite differs_same. cbn [verbose Z.leb andb].
  simpl. rewrite IH. reflexivity.
Qed.

Lemma print_members_header (argname : string) (fixtures : list fixture)
    (previous_argname : option string) :
  fixtures <> [] ->
  print_members argname fixtures previous_argname
  = (report_header argname previous_argname
     ++ map (fun f => tw_line (bestrel f)) fixtures)%list.
Proof.
  destruct fixtures as [|f rest]; [congruence|]. intros _.
  cbn [print_members]. unfold report_header.
  destruct (differs previous_argname argname) eqn:E.
  - rewrite print_members_same. reflexivity.
  - destruct previous_argname as [p|]; [|discriminate].
    simpl in E. apply negb_false_iff, String.eqb_eq in E. subst p.
    rewrite print_members_same. reflexivity.
Qed.

(** The order the claim of the specification reads: by scope depth first,
    by the location's string second. *)
Definition depth_then_location_le (a b : fixture) : Prop :=
  baseid_len a < baseid_len b
  \/ (baseid_len a = baseid_len b /\ String.leb (bestrel a) (bestrel b) = true).

(** The two definitions of [db] of the specification's scenario: one at
    [/root/conftest], one at [/root/api/conftest]. *)
Definition db_shallow : fixture :=
  mkFixture 0 "conftest" "/root/conftest"
    (mkFixtureDef "" "conftest" "/root/conftest" []).
Definition db_deep : fixture :=
  mkFixture 3 "api.conftest" "/root/api/conftest"
    (mkFixtureDef "api" "api.conftest" "/root/api/conftest" []).

(** The deeper definition is printed first: the report is not in ascending
    order of depth, whether depth is the tuple's first component or the
    length of the location's ancestor chain. *)
Lemma print_duplicates_not_by_depth :
  print_duplicates "db" [db_shallow; db_deep] None
  = [tw_line ""; tw_sep "-" "db";
     tw_line "/root/api/conftest"; tw_line "/root/conftest"]
  /\ sorted String.ltb bestrel [db_shallow; db_deep] = [db_deep; db_shallow]
  /\ ~ depth_then_location_le db_deep db_shallow
  /\ List.length (_get_fixture_search_order (bestrel db_shallow))
     < List.length (_get_fixture_search_order (bestrel db_deep)).
Proof.
  split; [reflexivity|]. split; [reflexivity|]. split.
  - unfold depth_then_location_le. simpl. intros [H|[H _]]; lia.
  - vm_compute. lia.
Qed.

(** What a group of more than one member prints. *)
Lemma print_duplicates_output (argname : string) (fixtures : list fixture)
    (previous_argname : option string) :
  1 < List.length fixtures ->
  print_duplicates argname fixtures previous_argname
  = (report_header argname previous_argname
     ++ map (fun f => tw_line (bestrel f))
          (sorted String.ltb bestrel fixtures))%list.
Proof.
  intros Hlen. unfold print_duplicates.
  rewrite (proj2 (Nat.ltb_lt _ _) Hlen).
  apply print_members_header. intros Hnil.
  pose proof (sorted_perm String.ltb bestrel fixtures) as Hperm.
  rewrite Hnil in Hperm. apply Permutation_nil in Hperm.
  rewrite Hperm in Hlen. simpl in Hlen. lia.
Qed.

(** C3 as the code has it: the members of a group of more than one are
    printed, after the header, in ascending order of the location's string
    alone; members of equal string keep the order of collection; the scope
    depth stored in the tuple is not looked at. *)
Theorem print_duplicates_sorted_by_location
    (argname : string) (fixtures : list fixture)
    (previous_argname : option string) :
  1 < List.length fixtures ->
  let members := sorted String.ltb bestrel fixtures in
  print_duplicates argname fixtures previous_argname
    = (report_header argname previous_argname
       ++ map (fun f => tw_line (bestrel f)) members)%list
  /\ Permutation members fixtures
  /\ StronglySorted
       (fun a b => String.leb (bestrel a) (bestrel b) = true) members
  /\ (forall s, filter (fun f => String.eqb (bestrel f) s) members
                = filter (fun f => String.eqb (bestrel f) s) fixtures)
  /\ (forall depth : fixture -> nat,
        sorted String.ltb bestrel
          (map (fun f => mkFixture (depth f) (module_name f) (bestrel f)
                           (fixturedef f)) fixtures)
        = map (fun f => mkFixture (depth f) (module_name f) (bestrel f)
                          (fixturedef f)) members).
Proof.
  intros Hlen members.
  assert (Hperm : Permutation members fixtures) by apply sorted_perm.
  split; [apply print_duplicates_output; exact Hlen|].
  split; [exact Hperm|].
  split.
  { apply (StronglySorted_weaken (key_le String.ltb bestrel)).
    - intros a b Hb. unfold key_le in Hb. rewrite str_leb_ltb, Hb. reflexivity.
    - apply sorted_sorted; [exact str_ltb_asym | exact str_geb_trans]. }
  split.
  { intros s. apply filter_sorted. intros x y Hlt Hx.
    apply String.eqb_eq in Hx. apply String.eqb_neq. intros Hy.
    rewrite Hx, Hy in Hlt.
    rewrite (str_ltb_asym _ _ Hlt) in Hlt. discriminate. }
  intros depth. unfold members. clear.
  induction fixtures as [|x t IH]; [reflexivity|].
  cbn [map sorted]. rewrite IH.
  generalize (sorted String.ltb bestrel t). intros l.
  induction l as [|y l IHl]; [reflexivity|].
  cbn [map insert_sorted bestrel].
  destruct (String.ltb (bestrel y) (bestrel x)); cbn [map]; [|reflexivity].
  rewrite IHl. reflexivity.
Qed.

Lemma print_duplicates_sorted_by_location_witness :
  print_duplicates "db" [db_shallow; db_deep] None
  = [tw_line ""; tw_sep "-" "db";
     tw_line "/root/api/conftest"; tw_line "/root/conftest"].
Proof.
  destruct (print_duplicates_sorted_by_location "db" [db_shallow; db_deep] None)
    as [H _].
  - simpl. lia.
  - rewrite H. reflexivity.
Defined.

(** ** The duplicate collection: [_show_fixture_duplicates_main] *)

Lemma dict_get_set {V : Type} (d : dict V) (k k' : string) (v : V) :
  dict_get (dict_set d k v) k'
  = if String.eqb k k' then Some v else dict_get d k'.
Proof.
  induction d as [|[k0 v0] t IH]; simpl; [reflexivity|].
  destruct (String.eqb_spec k0 k) as [->|Hne]; simpl.
  - destruct (String.eqb k k'); reflexivity.
  - rewrite IH. destruct (String.eqb_spec k0 k') as [->|Hne'].
    + rewrite (proj2 (String.eqb_neq _ _) (not_eq_sym Hne)). reflexivity.
    + reflexivity.
Qed.

Lemma dict_mem_keys {V : Type} (d : dict V) (k : string) :
  dict_mem k d = true <-> In k (dict_keys d).
Proof.
  unfold dict_mem. induction d as [|[k0 v0] t IH]; simpl.
  - split; [discriminate | tauto].
  - destruct (String.eqb_spec k0 k) as [->|Hne].
    + split; [left; reflexivity | reflexivity].
    + rewrite IH. split; [right; assumption | intros [H|H]; [congruence | exact H]].
Qed.

(** One step of the collection on the group of one name. *)
Definition add_fixture (group : list fixture) (f : fixture) : list fixture :=
  if str_in (bestrel f) (map bestrel group) then group else group ++ [f].

(** "First occurrence wins; later Definitions from an already-seen
    Location are discarded", as a function of the locations seen so far. *)
Fixpoint dedup_by_location (seen : list string) (l : list fixture)
    : list fixture :=
  match l with
  | [] => []
  | f :: rest =>
      if str_in (bestrel f) seen then dedup_by_location seen rest
      else f :: dedup_by_location (seen ++ [bestrel f]) rest
  end.

Lemma str_in_In (x : string) (l : list string) : str_in x l = true <-> In x l.
Proof.
  unfold str_in. rewrite existsb_exists. split.
  - intros [y [Hy E]]. apply String.eqb_eq in E. subst y. exact Hy.
  - intros H. exists x. split; [exact H | apply String.eqb_refl].
Qed.

Lemma fold_add_dedup (l g : list fixture) :
  fold_left add_fixture l g = g ++ dedup_by_location (map bestrel g) l.
Proof.
  revert g. induction l as [|f rest IH]; intros g; simpl.
  - rewrite app_nil_r. reflexivity.
  - unfold add_fixture at 2.
    destruct (str_in (bestrel f) (map bestrel g)); [apply IH|].
    rewrite IH, map_app, <- app_assoc. reflexivity.
Qed.

Lemma add_fixture_NoDup (g : list fixture) (f : fixture) :
  NoDup (map bestrel g) -> NoDup (map bestrel (add_fixture g f)).
Proof.
  intros H. unfold add_fixture.
  destruct (str_in (bestrel f) (map bestrel g)) eqn:E; [exact H|].
  rewrite map_app. simpl.
  apply (Permutation_NoDup (Permutation_cons_append _ _)).
  constructor; [|exact H].
  intros Hin. apply str_in_In in Hin. congruence.
Qed.

Lemma fold_add_NoDup (l g : list fixture) :
  NoDup (map bestrel g) -> NoDup (map bestrel (fold_left add_fixture l g)).
Proof.
  revert g. induction l as [|f rest IH]; intros g H; simpl; [exact H|].
  apply IH, add_fixture_NoDup, H.
Qed.

Lemma add_fixture_locations (g : list fixture) (f : fixture) (s : string) :
  In s (map bestrel (add_fixture g f)) <-> In s (map bestrel g) \/ s = bestrel f.
Proof.
  unfold add_fixture.
  destruct (str_in (bestrel f) (map bestrel g)) eqn:E.
  - apply str_in_In in E. split; [tauto|]. intros [H| ->]; assumption.
  - rewrite map_app, in_app_iff. simpl. split.
    + intros [H|[H|[]]]; [left; exact H | right; symmetry; exact H].
    + intros [H|H]; [left; exact H | right; left; symmetry; exact H].
Qed.

Lemma fold_add_locations (l g : list fixture) (s : string) :
  In s (map bestrel (fold_left add_fixture l g))
  <-> In s (map bestrel g) \/ In s (map bestrel l).
Proof.
  revert g. induction l as [|f rest IH]; intros g; simpl; [tauto|].
  rewrite IH, add_fixture_locations. split; intros H;
    repeat destruct H as [H|H]; auto.
Qed.

Lemma fold_add_members (l g : list fixture) (f : fixture) :
  In f (fold_left add_fixture l g) -> In f g \/ In f l.
Proof.
  revert g. induction l as [|x rest IH]; intros g; simpl; [tauto|].
  intros H. apply IH in H. destruct H as [H|H]; [|tauto].
  unfold add_fixture in H. destruct (str_in _ _); [tauto|].
  apply in_app_or in H. destruct H as [H|[H|[]]]; auto.
Qed.

Section DuplicateFacts.
Variable getfixturedefs : string -> string -> option (list FixtureDef).
Variable location : FixtureDef -> string.

(** The definitions the host shows to an item for a name. *)
Definition visible_to (argname nodeid : string) : list FixtureDef :=
  match getfixturedefs argname nodeid with
  | Some l => l
  | None => []
  end.

(** All the definitions seen for a name, in the order of the items. *)
Definition visible (argname : string) (items : list string) : list FixtureDef :=
  flat_map (visible_to argname) items.

Lemma collect_fixturedef_group (a n : string) (available : dict (list fixture))
    (fd : FixtureDef) :
  available_get (collect_fixturedef location a available fd) n
  = if String.eqb a n
    then add_fixture (available_get available n) (make_fixture location fd)
    else available_get available n.
Proof.
  unfold collect_fixturedef, add_fixture.
  destruct (String.eqb_spec a n) as [->|Hne].
  - destruct (str_in _ _); [reflexivity|].
    unfold available_get at 1. rewrite dict_get_set, String.eqb_refl. reflexivity.
  - destruct (str_in _ _); [reflexivity|].
    unfold available_get at 1. rewrite dict_get_set.
    rewrite (proj2 (String.eqb_neq _ _) Hne). reflexivity.
Qed.

Lemma collect_fixturedefs_group (a n : string) (fds : list FixtureDef)
    (available : dict (list fixture)) :
  available_get (fold_left (collect_fixturedef location a) fds available) n
  = if String.eqb a n
    then fold_left add_fixture (map (make_fixture location) fds)
           (available_get available n)
    else available_get available n.
Proof.
  revert available. induction fds as [|fd rest IH]; intros available; simpl.
  - destruct (String.eqb a n); reflexivity.
  - rewrite IH, collect_fixturedef_group. destruct (String.eqb a n); reflexivity.
Qed.

Lemma collect_argname_group (nodeid a n : string)
    (available available' : dict (list fixture)) :
  collect_argname getfixturedefs location nodeid available a = Ok available' ->
  available_get available' n
  = if String.eqb a n
    then fold_left add_fixture
           (map (make_fixture location) (visible_to a nodeid))
           (available_get available n)
    else available_get available n.
Proof.
  unfold collect_argname, visible_to.
  destruct (getfixturedefs a nodeid) as [[|fd fds]|]; [| |discriminate].
  - intros [= <-]. destruct (String.eqb a n); reflexivity.
  - intros [= <-]. exact (collect_fixturedefs_group a n (fd :: fds) available).
Qed.

Lemma collect_argnames_group (nodeid n : string) (names : list string)
    (available available' : dict (list fixture)) :
  NoDup names ->
  collect_argnames getfixturedefs location nodeid names available
    = Ok available' ->
  available_get available' n
  = if str_in n names
    then fold_left add_fixture
           (map (make_fixture location) (visible_to n nodeid))
           (available_get available n)
    else available_get available n.
Proof.
  revert available. induction names as [|a rest IH]; intros available Hnd.
  - simpl. intros [= <-]. reflexivity.
  - cbn [collect_argnames]. inversion Hnd as [|? ? Hnot Hnd']; subst.
    destruct (collect_argname getfixturedefs location nodeid available a)
      as [av1|e] eqn:E1; [|discriminate].
    cbn [bind]. intros H. rewrite (IH av1 Hnd' H).
    rewrite (collect_argname_group _ _ n _ _ E1).
    unfold str_in. cbn [existsb]. fold (str_in n rest).
    rewrite (String.eqb_sym n a).
    destruct (String.eqb_spec a n) as [->|Hne]; [|reflexivity].
    destruct (str_in n rest) eqn:Ein; [|reflexivity].
    apply str_in_In in Ein. contradiction.
Qed.

Lemma collect_items_group (n : string) (items names : list string)
    (available available' : dict (list fixture)) :
  NoDup names ->
  collect_items getfixturedefs location items names available
    = Ok available' ->
  available_get available' n
  = if str_in n names
    then fold_left add_fixture
           (map (make_fixture location) (visible n items))
           (available_get available n)
    else available_get available n.
Proof.
  intros Hnd. revert available. induction items as [|nodeid rest IH];
    intros available.
  - simpl. intros [= <-]. destruct (str_in n names); reflexivity.
  - cbn [collect_items].
    destruct (collect_argnames getfixturedefs location nodeid names available)
      as [av1|e] eqn:E1; [|discriminate].
    cbn [bind]. intros H. rewrite (IH av1 H).
    rewrite (collect_argnames_group _ n _ _ _ Hnd E1).
    destruct (str_in n names); [|reflexivity].
    unfold visible. cbn [flat_map]. rewrite map_app, fold_left_app. reflexivity.
Qed.

End DuplicateFacts.

Lemma arg2fixturedefs_NoDup (fixture_name : string)
    (registry : dict (list FixtureDef)) :
  NoDup (dict_keys registry) -> NoDup (arg2fixturedefs fixture_name registry).
Proof.
  intros H. unfold arg2fixturedefs.
  destruct (negb (fixture_name =? "") && dict_mem fixture_name registry);
    [|exact H].
  constructor; [intros [] | constructor].
Qed.

(** C7: the group collected for a scanned name is obtained from the
    definitions the host shows for it, in the order of the items, by adding
    a definition only when no member of the group has its location string:
    it is the list of first occurrences of each location; no two members
    have the same location; every location seen has its member; two
    definitions seen at different locations give two different members. *)
Theorem collect_dedup_by_location
    (getfixturedefs : string -> string -> option (list FixtureDef))
    (location : FixtureDef -> string)
    (fixture_name : string) (registry : dict (list FixtureDef))
    (items : list string) (available : dict (list fixture))
    (argname : string) :
  NoDup (dict_keys registry) ->
  collect_items getfixturedefs location items
    (arg2fixturedefs fixture_name registry) [] = Ok available ->
  In argname (arg2fixturedefs fixture_name registry) ->
  let seen := visible getfixturedefs argname items in
  let group := available_get available argname in
  group = fold_left add_fixture (map (make_fixture location) seen) []
  /\ group = dedup_by_location [] (map (make_fixture location) seen)
  /\ NoDup (map bestrel group)
  /\ (forall fd, In fd seen -> In (location fd) (map bestrel group))
  /\ (forall f, In f group -> exists fd, In fd seen /\ f = make_fixture location fd)
  /\ (forall fd1 fd2, In fd1 seen -> In fd2 seen ->
        location fd1 <> location fd2 ->
        exists f1 f2, In f1 group /\ In f2 group /\ f1 <> f2
          /\ bestrel f1 = location fd1 /\ bestrel f2 = location fd2).
Proof.
  intros Hreg Hcollect Hin seen group.
  pose proof (collect_items_group getfixturedefs location argname items _ _ _
                (arg2fixturedefs_NoDup fixture_name registry Hreg) Hcollect)
    as Hg.
  rewrite (proj2 (str_in_In _ _) Hin) in Hg.
  change (available_get [] argname) with (@nil fixture) in Hg.
  fold seen group in Hg.
  assert (Hloc : forall fd, In fd seen -> In (location fd) (map bestrel group)).
  { intros fd Hfd. rewrite Hg. apply fold_add_locations. right.
    rewrite map_map. simpl. apply in_map_iff. exists fd. split; [reflexivity|exact Hfd]. }
  split; [exact Hg|].
  split; [rewrite Hg; apply (fold_add_dedup _ [])|].
  split; [rewrite Hg; apply fold_add_NoDup; constructor|].
  split; [exact Hloc|].
  split.
  { intros f Hf. rewrite Hg in Hf. apply fold_add_members in Hf.
    destruct Hf as [[]|Hf]. apply in_map_iff in Hf.
    destruct Hf as [fd [Hfd Hs]]. exists fd. split; [exact Hs | symmetry; exact Hfd]. }
  intros fd1 fd2 H1 H2 Hne.
  apply Hloc in H1, H2. apply in_map_iff in H1, H2.
  destruct H1 as [f1 [E1 Hf1]]. destruct H2 as [f2 [E2 Hf2]].
  exists f1, f2. repeat split; try assumption.
  intros ->. congruence.
Qed.

Definition db_in_conftest : FixtureDef :=
  mkFixtureDef "" "conftest" "/root/conftest.py" [].
Definition db_in_api : FixtureDef :=
  mkFixtureDef "api" "api.conftest" "/root/api/conftest.py" [].
Definition db_registry : dict (list FixtureDef) :=
  [("db", [db_in_conftest; db_in_api])].

(** A host that shows every registered definition to every item, and
    locations that are the declaring files. *)
Definition show_all (registry : dict (list FixtureDef)) (argname nodeid : string)
    : option (list FixtureDef) :=
  dict_get registry argname.

Lemma collect_dedup_by_location_witness :
  available_get
    [("db", [make_fixture func_file db_in_conftest;
             make_fixture func_file db_in_api])] "db"
  = dedup_by_location []
      (map (make_fixture func_file)
         (visible (show_all db_registry) "db" ["test_a"; "test_b"])).
Proof.
  destruct (collect_dedup_by_location (show_all db_registry) func_file ""
              db_registry ["test_a"; "test_b"]
              [("db", [make_fixture func_file db_in_conftest;
                       make_fixture func_file db_in_api])] "db")
    as [_ [H _]].
  - simpl. constructor; [intros [] | constructor].
  - reflexivity.
  - simpl. left. reflexivity.
  - exact H.
Defined.

(** *** The single-name filter *)

Definition one_db_registry : dict (list FixtureDef) := [("db", [db_in_conftest])].

(** With the filter on [db], registered with one definition, the group
    collected for [db] has one member and nothing at all is printed. *)
Lemma filter_mode_prints_nothing_for_one_member :
  dict_mem "db" one_db_registry = true
  /\ collect_items (show_all one_db_registry) func_file ["test_a"]
       (arg2fixturedefs "db" one_db_registry) []
     = Ok [("db", [make_fixture func_file db_in_conftest])]
  /\ _show_fixture_duplicates_main (show_all one_db_registry) func_file
       "db" one_db_registry ["test_a"] = Ok [].
Proof. repeat split. Qed.

Lemma print_duplicates_gate (argname : string) (fixtures : list fixture)
    (previous_argname : option string) :
  List.length fixtures <= 1 -> print_duplicates argname fixtures previous_argname = [].
Proof.
  intros H. unfold print_duplicates.
  rewrite (proj2 (Nat.ltb_ge _ _) H). reflexivity.
Qed.

(** C4 as the code has it: with the filter on a registered name, only that
    name is scanned and what is printed is [print_duplicates] of its group,
    with the same gate as without the filter: nothing for a group of at
    most one member, the header and the members for a larger one. *)
Theorem filter_mode_keeps_gate
    (getfixturedefs : string -> string -> option (list FixtureDef))
    (location : FixtureDef -> string)
    (fixture_name : string) (registry : dict (list FixtureDef))
    (items : list string) (available : dict (list fixture)) :
  fixture_name <> "" ->
  dict_mem fixture_name registry = true ->
  collect_items getfixturedefs location items
    (arg2fixturedefs fixture_name registry) [] = Ok available ->
  let group := available_get available fixture_name in
  arg2fixturedefs fixture_name registry = [fixture_name]
  /\ _show_fixture_duplicates_main getfixturedefs location fixture_name
       registry items = Ok (print_duplicates fixture_name group None)
  /\ (List.length group <= 1 -> print_duplicates fixture_name group None = [])
  /\ (1 < List.length group ->
      print_duplicates fixture_name group None
      = tw_line "" :: tw_sep "-" fixture_name
          :: map (fun f => tw_line (bestrel f))
               (sorted String.ltb bestrel group)).
Proof.
  intros Hname Hmem Hcollect group.
  assert (Hnz : (fixture_name =? "") = false)
    by (apply String.eqb_neq; exact Hname).
  split.
  { unfold arg2fixturedefs. rewrite Hnz, Hmem. reflexivity. }
  split.
  { unfold _show_fixture_duplicates_main. rewrite Hcollect. cbn [bind].
    rewrite Hnz. reflexivity. }
  split; [apply print_duplicates_gate|].
  intros Hlen.
  apply (print_duplicates_output fixture_name group None Hlen).
Qed.

Lemma filter_mode_keeps_gate_witness :
  _show_fixture_duplicates_main (show_all db_registry) func_file "db"
    db_registry ["test_a"]
  = Ok [tw_line ""; tw_sep "-" "db";
        tw_line "/root/api/conftest.py"; tw_line "/root/conftest.py"].
Proof.
  destruct (filter_mode_keeps_gate (show_all db_registry) func_file "db"
              db_registry ["test_a"]
              [("db", [make_fixture func_file db_in_conftest;
                       make_fixture func_file db_in_api])])
    as [_ [H _]].
  - discriminate.
  - reflexivity.
  - reflexivity.
  - rewrite H. reflexivity.
Defined.

Section Fallback.
Variable getfixturedefs : string -> string -> option (list FixtureDef).
Variable location : FixtureDef -> string.

(** A name that is not scanned keeps its group. *)
Lemma collect_argnames_other (nodeid n : string) (names : list string)
    (available available' : dict (list fixture)) :
  ~ In n names ->
  collect_argnames getfixturedefs location nodeid names available
    = Ok available' ->
  available_get available' n = available_get available n.
Proof.
  revert available. induction names as [|a rest IH]; intros available Hn.
  - simpl. intros [= <-]. reflexivity.
  - cbn [collect_argnames].
    destruct (collect_argname getfixturedefs location nodeid available a)
      as [av1|e] eqn:E1; [|discriminate].
    cbn [bind]. intros H. rewrite (IH av1); [|intros Hin; apply Hn; right; exact Hin|exact H].
    rewrite (collect_argname_group _ _ _ _ n _ _ E1).
    destruct (String.eqb_spec a n) as [->|Hne]; [|reflexivity].
    exfalso. apply Hn. left. reflexivity.
Qed.

Lemma collect_items_other (n : string) (items names : list string)
    (available available' : dict (list fixture)) :
  ~ In n names ->
  collect_items getfixturedefs location items names available = Ok available' ->
  available_get available' n = available_get available n.
Proof.
  intros Hn. revert available. induction items as [|nodeid rest IH];
    intros available.
  - simpl. intros [= <-]. reflexivity.
  - cbn [collect_items].
    destruct (collect_argnames getfixturedefs location nodeid names available)
      as [av1|e] eqn:E1; [|discriminate].
    cbn [bind]. intros H. rewrite (IH av1 H).
    apply (collect_argnames_other nodeid n names _ _ Hn E1).
Qed.

(** The assertion does not fail when the host answers for every scanned
    name. *)
Lemma collect_argnames_ok (nodeid : string) (names : list string)
    (available : dict (list fixture)) :
  (forall argname, In argname names -> getfixturedefs argname nodeid <> None) ->
  exists available',
    collect_argnames getfixturedefs location nodeid names available
      = Ok available'.
Proof.
  revert available. induction names as [|a rest IH]; intros available Hhost.
  - exists available. reflexivity.
  - cbn [collect_argnames]. unfold collect_argname at 1.
    destruct (getfixturedefs a nodeid) as [fds|] eqn:E.
    + destruct fds as [|fd fds]; cbn [bind]; apply IH;
        intros b Hb; apply Hhost; right; exact Hb.
    + exfalso. apply (Hhost a); [left; reflexivity | exact E].
Qed.

Lemma collect_items_ok (items names : list string)
    (available : dict (list fixture)) :
  (forall nodeid argname, In nodeid items -> In argname names ->
                          getfixturedefs argname nodeid <> None) ->
  exists available',
    collect_items getfixturedefs location items names available = Ok available'.
Proof.
  revert available. induction items as [|nodeid rest IH]; intros available Hhost.
  - exists available. reflexivity.
  - cbn [collect_items].
    destruct (collect_argnames_ok nodeid names available) as [av1 E1].
    { intros a Ha. apply Hhost; [left; reflexivity | exact Ha]. }
    rewrite E1. cbn [bind]. apply IH.
    intros n a Hn Ha. apply Hhost; [right; exact Hn | exact Ha].
Qed.

(** The collection fails only on the assertion, and then the host gave
    [None] for a scanned name. *)
Lemma collect_argnames_raise (nodeid : string) (names : list string)
    (available : dict (list fixture)) (e : exn) :
  collect_argnames getfixturedefs location nodeid names available = Raise e ->
  e = AssertionError
  /\ exists argname, In argname names /\ getfixturedefs argname nodeid = None.
Proof.
  revert available. induction names as [|a rest IH]; intros available.
  - discriminate.
  - cbn [collect_argnames]. unfold collect_argname at 1.
    destruct (getfixturedefs a nodeid) as [fds|] eqn:E.
    + intros H.
      assert (Hrest : exists av1,
                collect_argnames getfixturedefs location nodeid rest av1
                = Raise e).
      { destruct fds; cbn [bind] in H; eexists; exact H. }
      destruct Hrest as [av1 Hrest].
      destruct (IH av1 Hrest) as [He [b [Hb Hnone]]].
      split; [exact He|]. exists b. split; [right; exact Hb | exact Hnone].
    + cbn [bind]. intros [= <-]. split; [reflexivity|].
      exists a. split; [left; reflexivity | exact E].
Qed.

Lemma collect_argnames_answered (nodeid : string) (names : list string)
    (available available' : dict (list fixture)) :
  collect_argnames getfixturedefs location nodeid names available
    = Ok available' ->
  forall argname, In argname names -> getfixturedefs argname nodeid <> None.
Proof.
  revert available. induction names as [|a rest IH]; intros available.
  - intros _ b [].
  - cbn [collect_argnames]. unfold collect_argname at 1.
    destruct (getfixturedefs a nodeid) as [fds|] eqn:E; [|discriminate].
    intros H b [<-|Hb]; [congruence|].
    destruct fds; cbn [bind] in H; apply (IH _ H b Hb).
Qed.

Lemma collect_items_raise (items names : list string)
    (available : dict (list fixture)) (e : exn) :
  collect_items getfixturedefs location items names available = Raise e ->
  e = AssertionError
  /\ exists nodeid argname,
       In nodeid items /\ In argname names
       /\ getfixturedefs argname nodeid = None.
Proof.
  revert available. induction items as [|nodeid rest IH]; intros available.
  - discriminate.
  - cbn [collect_items].
    destruct (collect_argnames getfixturedefs location nodeid names available)
      as [av1|e1] eqn:E1; cbn [bind].
    + intros H. destruct (IH av1 H) as [He [n [a [Hn [Ha Hnone]]]]].
      split; [exact He|]. exists n, a. repeat split; [right|..]; assumption.
    + intros [= <-]. destruct (collect_argnames_raise _ _ _ _ E1) as [He [a [Ha Hnone]]].
      split; [exact He|]. exists nodeid, a.
      repeat split; [left; reflexivity | exact Ha | exact Hnone].
Qed.

Lemma collect_items_answered (items names : list string)
    (available available' : dict (list fixture)) :
  collect_items getfixturedefs location items names available = Ok available' ->
  forall nodeid argname, In nodeid items -> In argname names ->
                         getfixturedefs argname nodeid <> None.
Proof.
  revert available. induction items as [|n rest IH]; intros available.
  - intros _ nodeid a [].
  - cbn [collect_items].
    destruct (collect_argnames getfixturedefs location n names available)
      as [av1|e1] eqn:E1; cbn [bind]; [|discriminate].
    intros H nodeid a [<-|Hn] Ha.
    + apply (collect_argnames_answered _ _ _ _ E1 a Ha).
    + apply (IH av1 H nodeid a Hn Ha).
Qed.

End Fallback.

(** C10: when the filter names a resource that the registry does not have,
    every registered name is scanned on every item. When the host answers
    for the registered names, the scan ends with the group of every
    registered name filled from the definitions the host shows for it, and
    with an empty group for the requested name, so that nothing is printed
    and the run ends without an error. The run ends so exactly when the host
    answers for every registered name on every item; in the one other case
    the assertion of the scan fails and the run raises [AssertionError]. *)
Theorem filter_on_unregistered_name
    (getfixturedefs : string -> string -> option (list FixtureDef))
    (location : FixtureDef -> string)
    (fixture_name : string) (registry : dict (list FixtureDef))
    (items : list string) :
  fixture_name <> "" ->
  dict_mem fixture_name registry = false ->
  let scan :=
    collect_items getfixturedefs location items (dict_keys registry) [] in
  let run :=
    _show_fixture_duplicates_main getfixturedefs location fixture_name
      registry items in
  arg2fixturedefs fixture_name registry = dict_keys registry
  /\ ((forall nodeid argname,
         In nodeid items -> In argname (dict_keys registry) ->
         getfixturedefs argname nodeid <> None) ->
      exists available,
        scan = Ok available
        /\ available_get available fixture_name = []
        /\ (NoDup (dict_keys registry) ->
            forall n, In n (dict_keys registry) ->
              available_get available n
              = fold_left add_fixture
                  (map (make_fixture location)
                     (visible getfixturedefs n items)) [])
        /\ run = Ok [])
  /\ (run = Ok [] <->
      forall nodeid argname,
        In nodeid items -> In argname (dict_keys registry) ->
        getfixturedefs argname nodeid <> None)
  /\ (run = Raise AssertionError <->
      exists nodeid argname,
        In nodeid items /\ In argname (dict_keys registry)
        /\ getfixturedefs argname nodeid = None)
  /\ (run = Ok [] \/ run = Raise AssertionError).
Proof.
  intros Hname Hmem scan run.
  assert (Hnz : (fixture_name =? "") = false)
    by (apply String.eqb_neq; exact Hname).
  assert (Hscan : arg2fixturedefs fixture_name registry = dict_keys registry).
  { unfold arg2fixturedefs. rewrite Hmem, andb_false_r. reflexivity. }
  assert (Hnot : ~ In fixture_name (dict_keys registry)).
  { intros Hin. apply dict_mem_keys in Hin. congruence. }
  assert (Hok : forall available, scan = Ok available ->
            available_get available fixture_name = [] /\ run = Ok []).
  { intros available Hcollect. unfold scan in Hcollect.
    pose proof (collect_items_other getfixturedefs location fixture_name items
                  (dict_keys registry) [] available Hnot Hcollect) as Hgroup.
    change (available_get [] fixture_name) with (@nil fixture) in Hgroup.
    split; [exact Hgroup|].
    unfold run, _show_fixture_duplicates_main. rewrite Hscan, Hcollect.
    cbn [bind]. rewrite Hnz. cbn [negb]. rewrite Hgroup. reflexivity. }
  assert (Hraise : forall e, scan = Raise e ->
            run = Raise e /\ e = AssertionError
            /\ exists nodeid argname,
                 In nodeid items /\ In argname (dict_keys registry)
                 /\ getfixturedefs argname nodeid = None).
  { intros e Hcollect. unfold scan in Hcollect. split.
    - unfold run, _show_fixture_duplicates_main. rewrite Hscan, Hcollect.
      reflexivity.
    - apply (collect_items_raise _ _ _ _ _ _ Hcollect). }
  split; [exact Hscan|].
  split.
  { intros Hhost.
    destruct (collect_items_ok getfixturedefs location items
                (dict_keys registry) [] Hhost) as [available Hcollect].
    exists available. destruct (Hok available Hcollect) as [Hgroup Hrun].
    split; [exact Hcollect|]. split; [exact Hgroup|]. split; [|exact Hrun].
    intros Hnd n Hn.
    rewrite (collect_items_group getfixturedefs location n items _ _ _ Hnd
               Hcollect).
    rewrite (proj2 (str_in_In _ _) Hn). reflexivity. }
  split.
  { split.
    - intros Hrun. destruct scan as [available|e] eqn:E.
      + apply (collect_items_answered _ _ _ _ _ _ E).
      + destruct (Hraise e eq_refl) as [Hr _]. congruence.
    - intros Hhost.
      destruct (collect_items_ok getfixturedefs location items
                  (dict_keys registry) [] Hhost) as [available Hcollect].
      apply (Hok available Hcollect). }
  split.
  { split.
    - intros Hrun. destruct scan as [available|e] eqn:E.
      + destruct (Hok available eq_refl) as [_ Hr]. congruence.
      + apply (Hraise e eq_refl).
    - intros [nodeid [argname [Hn [Ha Hnone]]]].
      destruct scan as [available|e] eqn:E.
      + exfalso.
        apply (collect_items_answered _ _ _ _ _ _ E nodeid argname Hn Ha Hnone).
      + destruct (Hraise e eq_refl) as [Hr [He _]]. rewrite Hr, He. reflexivity. }
  destruct scan as [available|e] eqn:E.
  - left. apply (Hok available eq_refl).
  - right. destruct (Hraise e eq_refl) as [Hr [He _]]. rewrite Hr, He. reflexivity.
Qed.

(** A host that knows no name at all. *)
Definition show_none (argname nodeid : string) : option (list FixtureDef) := None.

Lemma filter_on_unregistered_name_witness :
  arg2fixturedefs "cache" db_registry = ["db"]
  /\ _show_fixture_duplicates_main (show_all db_registry) func_file "cache"
       db_registry ["test_a"; "test_b"] = Ok []
  /\ (exists available,
        collect_items (show_all db_registry) func_file ["test_a"; "test_b"]
          ["db"] [] = Ok available
        /\ available_get available "cache" = []
        /\ available_get available "db"
           = [make_fixture func_file db_in_conftest;
              make_fixture func_file db_in_api])
  /\ _show_fixture_duplicates_main show_none func_file "cache" db_registry
       ["test_a"; "test_b"] = Raise AssertionError.
Proof.
  destruct (filter_on_unregistered_name (show_all db_registry) func_file
              "cache" db_registry ["test_a"; "test_b"])
    as [H1 [H2 _]]; [discriminate | reflexivity |].
  destruct H2 as [available [Hcollect [Hgroup [Hpin Hrun]]]].
  { intros nodeid argname _ [<-|[]]. discriminate. }
  split; [exact H1|]. split; [exact Hrun|]. split.
  - exists available. split; [exact Hcollect|]. split; [exact Hgroup|].
    rewrite (Hpin (NoDup_cons "db" (@in_nil string "db") (NoDup_nil string))
               "db" (or_introl eq_refl)).
    reflexivity.
  - destruct (filter_on_unregistered_name show_none func_file
                "cache" db_registry ["test_a"; "test_b"])
      as [_ [_ [_ [Hraise _]]]]; [discriminate | reflexivity |].
    apply Hraise. exists "test_a", "db".
    split; [left; reflexivity|]. split; [left; reflexivity | reflexivity].
Defined.

(** ** Writing the graph: [save_fixture_graph] from [mkdir_recursive] on *)

(** [mkdir_recursive] returns: the directory was created, or it was there. *)
Definition mkdir_ok (w : World) (path : string) : Prop :=
  makedirs w path = md_created
  \/ (makedirs w path = md_oserror true /\ isdir w path = true).

Lemma mkdir_recursive_ok (w : World) (path : string) :
  mkdir_ok w path -> mkdir_recursive w path = ([ev_makedirs path], Ok tt).
Proof.
  unfold mkdir_recursive. intros [H|[H1 H2]].
  - rewrite H. reflexivity.
  - rewrite H1, H2. reflexivity.
Qed.

(** The text of the hint. *)
Definition render_hint (filename : string) : string :=
  "You can convert it to a PNG using:" ++ newline ++ tab
  ++ "'dot -Tpng " ++ filename ++ ".dot -o " ++ filename ++ ".png'".


Lemma write_graph_cases (w : World) (log_dir output_type filename : string) :
  let path := join log_dir filename in
  let dot := (path ++ ".dot")%string in
  let out := (path ++ "." ++ output_type)%string in
  let start :=
    [ev_makedirs log_dir; ev_tw (tw_line ""); ev_tw (tw_sep "-" "fixture-graph");
     ev_tw (tw_line ("created " ++ path ++ ".dot.")); ev_write dot None] in
  let run := write_graph w log_dir output_type filename in
  (~ mkdir_ok w log_dir /\ run = ([ev_makedirs log_dir], Raise OSError))
  \/ (exists e, write_raw w dot = Some e /\ run = (start, Raise e))
  \/ (mkdir_ok w log_dir /\ write_raw w dot = None
      /\ render w out output_type = None
      /\ run = ((start ++ [ev_write out (Some output_type);
                          ev_tw (tw_line ("created " ++ path ++ "."
                                          ++ output_type ++ "."))])%list,
                Ok tt))
  \/ (exists e, mkdir_ok w log_dir /\ write_raw w dot = None
      /\ render w out output_type = Some e /\ is_Exception e = true
      /\ run = ((start ++ [ev_write out (Some output_type);
                          ev_tw (tw_line "graphvis wasn't found in PATH");
                          ev_tw (tw_line (render_hint path))])%list,
                Ok tt))
  \/ (exists e, render w out output_type = Some e /\ is_Exception e = false
      /\ run = ((start ++ [ev_write out (Some output_type)])%list, Raise e)).
Proof.
  intros path dot out start run. unfold run, write_graph.
  fold path. fold dot. fold out.
  assert (Hmk : mkdir_ok w log_dir
                \/ (~ mkdir_ok w log_dir
                    /\ mkdir_recursive w log_dir
                       = ([ev_makedirs log_dir], Raise OSError))).
  { unfold mkdir_ok, mkdir_recursive.
    destruct (makedirs w log_dir) as [|[|]] eqn:Em.
    - left. left. reflexivity.
    - destruct (isdir w log_dir) eqn:Ei.
      + left. right. split; reflexivity.
      + right. split; [|reflexivity]. intros [H|[_ H]]; discriminate H.
    - right. split; [|reflexivity]. intros [H|[H _]]; discriminate H. }
  destruct Hmk as [Hok|[Hnok Hraise]];
    [|left; split; [exact Hnok | rewrite Hraise; reflexivity]].
  right. rewrite (mkdir_recursive_ok w log_dir Hok).
  unfold graph_write, line, sep, io_emit, io_bind, io_ret, io_raise,
    try_except_Exception.
  destruct (write_raw w dot) as [e|] eqn:Ew.
  { left. exists e. split; reflexivity. }
  right. destruct (render w out output_type) as [e|] eqn:Er.
  - right. destruct (is_Exception e) eqn:Ee.
    + left. exists e. repeat split; try assumption; reflexivity.
    + right. exists e. repeat split; try assumption; reflexivity.
  - left. repeat split; try assumption; reflexivity.
Qed.




(** The registry of the specification's scenario. *)
Definition scenario_db : FixtureDef :=
  mkFixtureDef "" "conftest" "/root/conftest" [].
Definition scenario_client : FixtureDef :=
  mkFixtureDef "api" "api.conftest" "/root/api/conftest" ["db"].
Definition scenario_registry : dict (list FixtureDef) :=
  [("db", [scenario_db]); ("client", [scenario_client])].

(** A world without the renderer: [dot] is not found. *)
Definition no_renderer : World :=
  mkWorld (fun _ => md_created) (fun _ => true) (fun _ => None)
          (fun _ _ => Some OSError).




(** ** The graph: [save_fixture_graph] up to the assembled graph *)

(** The graph holds the two fixture nodes and one edge when no direct
    requests are given. *)
Example scenario_graph_without_func_args :
  fixture_graph (fun p _ => p) "/work/" scenario_registry None
  = Ok (mkDot
          [mkCluster "/root/conftest" "/root/conftest"
             [mkNode "/root/conftest/db" "db" "green"];
           mkCluster "/root/api/conftest" "/root/api/conftest"
             [mkNode "/root/api/conftest/client" "client" "green"]]
          [("/root/api/conftest/client", "/root/conftest/db")]).
Proof. reflexivity. Qed.

(** A name of [func_args] is not a pair: its unpacking fails unless it has
    exactly two characters. *)
Lemma unpack_name_raises (argname : string) :
  str_len argname <> 2 -> unpack_pair (dep_name argname) = Raise ValueError.
Proof.
  unfold str_len, unpack_pair.
  destruct (code_points argname) as [|a [|b [|c r]]]; simpl; intros H;
    try reflexivity. exfalso. apply H. reflexivity.
Qed.

(** [data] starts with the cluster [''] whose first entry is [func_args]. *)
Definition root_first (l : list depended) (data : graph_data) : Prop :=
  exists sub rest, data = ("", ("func_args", (l, "red")) :: sub) :: rest.

Lemma data_set_root_first (l : list depended) (data : graph_data)
    (cluster name : string) (v : list depended * string) :
  name <> "func_args" -> root_first l data ->
  root_first l (data_set data cluster name v).
Proof.
  intros Hname [sub [rest ->]]. unfold data_set, root_first. cbn [dict_get dict_set].
  destruct (String.eqb_spec "" cluster) as [<-|Hc].
  - cbn [dict_set]. rewrite (proj2 (String.eqb_neq _ _) (not_eq_sym Hname)).
    eexists. eexists. reflexivity.
  - eexists. eexists. reflexivity.
Qed.

Lemma build_graph_root_first (a : string) (l : list depended) (data : graph_data) :
  str_len a <> 2 ->
  root_first (dep_name a :: l) data -> build_graph data = Raise ValueError.
Proof.
  intros Ha [sub [rest ->]].
  cbn [build_graph subgraph_nodes_edges node_edges node_name].
  rewrite (unpack_name_raises a Ha). reflexivity.
Qed.

Section GraphRaises.
Variable relpath : string -> string -> string.
Variable cwd : string.

Lemma add_fixture_defs_root_first (l : list depended)
    (name2fixturedefs : dict (list FixtureDef)) (fixture_name : string)
    (fixture_defs : list FixtureDef) (data : graph_data) :
  fixture_name <> "func_args" -> root_first l data ->
  root_first l
    (add_fixture_defs relpath cwd name2fixturedefs fixture_name fixture_defs data).
Proof.
  intros Hname. unfold add_fixture_defs. revert data.
  induction fixture_defs as [|fd rest IH]; intros data H; simpl; [exact H|].
  apply IH. apply data_set_root_first; assumption.
Qed.

Lemma add_registry_root_first (l : list depended)
    (name2fixturedefs : dict (list FixtureDef))
    (items : list (string * list FixtureDef)) (data : graph_data) :
  ~ In "func_args" (dict_keys items) -> root_first l data ->
  root_first l (add_registry relpath cwd name2fixturedefs items data).
Proof.
  unfold add_registry. revert data.
  induction items as [|[n fds] rest IH]; intros data Hn H; simpl; [exact H|].
  apply IH; [intros Hin; apply Hn; right; exact Hin|].
  destruct (String.eqb n "request"); [exact H|].
  apply add_fixture_defs_root_first; [|exact H].
  intros ->. apply Hn. left. reflexivity.
Qed.

(** With direct requests whose first name does not have exactly two
    characters, no graph is assembled: the loop over the entries of the
    synthetic root raises [ValueError]. *)
Lemma fixture_graph_func_args_raises
    (name2fixturedefs : dict (list FixtureDef)) (a : string) (l : list string) :
  str_len a <> 2 ->
  ~ In "func_args" (dict_keys name2fixturedefs) ->
  fixture_graph relpath cwd name2fixturedefs (Some (a :: l)) = Raise ValueError.
Proof.
  intros Ha Hn. unfold fixture_graph, build_data.
  apply (build_graph_root_first a (map dep_name l)); [exact Ha|].
  apply add_registry_root_first; [exact Hn|].
  exists [], []. reflexivity.
Qed.

End GraphRaises.

(** C5 on the code: for the registry of the scenario and the direct request
    [client], whatever the working directory, no graph is assembled and
    nothing is written: unpacking the name [client] as a pair raises
    [ValueError]. *)
Theorem scenario_graph_raises
    (w : World) (relpath : string -> string -> string)
    (cwd log_dir output_type filename : string) :
  fixture_graph relpath cwd scenario_registry (Some ["client"]) = Raise ValueError
  /\ save_fixture_graph w relpath cwd log_dir output_type scenario_registry
       filename (Some ["client"]) = ([], Raise ValueError).
Proof.
  assert (H : fixture_graph relpath cwd scenario_registry (Some ["client"])
              = Raise ValueError).
  { apply fixture_graph_func_args_raises.
    - vm_compute. lia.
    - simpl. intros [H|[H|[]]]; discriminate H. }
  split; [exact H|]. unfold save_fixture_graph. rewrite H. reflexivity.
Qed.

(** A direct request of exactly two characters is unpacked into its two
    characters: the synthetic root gets an edge to a name that no node has. *)
Example func_args_two_characters :
  exists g,
    fixture_graph (fun p _ => p) "/work/" scenario_registry (Some ["db"]) = Ok g
    /\ edges g = [("/func_args", "d/b");
                  ("/root/api/conftest/client", "/root/conftest/db")]
    /\ ~ In "d/b" (node_names g).
Proof.
  eexists. split; [reflexivity|]. split; [reflexivity|].
  simpl. intros [H|[H|[H|[]]]]; discriminate H.
Qed.

(** *** Nodes and edges of a graph assembled from the registry alone *)

Lemma dict_get_In {V : Type} (d : dict V) (k : string) (v : V) :
  dict_get d k = Some v -> In (k, v) d.
Proof.
  induction d as [|[k0 v0] t IH]; simpl; [discriminate|].
  destruct (String.eqb_spec k0 k) as [->|Hne].
  - intros [= ->]. left. reflexivity.
  - intros H. right. apply IH, H.
Qed.

Lemma dict_set_In {V : Type} (d : dict V) (k k' : string) (v v' : V) :
  In (k', v') (dict_set d k v) -> (k' = k /\ v' = v) \/ In (k', v') d.
Proof.
  induction d as [|[k0 v0] t IH]; simpl.
  - intros [[= <- <-]|[]]. left. split; reflexivity.
  - destruct (String.eqb_spec k0 k) as [->|Hne]; simpl.
    + intros [[= <- <-]|H]; [left; split; reflexivity | right; right; exact H].
    + intros [H|H]; [right; left; exact H|].
      destruct (IH H) as [H'|H']; [left; exact H' | right; right; exact H'].
Qed.

(** The entries of [data]: cluster, name and value. *)
Definition entries (data : graph_data)
    : list (string * string * (list depended * string)) :=
  flat_map (fun cs => map (fun nv => (fst cs, fst nv, snd nv)) (snd cs)) data.

(** [data[c][n]] when both keys are there. *)
Definition data_get (data : graph_data) (c n : string)
    : option (list depended * string) :=
  match dict_get data c with
  | Some sub => dict_get sub n
  | None => None
  end.

Lemma data_get_set (data : graph_data) (c n c' n' : string)
    (v : list depended * string) :
  data_get (data_set data c n v) c' n'
  = if String.eqb c c' && String.eqb n n' then Some v else data_get data c' n'.
Proof.
  unfold data_get, data_set. rewrite dict_get_set.
  destruct (String.eqb_spec c c') as [<-|Hc]; [|reflexivity].
  rewrite dict_get_set. cbn [andb].
  destruct (String.eqb n n'); [reflexivity|].
  destruct (dict_get data c); reflexivity.
Qed.

Lemma data_get_entries (data : graph_data) (c n : string)
    (v : list depended * string) :
  data_get data c n = Some v -> In (c, n, v) (entries data).
Proof.
  unfold data_get, entries.
  destruct (dict_get data c) as [sub|] eqn:E; [|discriminate].
  intros H. apply in_flat_map. exists (c, sub).
  split; [apply dict_get_In, E|].
  apply in_map_iff. exists (n, v). split; [reflexivity | apply dict_get_In, H].
Qed.

Lemma entries_data_set (data : graph_data) (c n : string)
    (v : list depended * string) (e : string * string * (list depended * string)) :
  In e (entries (data_set data c n v)) -> e = (c, n, v) \/ In e (entries data).
Proof.
  unfold entries at 1, data_set. intros H. apply in_flat_map in H.
  destruct H as [[c' sub'] [Hc Hs]]. cbn [fst snd] in Hs.
  apply in_map_iff in Hs. destruct Hs as [[n' v'] [<- Hnv]]. cbn [fst snd].
  apply dict_set_In in Hc. destruct Hc as [[-> ->]|Hc].
  - apply dict_set_In in Hnv. destruct Hnv as [[-> ->]|Hnv]; [left; reflexivity|].
    right. destruct (dict_get data c) as [sub0|] eqn:E; [|destruct Hnv].
    apply in_flat_map. exists (c, sub0). split; [apply dict_get_In, E|].
    apply in_map_iff. exists (n', v'). split; [reflexivity | exact Hnv].
  - right. apply in_flat_map. exists (c', sub'). split; [exact Hc|].
    apply in_map_iff. exists (n', v'). split; [reflexivity | exact Hnv].
Qed.

(** The edges of a node whose dependencies are all pairs. *)
Definition pair_edges (node : string) (deps : list depended)
    : list (string * string) :=
  flat_map (fun d =>
              match d with
              | dep_pair c n =>
                  if String.eqb n "" then []
                  else [(node, (c ++ "/" ++ n)%string)]
              | dep_name _ => []
              end) deps.

Definition all_pairs (deps : list depended) : Prop :=
  Forall (fun d => exists c n, d = dep_pair c n) deps.

Lemma node_edges_pairs (node : string) (deps : list depended) :
  all_pairs deps -> node_edges node deps = Ok (pair_edges node deps).
Proof.
  intros H. induction H as [|d rest [c [n ->]] Hrest IH]; [reflexivity|].
  cbn [node_edges unpack_pair bind]. rewrite IH. cbn [bind pair_edges flat_map].
  destruct (String.eqb n ""); reflexivity.
Qed.

Definition entry_node (c : string) (nv : string * (list depended * string))
    : Node :=
  mkNode (c ++ "/" ++ fst nv)%string (fst nv) (snd (snd nv)).

Definition entry_edges (c : string) (nv : string * (list depended * string))
    : list (string * string) :=
  pair_edges (c ++ "/" ++ fst nv)%string (fst (snd nv)).

Lemma subgraph_nodes_edges_pairs (c : string)
    (sub : dict (list depended * string)) :
  (forall nv, In nv sub -> all_pairs (fst (snd nv))) ->
  subgraph_nodes_edges c sub
  = Ok (map (entry_node c) sub, flat_map (entry_edges c) sub).
Proof.
  induction sub as [|[n [deps col]] rest IH]; intros H; [reflexivity|].
  cbn [subgraph_nodes_edges node_name].
  rewrite (node_edges_pairs _ deps (H (n, (deps, col)) (or_introl eq_refl))).
  cbn [bind]. rewrite IH by (intros nv Hnv; apply H; right; exact Hnv).
  reflexivity.
Qed.

Lemma build_graph_pairs (data : graph_data) :
  (forall e, In e (entries data) -> all_pairs (fst (snd e))) ->
  exists g, build_graph data = Ok g
    /\ node_names g
       = map (fun e => (fst (fst e) ++ "/" ++ snd (fst e))%string) (entries data)
    /\ edges g
       = flat_map (fun e => pair_edges (fst (fst e) ++ "/" ++ snd (fst e))%string
                              (fst (snd e)))
           (entries data).
Proof.
  induction data as [|[c sub] rest IH]; intros H.
  - exists (mkDot [] []). repeat split.
  - destruct IH as [g [Hg [Hn He]]].
    { intros e He. apply H. unfold entries. cbn [flat_map].
      apply in_or_app. right. exact He. }
    cbn [build_graph]. rewrite subgraph_nodes_edges_pairs.
    + cbn [bind]. rewrite Hg. cbn [bind]. eexists. split; [reflexivity|].
      unfold node_names, entries in *. cbn [subgraphs edges flat_map cluster_nodes fst snd].
      rewrite Hn, He, map_app, flat_map_app, !map_map, !flat_map_concat_map, map_map.
      split; reflexivity.
    + intros nv Hnv.
      apply (H (c, fst nv, snd nv)). unfold entries. cbn [flat_map fst snd].
      apply in_or_app. left. apply in_map_iff. exists nv. split; [reflexivity|exact Hnv].
Qed.

Lemma find_fixture_def_In (source_fixture_name func_path fixture_name : string)
    (name2fixturedefs : dict (list FixtureDef)) (d : FixtureDef) :
  _find_fixture_def source_fixture_name func_path fixture_name name2fixturedefs
    = Some d ->
  exists defs, In (fixture_name, defs) name2fixturedefs /\ In d defs.
Proof.
  unfold _find_fixture_def, first_sorted.
  destruct (dict_get name2fixturedefs fixture_name) as [defs|] eqn:E;
    [|discriminate].
  set (key := sort_key _).
  intros H. exists defs. split; [apply dict_get_In, E|].
  apply (Permutation_in _ (sorted_perm Z.ltb key defs)).
  destruct (sorted Z.ltb key defs) as [|x t]; [discriminate|].
  injection H as ->. left. reflexivity.
Qed.

Section GraphFacts.
Variable relpath : string -> string -> string.
Variable cwd : string.
Variable name2fixturedefs : dict (list FixtureDef).

(** The name of the node of a definition. *)
Definition node_of (fixture_name : string) (fd : FixtureDef) : string :=
  (_get_cluster_name relpath cwd (func_file fd) ++ "/" ++ fixture_name)%string.

(** An entry stands for a definition of the registry and holds its
    resolved dependencies. *)
Definition from_registry (e : string * string * (list depended * string))
    : Prop :=
  exists defs fd,
    In (snd (fst e), defs) name2fixturedefs /\ In fd defs
    /\ fst (fst e) = _get_cluster_name relpath cwd (func_file fd)
    /\ fst (snd e) = depended_of relpath cwd name2fixturedefs (snd (fst e)) fd.

Lemma depended_of_pairs (fixture_name : string) (fd : FixtureDef) :
  all_pairs (depended_of relpath cwd name2fixturedefs fixture_name fd).
Proof.
  unfold all_pairs, depended_of. apply Forall_map, Forall_forall.
  intros argname _.
  destruct (_get_fixture_node_name relpath cwd argname _) as [c n].
  exists c, n. reflexivity.
Qed.

Lemma add_fixture_defs_entries (fixture_name : string)
    (defs fixture_defs : list FixtureDef) (data : graph_data) :
  In (fixture_name, defs) name2fixturedefs -> incl fixture_defs defs ->
  Forall from_registry (entries data) ->
  Forall from_registry
    (entries (add_fixture_defs relpath cwd name2fixturedefs fixture_name
                fixture_defs data)).
Proof.
  intros Hreg. unfold add_fixture_defs. revert data.
  induction fixture_defs as [|fd rest IH]; intros data Hincl H; simpl; [exact H|].
  apply IH; [intros x Hx; apply Hincl; right; exact Hx|].
  apply Forall_forall. intros e He. apply entries_data_set in He.
  destruct He as [->|He]; [|rewrite Forall_forall in H; apply H, He].
  exists defs, fd. cbn [fst snd].
  repeat split; [exact Hreg | apply Hincl; left; reflexivity].
Qed.

Lemma add_registry_entries (items : list (string * list FixtureDef))
    (data : graph_data) :
  incl items name2fixturedefs ->
  Forall from_registry (entries data) ->
  Forall from_registry
    (entries (add_registry relpath cwd name2fixturedefs items data)).
Proof.
  unfold add_registry. revert data.
  induction items as [|[n defs] rest IH]; intros data Hincl H; simpl; [exact H|].
  apply IH; [intros x Hx; apply Hincl; right; exact Hx|].
  destruct (String.eqb n "request"); [exact H|].
  apply (add_fixture_defs_entries n defs defs);
    [apply Hincl; left; reflexivity | apply incl_refl | exact H].
Qed.

(** Keys are never removed from [data]. *)
Lemma add_fixture_defs_keeps (fixture_name : string)
    (fixture_defs : list FixtureDef) (data : graph_data) (c n : string) :
  data_get data c n <> None ->
  data_get (add_fixture_defs relpath cwd name2fixturedefs fixture_name
              fixture_defs data) c n <> None.
Proof.
  unfold add_fixture_defs. revert data.
  induction fixture_defs as [|fd rest IH]; intros data H; simpl; [exact H|].
  apply IH. rewrite data_get_set. destruct (_ && _); [discriminate | exact H].
Qed.

Lemma add_fixture_defs_adds (fixture_name : string)
    (fixture_defs : list FixtureDef) (data : graph_data) (fd : FixtureDef) :
  In fd fixture_defs ->
  data_get (add_fixture_defs relpath cwd name2fixturedefs fixture_name
              fixture_defs data)
    (_get_cluster_name relpath cwd (func_file fd)) fixture_name <> None.
Proof.
  unfold add_fixture_defs. revert data.
  induction fixture_defs as [|x rest IH]; intros data; simpl; [tauto|].
  intros [->|Hin]; [|apply IH, Hin].
  apply (add_fixture_defs_keeps fixture_name rest).
  rewrite data_get_set, !String.eqb_refl. discriminate.
Qed.

Lemma add_registry_keeps (items : list (string * list FixtureDef))
    (data : graph_data) (c n : string) :
  data_get data c n <> None ->
  data_get (add_registry relpath cwd name2fixturedefs items data) c n <> None.
Proof.
  unfold add_registry. revert data.
  induction items as [|[m defs] rest IH]; intros data H; simpl; [exact H|].
  apply IH. destruct (String.eqb m "request"); [exact H|].
  apply add_fixture_defs_keeps, H.
Qed.

Lemma add_registry_adds (items : list (string * list FixtureDef))
    (data : graph_data) (n : string) (defs : list FixtureDef) (fd : FixtureDef) :
  In (n, defs) items -> In fd defs -> n <> "request" ->
  data_get (add_registry relpath cwd name2fixturedefs items data)
    (_get_cluster_name relpath cwd (func_file fd)) n <> None.
Proof.
  unfold add_registry. revert data.
  induction items as [|[m mdefs] rest IH]; intros data; simpl; [tauto|].
  intros [[= -> ->]|Hin] Hfd Hn; [|apply IH; assumption].
  rewrite (proj2 (String.eqb_neq _ _) Hn).
  apply (add_registry_keeps rest). apply add_fixture_defs_adds, Hfd.
Qed.

(** Where an edge of a node of the registry comes from. *)
Lemma pair_edges_depended (node fixture_name : string) (fd : FixtureDef)
    (src dst : string) :
  In (src, dst)
     (pair_edges node (depended_of relpath cwd name2fixturedefs fixture_name fd)) ->
  src = node
  /\ exists argname rd,
       In argname (argnames fd)
       /\ _find_fixture_def fixture_name (func_file fd) argname name2fixturedefs
          = Some rd
       /\ dst = node_of argname rd.
Proof.
  unfold pair_edges, depended_of. intros H. apply in_flat_map in H.
  destruct H as [d [Hd He]]. apply in_map_iff in Hd.
  destruct Hd as [argname [<- Harg]].
  destruct (_find_fixture_def fixture_name (func_file fd) argname name2fixturedefs)
    as [rd|] eqn:E; cbn [_get_fixture_node_name] in He.
  - destruct (String.eqb argname ""); [destruct He|].
    destruct He as [[= <- <-]|[]]. split; [reflexivity|].
    exists argname, rd. repeat split; assumption.
  - destruct He.
Qed.

End GraphFacts.

(** A registry in which [a] depends on the reserved name [request], for
    which a definition is registered. *)
Definition request_def : FixtureDef :=
  mkFixtureDef "" "conftest" "/root/conftest.py" [].
Definition a_def : FixtureDef :=
  mkFixtureDef "" "conftest" "/root/conftest.py" ["request"].
Definition request_registry : dict (list FixtureDef) :=
  [("request", [request_def]); ("a", [a_def])].

(** The edge from [a] to [request] is emitted although no node is made for
    [request]. *)
Lemma edge_to_request_dangles :
  exists g,
    fixture_graph (fun p _ => p) "/work/" request_registry None = Ok g
    /\ node_names g = ["/root/conftest.py/a"]
    /\ edges g = [("/root/conftest.py/a", "/root/conftest.py/request")]
    /\ ~ In "/root/conftest.py/request" (node_names g).
Proof.
  eexists. split; [reflexivity|]. split; [reflexivity|]. split; [reflexivity|].
  simpl. intros [H|[]]. discriminate H.
Qed.

(** C6 as the code has it, for a graph assembled from the registry alone:
    the graph is always assembled; a dependency that resolves to no
    definition stands in the list as the pair of two empty strings and gives
    no edge; every edge goes from the node of a definition of the registry
    to the node name of the definition that one of its dependency names
    resolves to; its source is a node of the graph, and so is its
    destination unless the dependency name is [request], for which no node
    is made. *)
Theorem registry_graph_edges
    (relpath : string -> string -> string) (cwd : string)
    (name2fixturedefs : dict (list FixtureDef)) :
  (forall argname, _get_fixture_node_name relpath cwd argname None = ("", ""))
  /\ (forall node rest,
        node_edges node (dep_pair "" "" :: rest) = node_edges node rest)
  /\ exists g,
       fixture_graph relpath cwd name2fixturedefs None = Ok g
       /\ forall src dst, In (src, dst) (edges g) ->
            In src (node_names g)
            /\ exists fixture_name fixture_defs fd argname rd,
                 In (fixture_name, fixture_defs) name2fixturedefs
                 /\ In fd fixture_defs
                 /\ In argname (argnames fd)
                 /\ _find_fixture_def fixture_name (func_file fd) argname
                      name2fixturedefs = Some rd
                 /\ src = node_of relpath cwd fixture_name fd
                 /\ dst = node_of relpath cwd argname rd
                 /\ (argname <> "request" -> In dst (node_names g)).
Proof.
  split; [reflexivity|].
  split.
  { intros node rest. cbn [node_edges unpack_pair bind].
    destruct (node_edges node rest); reflexivity. }
  set (data := build_data relpath cwd name2fixturedefs None).
  assert (Hfrom : Forall (from_registry relpath cwd name2fixturedefs)
                    (entries data)).
  { apply add_registry_entries; [apply incl_refl | constructor]. }
  rewrite Forall_forall in Hfrom.
  destruct (build_graph_pairs data) as [g [Hg [Hnodes Hedges]]].
  { intros e He. destruct (Hfrom e He) as [defs [fd [_ [_ [_ Hdeps]]]]].
    rewrite Hdeps. apply depended_of_pairs. }
  exists g. split; [exact Hg|].
  intros src dst Hedge. rewrite Hedges in Hedge. apply in_flat_map in Hedge.
  destruct Hedge as [[[c n] [deps col]] [He Hin]]. cbn [fst snd] in Hin.
  destruct (Hfrom _ He) as [defs [fd [Hreg [Hfd [Hc Hdeps]]]]].
  cbn [fst snd] in Hreg, Hc, Hdeps. subst c deps.
  apply pair_edges_depended in Hin.
  destruct Hin as [-> [argname [rd [Harg [Hfind ->]]]]].
  split.
  { rewrite Hnodes. apply in_map_iff. eexists. split; [|exact He]. reflexivity. }
  exists n, defs, fd, argname, rd.
  repeat split; try assumption.
  intros Hreq. destruct (find_fixture_def_In _ _ _ _ _ Hfind) as [rdefs [Hr Hrd]].
  pose proof (add_registry_adds relpath cwd name2fixturedefs name2fixturedefs []
                argname rdefs rd Hr Hrd Hreq) as Hkey.
  fold (build_data relpath cwd name2fixturedefs None) in Hkey. fold data in Hkey.
  destruct (data_get data (_get_cluster_name relpath cwd (func_file rd)) argname)
    as [v|] eqn:Ev; [|congruence].
  apply data_get_entries in Ev. rewrite Hnodes. apply in_map_iff.
  eexists. split; [|exact Ev]. reflexivity.
Qed.

Lemma registry_graph_edges_witness :
  exists g,
    fixture_graph (fun p _ => p) "/work/" scenario_registry None = Ok g
    /\ In "/root/conftest/db" (node_names g).
Proof.
  destruct (registry_graph_edges (fun p _ => p) "/work/" scenario_registry)
    as [_ [_ [g [Hg Hedges]]]].
  exists g. split; [exact Hg|].
  assert (Hedge : In ("/root/api/conftest/client", "/root/conftest/db") (edges g)).
  { rewrite scenario_graph_without_func_args in Hg. injection Hg as <-.
    left. reflexivity. }
  destruct (Hedges _ _ Hedge)
    as [_ [n [defs [fd [argname [rd [Hreg [Hfd [Harg [_ [_ [_ Hnode]]]]]]]]]]]].
  apply Hnode.
  destruct Hreg as [[= <- <-]|[[= <- <-]|[]]].
  - destruct Hfd as [<-|[]]. destruct Harg.
  - destruct Hfd as [<-|[]]. destruct Harg as [<-|[]]. discriminate.
Defined.

(** * More of the plugin: the hooks and the path cache *)

Module Hooks.

(** [s.split('.')[-1]]: what follows the last dot, the whole string when
    there is none. *)
Fixpoint has_dot (s : string) : bool :=
  match s with
  | EmptyString => false
  | String c r => Ascii.eqb c "."%char || has_dot r
  end.

Fixpoint last_component (s : string) : string :=
  match s with
  | EmptyString => EmptyString
  | String c r =>
      if has_dot r then last_component r
      else if Ascii.eqb c "."%char then r
      else String c r
  end.

(** [fixture_def.func.__module__.split('.')[-1].startswith("test_")] *)
Definition in_test_module (fixture_def : FixtureDef) : bool :=
  startswith (last_component (func_module fixture_def)) "test_".

(** The dict comprehension of [pytest_collection_modifyitems]. *)
Definition exclude_test_modules (arg2fixturedefs : dict (list FixtureDef))
    : dict (list FixtureDef) :=
  map (fun item =>
         (fst item, filter (fun fixture_def => negb (in_test_module fixture_def))
                      (snd item)))
      arg2fixturedefs.

(** [pytest_collection_modifyitems]: [fixture_graph] is
    [config.option.fixture_graph], [arg2fixturedefs] is
    [session._fixturemanager._arg2fixturedefs]. *)
Definition pytest_collection_modifyitems (w : World)
    (relpath : string -> string -> string) (cwd : string)
    (fixture_graph : bool) (log_dir output_type : string)
    (arg2fixturedefs : dict (list FixtureDef)) : io unit :=
  if fixture_graph
  then save_fixture_graph w relpath cwd log_dir output_type
         (exclude_test_modules arg2fixturedefs) "fixture-graph" None
  else io_ret tt.

(** [s.replace(old, new)] for strings of one character. *)
Fixpoint replace_char (old new : ascii) (s : string) : string :=
  match s with
  | EmptyString => EmptyString
  | String c r =>
      String (if Ascii.eqb c old then new else c) (replace_char old new r)
  end.

(** ["fixture-graph-{}".format(item._nodeid.replace(":", "_").replace("/", "-"))] *)
Definition item_filename (nodeid : string) : string :=
  "fixture-graph-"
  ++ replace_char "/"%char "-"%char (replace_char ":"%char "_"%char nodeid).

(** [pytest_runtest_setup]: [fixtureinfo] is [None] when the item has no
    attribute [_fixtureinfo], else its [name2fixturedefs] and [argnames]. *)
Definition pytest_runtest_setup (w : World)
    (relpath : string -> string -> string) (cwd : string)
    (fixture_graph : bool) (log_dir output_type : string)
    (fixtureinfo : option (dict (list FixtureDef) * list string))
    (nodeid : string) : io unit :=
  match fixture_graph, fixtureinfo with
  | true, Some (name2fixturedefs, argnames) =>
      save_fixture_graph w relpath cwd log_dir output_type name2fixturedefs
        (item_filename nodeid) (Some argnames)
  | _, _ => io_ret tt
  end.

Section FuncPath.

(** Function objects, compared by identity, and [inspect.getfile]. *)
Variable func : Type.
Variable func_eqb : func -> func -> bool.
Variable getfile : func -> string.

(** [path_cache]: a dict with functions as keys. *)
Definition path_cache : Type := list (func * string).

Fixpoint cache_get (cache : path_cache) (f : func) : option string :=
  match cache with
  | [] => None
  | (g, p) :: rest => if func_eqb g f then Some p else cache_get rest f
  end.

Fixpoint cache_set (cache : path_cache) (f : func) (p : string) : path_cache :=
  match cache with
  | [] => [(f, p)]
  | (g, q) :: rest =>
      if func_eqb g f then (g, p) :: rest else (g, q) :: cache_set rest f p
  end.

(** [_get_func_path]: the path, the cache afterwards, and the number of
    calls of [inspect.getfile] made. *)
Definition _get_func_path (f : func) (cache : path_cache)
    : string * path_cache * nat :=
  match cache_get cache f with
  | Some func_path => (func_path, cache, 0)
  | None =>
      let func_path := getfile f in
      (func_path, cache_set cache f func_path, 1)
  end.

(** [get_func_path] applied to a series of functions with one cache, as
    [save_fixture_graph] does through [functools.partial]. *)
Fixpoint get_func_paths (fs : list func) (cache : path_cache)
    : list string * path_cache * nat :=
  match fs with
  | [] => ([], cache, 0)
  | f :: rest =>
      let '(p, cache1, n1) := _get_func_path f cache in
      let '(ps, cache2, n2) := get_func_paths rest cache1 in
      (p :: ps, cache2, n1 + n2)
  end.

End FuncPath.

Arguments cache_get {func} func_eqb cache f.
Arguments cache_set {func} func_eqb cache f p.
Arguments _get_func_path {func} func_eqb getfile f cache.
Arguments get_func_paths {func} func_eqb getfile fs cache.

End Hooks.

Import Hooks.

(** * Further properties of the resolution *)

Lemma parents_shorter (q : string) (i j : nat) :
  i < j -> j < List.length (_get_fixture_search_order q) ->
  String.length (Nat.iter (S j) dirname q)
  < String.length (Nat.iter (S i) dirname q).
Proof.
  destruct (search_order_shape q) as [[_ [_ Hall]] _].
  rewrite Forall_forall in Hall.
  intros Hij. induction Hij as [|j Hij IH]; intros Hj.
  - apply (Hall (S i)). apply in_seq. lia.
  - assert (Hstep : String.length (Nat.iter (S (S j)) dirname q)
                    < String.length (Nat.iter (S j) dirname q)).
    { apply (Hall (S j)). apply in_seq. lia. }
    specialize (IH ltac:(lia)). lia.
Qed.

Lemma iter_dirname_normal (q : string) (i : nat) :
  dir_normal (Nat.iter (S i) dirname q).
Proof. simpl. apply dirname_normal. Qed.

(** Two entries of a chain are equal only at the same position. *)
Lemma chain_entry_inj (q : string) (i j : nat) :
  i < List.length (_get_fixture_search_order q) ->
  j < List.length (_get_fixture_search_order q) ->
  join (Nat.iter (S i) dirname q) "conftest.py"
  = join (Nat.iter (S j) dirname q) "conftest.py" ->
  i = j.
Proof.
  intros Hi Hj Heq.
  assert (Hd : Nat.iter (S i) dirname q = Nat.iter (S j) dirname q).
  { rewrite <- (dirname_join_conftest _ (iter_dirname_normal q i)).
    rewrite <- (dirname_join_conftest _ (iter_dirname_normal q j)).
    rewrite Heq. reflexivity. }
  destruct (Nat.lt_trichotomy i j) as [H|[H|H]]; [|exact H|].
  - pose proof (parents_shorter q i j H Hj). rewrite Hd in *. lia.
  - pose proof (parents_shorter q j i H Hi). rewrite Hd in *. lia.
Qed.

Lemma chain_NoDup (q : string) : NoDup (_get_fixture_search_order q).
Proof.
  destruct (search_order_shape q) as [[Hmap _] _].
  rewrite Hmap. apply NoDup_map_NoDup_ForallPairs; [|apply seq_NoDup].
  intros i j Hi Hj Heq. apply in_seq in Hi, Hj.
  apply (chain_entry_inj q); [lia | lia | exact Heq].
Qed.

Lemma list_index_nth (x : string) (l : list string) (i : nat) :
  NoDup l -> nth_error l i = Some x -> list_index x l = Some i.
Proof.
  intros Hnd Hi. apply list_index_first; [exact Hi|].
  intros j Hj Hjx.
  assert (Hlen : i < List.length l)
    by (apply nth_error_Some; rewrite Hi; discriminate).
  pose proof (proj1 (NoDup_nth_error l) Hnd j i ltac:(lia)) as Hinj.
  rewrite Hi, Hjx in Hinj. specialize (Hinj eq_refl). lia.
Qed.

(** X1: the search order of [_find_fixture_def] lists no location twice,
    so the rank of a location is its one position in it. *)
Theorem find_search_order_NoDup
    (source_fixture_name func_path fixture_name : string) :
  let search_order :=
    find_search_order source_fixture_name func_path fixture_name in
  NoDup search_order
  /\ NoDup (_get_fixture_search_order func_path)
  /\ forall d i,
       nth_error search_order i = Some (func_file d) <->
       (sort_key search_order d = Z.of_nat i /\ In (func_file d) search_order).
Proof.
  intros search_order.
  assert (Hnd : NoDup search_order).
  { unfold search_order, find_search_order.
    destruct (negb (source_fixture_name =? fixture_name)); [|apply chain_NoDup].
    constructor; [apply file_not_in_own_chain | apply chain_NoDup]. }
  split; [exact Hnd|]. split; [apply chain_NoDup|].
  intros d i. split.
  - intros Hi. split; [|apply (nth_error_In _ _ Hi)].
    unfold sort_key. rewrite (list_index_nth _ _ _ Hnd Hi). reflexivity.
  - intros [Hk Hin]. unfold sort_key in Hk.
    destruct (list_index (func_file d) search_order) as [k|] eqn:E.
    + apply list_index_Some in E. destruct E as [E _].
      assert (k = i) by lia. subst k. exact E.
    + apply list_index_None in E. contradiction.
Qed.

Lemma find_search_order_NoDup_witness :
  sort_key (find_search_order "client" "/root/api/conftest.py" "db") db_at_depth1
  = 1%Z.
Proof.
  destruct (find_search_order_NoDup "client" "/root/api/conftest.py" "db")
    as [_ [_ H]].
  apply (H db_at_depth1 1). reflexivity.
Defined.

(** The [conftest.py] of the directory of [func_path] is not an entry of
    the chain of that directory. *)
Lemma sibling_conftest_not_in_chain (func_path : string) :
  ~ In (join (dirname func_path) "conftest.py")
       (_get_fixture_search_order (dirname func_path)).
Proof.
  set (q := dirname func_path).
  destruct (search_order_shape q) as [[Hmap _] _].
  rewrite Hmap. intros Hin. apply in_map_iff in Hin.
  destruct Hin as [i [Heq Hi]]. apply in_seq in Hi.
  assert (Hd : Nat.iter (S i) dirname q = q).
  { rewrite <- (dirname_join_conftest _ (iter_dirname_normal q i)).
    rewrite Heq. apply dirname_join_conftest. apply dirname_normal. }
  pose proof (chain_parent_shorter q i ltac:(lia)) as Hlt.
  rewrite Hd in Hlt. lia.
Qed.

(** X2: the search starts one directory above the consumer's: a candidate
    declared in the [conftest.py] that lies in the same directory as the
    consumer, when that is another file, is not in the search order and has
    the rank [sys.maxsize] of the absent locations. *)
Theorem sibling_conftest_ranked_absent
    (source_fixture_name func_path fixture_name : string) (d : FixtureDef) :
  func_file d = join (dirname func_path) "conftest.py" ->
  func_file d <> func_path ->
  ~ In (func_file d)
       (find_search_order source_fixture_name func_path fixture_name)
  /\ sort_key (find_search_order source_fixture_name func_path fixture_name) d
     = sys_maxsize.
Proof.
  intros Hd Hne.
  assert (Hnot : ~ In (func_file d)
                   (find_search_order source_fixture_name func_path fixture_name)).
  { unfold find_search_order.
    destruct (negb (source_fixture_name =? fixture_name)).
    - intros [H|H]; [congruence|].
      rewrite Hd in H. apply (sibling_conftest_not_in_chain func_path H).
    - rewrite Hd. apply sibling_conftest_not_in_chain. }
  split; [exact Hnot | apply sort_key_absent, Hnot].
Qed.

Definition db_in_sibling_conftest : FixtureDef :=
  mkFixtureDef "root/api" "root.api.conftest" "/root/api/conftest.py" [].

Lemma sibling_conftest_ranked_absent_witness :
  sort_key (find_search_order "test_x" "/root/api/test_x.py" "db")
    db_in_sibling_conftest = sys_maxsize.
Proof.
  apply (sibling_conftest_ranked_absent "test_x" "/root/api/test_x.py" "db"
           db_in_sibling_conftest).
  - reflexivity.
  - discriminate.
Defined.

(** X3: [_find_fixture_def] answers [None] exactly when the wanted name is
    not a key of the registry or its list of definitions is empty; any
    other answer is a definition of that list, the first of those whose
    rank is least. *)
Theorem find_fixture_def_none_iff
    (source_fixture_name func_path fixture_name : string)
    (name2fixturedefs : dict (list FixtureDef)) :
  let search_order :=
    find_search_order source_fixture_name func_path fixture_name in
  let found :=
    _find_fixture_def source_fixture_name func_path fixture_name
      name2fixturedefs in
  (found = None <->
   dict_get name2fixturedefs fixture_name = None
   \/ dict_get name2fixturedefs fixture_name = Some [])
  /\ forall d, found = Some d ->
       exists before after,
         dict_get name2fixturedefs fixture_name = Some (before ++ d :: after)
         /\ Forall (fun c => (sort_key search_order d < sort_key search_order c)%Z)
              before
         /\ Forall (fun c => (sort_key search_order d <= sort_key search_order c)%Z)
              after.
Proof.
  intros search_order found. unfold found, _find_fixture_def.
  fold search_order. unfold first_sorted.
  destruct (dict_get name2fixturedefs fixture_name) as [defs|] eqn:E.
  - rewrite hd_sorted. split.
    + split.
      * intros H. apply first_min_none in H. subst defs. right. reflexivity.
      * intros [H|H]; [discriminate H|]. injection H as ->. reflexivity.
    + intros d Hd.
      destruct (first_min_split Z.ltb _ Z_ltb_trans Z_geb_trans defs d Hd)
        as [l1 [l2 [-> [H1 H2]]]].
      exists l1, l2. split; [reflexivity|]. split.
      * revert H1. apply Forall_impl. intros c. apply Z.ltb_lt.
      * revert H2. apply Forall_impl. intros c. apply Z.ltb_ge.
  - split; [split; [left; reflexivity | reflexivity] | discriminate].
Qed.

Lemma find_fixture_def_none_iff_witness :
  _find_fixture_def "client" "/root/api/conftest.py" "cache"
    [("db", [db_at_root]); ("cache", [])] = None.
Proof.
  destruct (find_fixture_def_none_iff "client" "/root/api/conftest.py" "cache"
              [("db", [db_at_root]); ("cache", [])]) as [H _].
  apply H. right. reflexivity.
Defined.

Lemma NoDup_map_eq {A B : Type} (f : A -> B) (l : list A) (a b : A) :
  NoDup (map f l) -> In a l -> In b l -> f a = f b -> a = b.
Proof.
  induction l as [|x t IH]; simpl; [tauto|].
  intros Hnd Ha Hb Hf. inversion Hnd as [|? ? Hx Ht]; subst.
  destruct Ha as [->|Ha], Hb as [->|Hb].
  - reflexivity.
  - exfalso. apply Hx. rewrite Hf. apply in_map, Hb.
  - exfalso. apply Hx. rewrite <- Hf. apply in_map, Ha.
  - apply IH; assumption.
Qed.

(** X4: when the candidates are declared in pairwise different files that
    all are in the search order, the order of the registry's list does not
    matter: every reordering of the list gives the same definition. *)
Theorem find_fixture_def_order_irrelevant
    (source_fixture_name func_path fixture_name : string)
    (registry registry' : dict (list FixtureDef))
    (defs defs' : list FixtureDef) :
  dict_get registry fixture_name = Some defs ->
  dict_get registry' fixture_name = Some defs' ->
  Permutation defs defs' ->
  NoDup (map func_file defs) ->
  (forall c, In c defs ->
     In (func_file c)
        (find_search_order source_fixture_name func_path fixture_name)) ->
  _find_fixture_def source_fixture_name func_path fixture_name registry
  = _find_fixture_def source_fixture_name func_path fixture_name registry'.
Proof.
  intros Hreg Hreg' Hperm Hnd Hin.
  unfold _find_fixture_def. rewrite Hreg, Hreg'.
  set (so := find_search_order source_fixture_name func_path fixture_name) in *.
  unfold first_sorted. rewrite !hd_sorted.
  destruct (first_min Z.ltb (sort_key so) defs) as [m|] eqn:E;
    destruct (first_min Z.ltb (sort_key so) defs') as [m'|] eqn:E'.
  - destruct (first_min_least Z.ltb _ Z_ltb_trans Z_ltb_asym Z_geb_trans _ _ E)
      as [Hm Hle].
    destruct (first_min_least Z.ltb _ Z_ltb_trans Z_ltb_asym Z_geb_trans _ _ E')
      as [Hm' Hle'].
    assert (Hm'in : In m' defs)
      by (apply (Permutation_in _ (Permutation_sym Hperm)), Hm').
    assert (Hmin : In m defs') by (apply (Permutation_in _ Hperm), Hm).
    pose proof (Hle m' Hm'in) as H1. pose proof (Hle' m Hmin) as H2.
    apply Z.ltb_ge in H1, H2.
    assert (Hk : sort_key so m = sort_key so m') by lia.
    f_equal. apply (NoDup_map_eq func_file defs); try assumption.
    unfold sort_key in Hk.
    destruct (list_index (func_file m) so) as [i|] eqn:Ei.
    + destruct (list_index (func_file m') so) as [j|] eqn:Ej.
      * assert (i = j) by lia. subst j.
        apply list_index_Some in Ei, Ej. destruct Ei as [Ei _], Ej as [Ej _].
        congruence.
      * apply list_index_None in Ej. exfalso. apply Ej, Hin, Hm'in.
    + apply list_index_None in Ei. exfalso. apply Ei, Hin, Hm.
  - apply first_min_none in E'. subst defs'.
    apply Permutation_sym, Permutation_nil in Hperm. subst defs. discriminate E.
  - apply first_min_none in E. subst defs.
    apply Permutation_nil in Hperm. subst defs'. discriminate E'.
  - reflexivity.
Qed.

Lemma find_fixture_def_order_irrelevant_witness :
  _find_fixture_def "client" "/root/api/conftest.py" "db"
    [("db", [db_at_root; db_at_depth1])]
  = _find_fixture_def "client" "/root/api/conftest.py" "db"
      [("db", [db_at_depth1; db_at_root])].
Proof.
  apply (find_fixture_def_order_irrelevant "client" "/root/api/conftest.py" "db"
           _ _ [db_at_root; db_at_depth1] [db_at_depth1; db_at_root]).
  - reflexivity.
  - reflexivity.
  - apply perm_swap.
  - simpl. constructor; [intros [H|[]]; discriminate H|].
    constructor; [intros []|constructor].
  - intros c [<-|[<-|[]]]; vm_compute; tauto.
Defined.

(** * The path cache: [_get_func_path] *)

Section FuncPathFacts.
Variable func : Type.
Variable func_eqb : func -> func -> bool.
Variable getfile : func -> string.
Hypothesis func_eqb_eq : forall f g, func_eqb f g = true <-> f = g.

(** The functions of [fs] in the order of their first occurrence, those of
    [seen] left out. *)
Fixpoint fresh (seen fs : list func) : list func :=
  match fs with
  | [] => []
  | f :: rest =>
      if existsb (func_eqb f) seen then fresh seen rest
      else f :: fresh (seen ++ [f]) rest
  end.

(** Every entry of the cache is the file of its function. *)
Definition coherent (cache : path_cache func) : Prop :=
  forall f p, cache_get func_eqb cache f = Some p -> p = getfile f.

Lemma func_eqb_refl (f : func) : func_eqb f f = true.
Proof. apply func_eqb_eq. reflexivity. Qed.

Lemma func_eqb_sym (f g : func) : func_eqb f g = func_eqb g f.
Proof.
  destruct (func_eqb f g) eqn:E, (func_eqb g f) eqn:E'; try reflexivity.
  - apply func_eqb_eq in E. subst g. rewrite func_eqb_refl in E'. discriminate.
  - apply func_eqb_eq in E'. subst g. rewrite func_eqb_refl in E. discriminate.
Qed.

Lemma cache_get_set (cache : path_cache func) (f g : func) (p : string) :
  cache_get func_eqb (cache_set func_eqb cache f p) g
  = if func_eqb f g then Some p else cache_get func_eqb cache g.
Proof.
  induction cache as [|[h q] rest IH]; simpl; [reflexivity|].
  destruct (func_eqb h f) eqn:Ehf; simpl.
  - apply func_eqb_eq in Ehf. subst h. destruct (func_eqb f g); reflexivity.
  - rewrite IH. destruct (func_eqb h g) eqn:Ehg; [|reflexivity].
    apply func_eqb_eq in Ehg. subst h.
    rewrite func_eqb_sym, Ehf. reflexivity.
Qed.

Lemma cache_get_keys (cache : path_cache func) (f : func) :
  existsb (func_eqb f) (map fst cache)
  = match cache_get func_eqb cache f with Some _ => true | None => false end.
Proof.
  induction cache as [|[h q] rest IH]; simpl; [reflexivity|].
  rewrite (func_eqb_sym f h). destruct (func_eqb h f); [reflexivity | exact IH].
Qed.

Lemma cache_set_keys (cache : path_cache func) (f : func) (p : string) :
  cache_get func_eqb cache f = None ->
  map fst (cache_set func_eqb cache f p) = map fst cache ++ [f].
Proof.
  induction cache as [|[h q] rest IH]; simpl; [reflexivity|].
  destruct (func_eqb h f); [discriminate|].
  intros H. simpl. rewrite (IH H). reflexivity.
Qed.

Lemma get_func_paths_run (fs : list func) (cache : path_cache func) :
  coherent cache ->
  exists cache',
    get_func_paths func_eqb getfile fs cache
    = (map getfile fs, cache', List.length (fresh (map fst cache) fs))
    /\ coherent cache'
    /\ (forall f p, cache_get func_eqb cache f = Some p ->
                    cache_get func_eqb cache' f = Some p)
    /\ (forall f, In f fs -> cache_get func_eqb cache' f = Some (getfile f)).
Proof.
  revert cache. induction fs as [|f rest IH]; intros cache Hc.
  - exists cache. repeat split; [exact Hc | tauto | intros f []].
  - cbn [get_func_paths fresh]. unfold _get_func_path.
    rewrite cache_get_keys.
    destruct (cache_get func_eqb cache f) as [p|] eqn:E.
    + destruct (IH cache Hc) as [cache' [Hrun [Hc' [Hkeep Hall]]]].
      exists cache'. rewrite Hrun. rewrite (Hc f p E).
      repeat split; try assumption.
      intros g [<-|Hg]; [|apply Hall, Hg].
      rewrite <- (Hc f p E). apply Hkeep, E.
    + assert (Hc1 : coherent (cache_set func_eqb cache f (getfile f))).
      { intros g q. rewrite cache_get_set.
        destruct (func_eqb f g) eqn:Efg; [|apply Hc].
        apply func_eqb_eq in Efg. subst g. intros [= <-]. reflexivity. }
      destruct (IH _ Hc1) as [cache' [Hrun [Hc' [Hkeep Hall]]]].
      exists cache'. rewrite Hrun, (cache_set_keys cache f _ E).
      repeat split; try assumption.
      * intros g q Hg. apply Hkeep. rewrite cache_get_set.
        destruct (func_eqb f g) eqn:Efg; [|exact Hg].
        apply func_eqb_eq in Efg. subst g. congruence.
      * intros g [<-|Hg]; [|apply Hall, Hg].
        apply Hkeep. rewrite cache_get_set, func_eqb_refl. reflexivity.
Qed.

Lemma get_func_paths_cached (fs : list func) (cache : path_cache func) :
  (forall f, In f fs -> cache_get func_eqb cache f = Some (getfile f)) ->
  get_func_paths func_eqb getfile fs cache = (map getfile fs, cache, 0).
Proof.
  induction fs as [|f rest IH]; intros H; [reflexivity|].
  cbn [get_func_paths]. unfold _get_func_path.
  rewrite (H f (or_introl eq_refl)).
  rewrite IH by (intros g Hg; apply H; right; exact Hg). reflexivity.
Qed.

Lemma existsb_In (f : func) (l : list func) :
  existsb (func_eqb f) l = true <-> In f l.
Proof.
  rewrite existsb_exists. split.
  - intros [g [Hg E]]. apply func_eqb_eq in E. subst g. exact Hg.
  - intros H. exists f. split; [exact H | apply func_eqb_refl].
Qed.

Lemma fresh_spec (seen fs : list func) :
  NoDup (fresh seen fs)
  /\ forall f, In f (fresh seen fs) <-> In f fs /\ ~ In f seen.
Proof.
  revert seen. induction fs as [|g rest IH]; intros seen.
  - split; [constructor | simpl; tauto].
  - cbn [fresh]. destruct (existsb (func_eqb g) seen) eqn:E.
    + destruct (IH seen) as [Hnd Hin]. split; [exact Hnd|].
      intros f. rewrite Hin. apply existsb_In in E. simpl.
      split; [tauto|]. intros [[<-|H] Hn]; [contradiction | tauto].
    + destruct (IH (seen ++ [g])) as [Hnd Hin].
      assert (Hg : ~ In g seen).
      { intros H. apply existsb_In in H. congruence. }
      split.
      * constructor; [|exact Hnd]. rewrite Hin, in_app_iff. simpl. tauto.
      * intros f. simpl. rewrite Hin, in_app_iff. simpl. split.
        -- intros [<-|[H Hn]]; [tauto|]. split; [right; exact H | tauto].
        -- intros [[<-|H] Hn]; [left; reflexivity|].
           destruct (func_eqb g f) eqn:Egf.
           ++ apply func_eqb_eq in Egf. left. exact Egf.
           ++ right. split; [exact H|]. intros [Hs|[<-|[]]]; [tauto|].
              rewrite func_eqb_refl in Egf. discriminate.
Qed.

(** X5: with a cache that starts empty, a series of calls of
    [get_func_path] returns [inspect.getfile] of each function, calls
    [inspect.getfile] once for each different function and no more, and
    leaves a cache with which the same series makes no call at all and
    leaves the cache as it is. *)
Theorem get_func_path_memoises (fs : list func) :
  exists cache,
    get_func_paths func_eqb getfile fs []
    = (map getfile fs, cache, List.length (fresh [] fs))
    /\ NoDup (fresh [] fs)
    /\ (forall f, In f (fresh [] fs) <-> In f fs)
    /\ get_func_paths func_eqb getfile fs cache = (map getfile fs, cache, 0).
Proof.
  destruct (get_func_paths_run fs []) as [cache [Hrun [_ [_ Hall]]]].
  { intros f p H. discriminate H. }
  exists cache. split; [exact Hrun|].
  destruct (fresh_spec [] fs) as [Hnd Hin].
  split; [exact Hnd|]. split.
  - intros f. rewrite Hin. simpl. tauto.
  - apply get_func_paths_cached, Hall.
Qed.

End FuncPathFacts.

Lemma get_func_path_memoises_witness :
  exists cache,
    get_func_paths Nat.eqb (fun f => if Nat.eqb f 0 then "/a.py" else "/b.py")
      [0; 1; 0; 1; 1] []
    = (["/a.py"; "/b.py"; "/a.py"; "/b.py"; "/b.py"], cache, 2).
Proof.
  destruct (get_func_path_memoises nat Nat.eqb
              (fun f => if Nat.eqb f 0 then "/a.py" else "/b.py")
              Nat.eqb_eq [0; 1; 0; 1; 1]) as [cache [H _]].
  exists cache. exact H.
Defined.

(** * Further properties of the duplicate report *)

Lemma dict_set_keys_In {V : Type} (d : dict V) (k x : string) (v : V) :
  In x (dict_keys (dict_set d k v)) <-> x = k \/ In x (dict_keys d).
Proof.
  unfold dict_keys. induction d as [|[k0 v0] t IH]; simpl.
  - split; [intros [H|[]]; left; symmetry; exact H | intros [H|[]]; left; symmetry; exact H].
  - destruct (String.eqb_spec k0 k) as [->|Hne]; simpl.
    + split; [tauto|]. intros [->|H]; [left; reflexivity | exact H].
    + rewrite IH. split; [tauto|]. intros [H|[H|H]]; tauto.
Qed.

Lemma dict_set_keys_NoDup {V : Type} (d : dict V) (k : string) (v : V) :
  NoDup (dict_keys d) -> NoDup (dict_keys (dict_set d k v)).
Proof.
  unfold dict_keys. induction d as [|[k0 v0] t IH]; simpl; intros H.
  - constructor; [intros [] | constructor].
  - inversion H as [|? ? Hk Ht]; subst.
    destruct (String.eqb_spec k0 k) as [->|Hne]; simpl.
    + constructor; assumption.
    + constructor; [|apply IH, Ht].
      intros Hin. apply (dict_set_keys_In t k k0 v) in Hin.
      destruct Hin as [Hin|Hin]; [congruence | contradiction].
Qed.

Lemma In_dict_get {V : Type} (d : dict V) (k : string) (v : V) :
  NoDup (dict_keys d) -> In (k, v) d -> dict_get d k = Some v.
Proof.
  unfold dict_keys. induction d as [|[k0 v0] t IH]; simpl; [tauto|].
  intros Hnd Hin. inversion Hnd as [|? ? Hk Ht]; subst.
  destruct Hin as [[= -> ->]|Hin].
  - rewrite String.eqb_refl. reflexivity.
  - destruct (String.eqb_spec k0 k) as [->|Hne]; [|apply IH; assumption].
    exfalso. apply Hk. apply (in_map fst _ _ Hin).
Qed.

Lemma two_members_length {A : Type} (l : list A) (a b : A) :
  In a l -> In b l -> a <> b -> 1 < List.length l.
Proof.
  destruct l as [|x [|y t]]; simpl; [tauto | | lia].
  intros [<-|[]] [<-|[]] H. congruence.
Qed.

(** What the report holds for one name and its group. *)
Definition group_report (entry : string * list fixture) : list tw_call :=
  if Nat.ltb 1 (List.length (snd entry))
  then tw_line "" :: tw_sep "-" (fst entry)
         :: map (fun f => tw_line (bestrel f))
              (sorted String.ltb bestrel (snd entry))
  else [].

Lemma print_duplicates_report (argname : string) (fixtures : list fixture)
    (previous_argname : option string) :
  differs previous_argname argname = true ->
  print_duplicates argname fixtures previous_argname
  = group_report (argname, fixtures).
Proof.
  intros Hd. unfold group_report. cbn [fst snd].
  destruct (Nat.ltb 1 (List.length fixtures)) eqn:E.
  - apply Nat.ltb_lt in E. rewrite (print_duplicates_output _ _ _ E).
    unfold report_header. rewrite Hd. reflexivity.
  - apply Nat.ltb_ge in E. apply print_duplicates_gate, E.
Qed.

Lemma print_all_report (available : list (string * list fixture))
    (previous_argname : option string) :
  NoDup (map fst available) ->
  (forall p, previous_argname = Some p -> ~ In p (map fst available)) ->
  print_all available previous_argname = flat_map group_report available.
Proof.
  revert previous_argname.
  induction available as [|[n g] rest IH]; intros prev Hnd Hprev; [reflexivity|].
  cbn [print_all flat_map]. inversion Hnd as [|? ? Hn Hrest]; subst.
  rewrite print_duplicates_report.
  - rewrite IH; [reflexivity | exact Hrest |].
    intros p [= <-]. exact Hn.
  - destruct prev as [p|]; [|reflexivity]. simpl.
    apply negb_true_iff, String.eqb_neq. intros ->.
    apply (Hprev n eq_refl). left. reflexivity.
Qed.

Section ReportFacts.
Variable getfixturedefs : string -> string -> option (list FixtureDef).
Variable location : FixtureDef -> string.

Lemma collect_fixturedef_keys (argname : string)
    (available : dict (list fixture)) (fd : FixtureDef) :
  NoDup (dict_keys available) ->
  NoDup (dict_keys (collect_fixturedef location argname available fd)).
Proof.
  intros H. unfold collect_fixturedef.
  destruct (str_in _ _); [exact H | apply dict_set_keys_NoDup, H].
Qed.

Lemma collect_argname_keys (nodeid argname : string)
    (available available' : dict (list fixture)) :
  NoDup (dict_keys available) ->
  collect_argname getfixturedefs location nodeid available argname
    = Ok available' ->
  NoDup (dict_keys available').
Proof.
  unfold collect_argname.
  destruct (getfixturedefs argname nodeid) as [fds|]; [|discriminate].
  intros H Hok.
  assert (Hfold : NoDup (dict_keys
            (fold_left (collect_fixturedef location argname) fds available))).
  { clear Hok. revert available H.
    induction fds as [|fd rest IH]; intros available H; simpl; [exact H|].
    apply IH, collect_fixturedef_keys, H. }
  destruct fds as [|fd rest]; injection Hok as <-; [exact H | exact Hfold].
Qed.

Lemma collect_argnames_keys (nodeid : string) (names : list string)
    (available available' : dict (list fixture)) :
  NoDup (dict_keys available) ->
  collect_argnames getfixturedefs location nodeid names available
    = Ok available' ->
  NoDup (dict_keys available').
Proof.
  revert available. induction names as [|a rest IH]; intros available H.
  - simpl. intros [= <-]. exact H.
  - cbn [collect_argnames].
    destruct (collect_argname getfixturedefs location nodeid available a)
      as [av1|e] eqn:E1; [|discriminate].
    cbn [bind]. apply IH. apply (collect_argname_keys _ _ _ _ H E1).
Qed.

Lemma collect_items_keys (items names : list string)
    (available available' : dict (list fixture)) :
  NoDup (dict_keys available) ->
  collect_items getfixturedefs location items names available = Ok available' ->
  NoDup (dict_keys available').
Proof.
  revert available. induction items as [|nodeid rest IH]; intros available H.
  - simpl. intros [= <-]. exact H.
  - cbn [collect_items].
    destruct (collect_argnames getfixturedefs location nodeid names available)
      as [av1|e] eqn:E1; [|discriminate].
    cbn [bind]. apply IH. apply (collect_argnames_keys _ _ _ _ H E1).
Qed.

End ReportFacts.

(** X6: [_show_fixture_duplicates_main] fails only through its assertion:
    it raises, and then [AssertionError], exactly when the host answers
    [None] for one of the scanned names on one of the items. *)
Theorem show_duplicates_raises_iff
    (getfixturedefs : string -> string -> option (list FixtureDef))
    (location : FixtureDef -> string)
    (fixture_name : string) (registry : dict (list FixtureDef))
    (items : list string) (e : exn) :
  _show_fixture_duplicates_main getfixturedefs location fixture_name registry
    items = Raise e
  <-> e = AssertionError
      /\ exists nodeid argname,
           In nodeid items
           /\ In argname (arg2fixturedefs fixture_name registry)
           /\ getfixturedefs argname nodeid = None.
Proof.
  unfold _show_fixture_duplicates_main.
  destruct (collect_items getfixturedefs location items
              (arg2fixturedefs fixture_name registry) []) as [av|e1] eqn:E.
  - cbn [bind]. split.
    + destruct (negb (fixture_name =? "")); discriminate.
    + intros [_ [n [a [Hn [Ha Hnone]]]]]. exfalso.
      apply (collect_items_answered _ _ _ _ _ _ E n a Hn Ha Hnone).
  - cbn [bind]. destruct (collect_items_raise _ _ _ _ _ _ E) as [-> Hex].
    split.
    + intros [= <-]. split; [reflexivity | exact Hex].
    + intros [-> _]. reflexivity.
Qed.

Lemma show_duplicates_raises_iff_witness :
  _show_fixture_duplicates_main show_none func_file "" db_registry ["test_a"]
  = Raise AssertionError.
Proof.
  apply (show_duplicates_raises_iff show_none func_file "" db_registry
           ["test_a"] AssertionError).
  split; [reflexivity|]. exists "test_a", "db".
  repeat split; left; reflexivity.
Defined.

Lemma sorted_names_strict (available : dict (list fixture)) :
  NoDup (dict_keys available) ->
  StronglySorted (fun a b => String.ltb (fst a) (fst b) = true)
    (sorted String.ltb fst available).
Proof.
  intros Hnd.
  assert (Hnd' : NoDup (map fst (sorted String.ltb fst available))).
  { apply (Permutation_NoDup (l := map fst available)); [|exact Hnd].
    apply Permutation_map, Permutation_sym, sorted_perm. }
  pose proof (sorted_sorted String.ltb fst str_ltb_asym str_geb_trans available)
    as Hs.
  induction Hs as [|a l Hl IH Hall]; constructor.
  - apply IH. inversion Hnd'. assumption.
  - inversion Hnd' as [|? ? Ha _]; subst.
    rewrite Forall_forall in *. intros b Hb.
    specialize (Hall b Hb). unfold key_le in Hall.
    destruct (str_ltb_false _ _ Hall) as [Heq|Hlt]; [|exact Hlt].
    exfalso. apply Ha. rewrite <- Heq. apply in_map, Hb.
Qed.

(** X7: without a filter the report goes through the collected names in
    strictly ascending order; a name whose group has more than one member
    gives an empty line, the separator with the name and one line for each
    member in ascending order of the location strings; a name whose group
    has one member gives nothing. *)
Theorem unfiltered_report_by_name
    (getfixturedefs : string -> string -> option (list FixtureDef))
    (location : FixtureDef -> string)
    (registry : dict (list FixtureDef)) (items : list string)
    (available : dict (list fixture)) :
  collect_items getfixturedefs location items (dict_keys registry) []
    = Ok available ->
  let by_name := sorted String.ltb fst available in
  _show_fixture_duplicates_main getfixturedefs location "" registry items
    = Ok (flat_map group_report by_name)
  /\ Permutation by_name available
  /\ StronglySorted (fun a b => String.ltb (fst a) (fst b) = true) by_name
  /\ forall entry, List.length (snd entry) <= 1 -> group_report entry = [].
Proof.
  intros Hcollect by_name.
  assert (Hkeys : NoDup (dict_keys available)).
  { apply (collect_items_keys _ _ _ _ [] _ (NoDup_nil _) Hcollect). }
  split.
  { unfold _show_fixture_duplicates_main, arg2fixturedefs. cbn [String.eqb negb andb].
    rewrite Hcollect. cbn [bind]. f_equal. apply print_all_report.
    - apply (Permutation_NoDup (l := map fst available)); [|exact Hkeys].
      apply Permutation_map, Permutation_sym, sorted_perm.
    - discriminate. }
  split; [apply sorted_perm|].
  split; [apply sorted_names_strict, Hkeys|].
  intros entry Hlen. unfold group_report.
  rewrite (proj2 (Nat.ltb_ge _ _) Hlen). reflexivity.
Qed.

Definition two_names_registry : dict (list FixtureDef) :=
  [("db", [db_in_conftest; db_in_api]); ("cache", [db_in_conftest])].

Lemma unfiltered_report_by_name_witness :
  _show_fixture_duplicates_main (show_all two_names_registry) func_file ""
    two_names_registry ["test_a"]
  = Ok [tw_line ""; tw_sep "-" "db";
        tw_line "/root/api/conftest.py"; tw_line "/root/conftest.py"].
Proof.
  destruct (unfiltered_report_by_name (show_all two_names_registry) func_file
              two_names_registry ["test_a"]
              [("db", [make_fixture func_file db_in_conftest;
                       make_fixture func_file db_in_api]);
               ("cache", [make_fixture func_file db_in_conftest])])
    as [H _].
  - reflexivity.
  - rewrite H. reflexivity.
Defined.

(** X8: a filter on a registered name prints exactly what the report
    without a filter holds for that name: the group collected for the name
    is the same in both runs, and so is its part of the report. *)
Theorem filter_prints_block_of_full_report
    (getfixturedefs : string -> string -> option (list FixtureDef))
    (location : FixtureDef -> string)
    (fixture_name : string) (registry : dict (list FixtureDef))
    (items : list string) (available : dict (list fixture)) :
  NoDup (dict_keys registry) ->
  fixture_name <> "" ->
  dict_mem fixture_name registry = true ->
  collect_items getfixturedefs location items (dict_keys registry) []
    = Ok available ->
  exists filtered,
    collect_items getfixturedefs location items [fixture_name] [] = Ok filtered
    /\ available_get filtered fixture_name
       = available_get available fixture_name
    /\ _show_fixture_duplicates_main getfixturedefs location fixture_name
         registry items
       = Ok (group_report (fixture_name, available_get available fixture_name)).
Proof.
  intros Hnd Hname Hmem Hcollect.
  assert (Hin : In fixture_name (dict_keys registry))
    by (apply dict_mem_keys, Hmem).
  destruct (collect_items_ok getfixturedefs location items [fixture_name] [])
    as [filtered Hfiltered].
  { intros nodeid a Hn [<-|[]].
    apply (collect_items_answered _ _ _ _ _ _ Hcollect nodeid _ Hn Hin). }
  exists filtered. split; [exact Hfiltered|].
  assert (Hone : NoDup [fixture_name])
    by (constructor; [intros [] | constructor]).
  assert (Hgroup : available_get filtered fixture_name
                   = available_get available fixture_name).
  { rewrite (collect_items_group _ _ fixture_name _ _ _ _ Hone Hfiltered).
    rewrite (collect_items_group _ _ fixture_name _ _ _ _ Hnd Hcollect).
    rewrite (proj2 (str_in_In _ _) Hin).
    rewrite (proj2 (str_in_In fixture_name [fixture_name]) (or_introl eq_refl)).
    reflexivity. }
  split; [exact Hgroup|].
  unfold _show_fixture_duplicates_main, arg2fixturedefs.
  rewrite (proj2 (String.eqb_neq _ _) Hname), Hmem. cbn [negb andb].
  rewrite Hfiltered. cbn [bind]. rewrite Hgroup.
  f_equal. apply print_duplicates_report. reflexivity.
Qed.

Lemma filter_prints_block_of_full_report_witness :
  _show_fixture_duplicates_main (show_all two_names_registry) func_file "db"
    two_names_registry ["test_a"]
  = Ok [tw_line ""; tw_sep "-" "db";
        tw_line "/root/api/conftest.py"; tw_line "/root/conftest.py"].
Proof.
  destruct (filter_prints_block_of_full_report (show_all two_names_registry)
              func_file "db" two_names_registry ["test_a"]
              [("db", [make_fixture func_file db_in_conftest;
                       make_fixture func_file db_in_api]);
               ("cache", [make_fixture func_file db_in_conftest])])
    as [filtered [_ [_ H]]].
  - simpl. constructor; [intros [H|[]]; discriminate H|].
    constructor; [intros [] | constructor].
  - discriminate.
  - reflexivity.
  - reflexivity.
  - rewrite H. reflexivity.
Defined.

(** X9: without a filter, the separator of a name is in the report exactly
    when the name is registered and the host shows, over the items of the
    session, two definitions of it whose location strings differ. *)
Theorem name_reported_iff_two_locations
    (getfixturedefs : string -> string -> option (list FixtureDef))
    (location : FixtureDef -> string)
    (registry : dict (list FixtureDef)) (items : list string)
    (report : list tw_call) (argname : string) :
  NoDup (dict_keys registry) ->
  _show_fixture_duplicates_main getfixturedefs location "" registry items
    = Ok report ->
  (In (tw_sep "-" argname) report
   <-> In argname (dict_keys registry)
       /\ exists fd1 fd2,
            In fd1 (visible getfixturedefs argname items)
            /\ In fd2 (visible getfixturedefs argname items)
            /\ location fd1 <> location fd2).
Proof.
  intros Hnd Hmain.
  destruct (collect_items getfixturedefs location items (dict_keys registry) [])
    as [available|e] eqn:Hcollect.
  2:{ unfold _show_fixture_duplicates_main, arg2fixturedefs in Hmain.
      cbn [String.eqb negb andb] in Hmain. rewrite Hcollect in Hmain.
      discriminate Hmain. }
  assert (Hkeys : NoDup (dict_keys available)).
  { apply (collect_items_keys _ _ _ _ [] _ (NoDup_nil _) Hcollect). }
  assert (Hreport : report
                    = flat_map group_report (sorted String.ltb fst available)).
  { unfold _show_fixture_duplicates_main, arg2fixturedefs in Hmain.
    cbn [String.eqb negb andb] in Hmain. rewrite Hcollect in Hmain.
    cbn [bind] in Hmain. injection Hmain as <-. apply print_all_report.
    - apply (Permutation_NoDup (l := map fst available)); [|exact Hkeys].
      apply Permutation_map, Permutation_sym, sorted_perm.
    - discriminate. }
  assert (Hgroup : forall n, In n (dict_keys registry) ->
            available_get available n
            = fold_left add_fixture
                (map (make_fixture location) (visible getfixturedefs n items)) []).
  { intros n Hn.
    rewrite (collect_items_group _ _ n _ _ _ _ Hnd Hcollect).
    rewrite (proj2 (str_in_In _ _) Hn). reflexivity. }
  rewrite Hreport. split.
  - intros Hin. apply in_flat_map in Hin. destruct Hin as [[m grp] [Hm Hsep]].
    unfold group_report in Hsep. cbn [fst snd] in Hsep.
    destruct (Nat.ltb 1 (List.length grp)) eqn:Elen; [|destruct Hsep].
    apply Nat.ltb_lt in Elen.
    destruct Hsep as [Hsep|[Hsep|Hsep]]; [discriminate Hsep | |].
    2:{ apply in_map_iff in Hsep. destruct Hsep as [f [Hf _]]. discriminate Hf. }
    injection Hsep as ->.
    apply (Permutation_in _ (sorted_perm String.ltb fst available)) in Hm.
    pose proof (In_dict_get _ _ _ Hkeys Hm) as Hget.
    assert (Hav : available_get available argname = grp)
      by (unfold available_get; rewrite Hget; reflexivity).
    assert (Hreg : In argname (dict_keys registry)).
    { destruct (in_dec string_dec argname (dict_keys registry)) as [H|H];
        [exact H|]. exfalso.
      rewrite (collect_items_other _ _ argname _ _ _ _ H Hcollect) in Hav.
      subst grp. simpl in Elen. lia. }
    split; [exact Hreg|].
    rewrite (Hgroup _ Hreg) in Hav.
    assert (Hndg : NoDup (map bestrel grp)).
    { rewrite <- Hav. apply fold_add_NoDup. constructor. }
    destruct grp as [|f1 [|f2 t]]; simpl in Elen; try lia.
    assert (Hmem : forall f, In f (f1 :: f2 :: t) ->
              exists fd, In fd (visible getfixturedefs argname items)
                         /\ location fd = bestrel f).
    { intros f Hf. rewrite <- Hav in Hf. apply fold_add_members in Hf.
      destruct Hf as [[]|Hf]. apply in_map_iff in Hf.
      destruct Hf as [fd [<- Hfd]]. exists fd. split; [exact Hfd | reflexivity]. }
    destruct (Hmem f1 (or_introl eq_refl)) as [fd1 [H1 E1]].
    destruct (Hmem f2 (or_intror (or_introl eq_refl))) as [fd2 [H2 E2]].
    exists fd1, fd2. repeat split; try assumption.
    rewrite E1, E2. simpl in Hndg. inversion Hndg as [|? ? Hnot _]; subst.
    intros Heq. apply Hnot. left. symmetry. exact Heq.
  - intros [Hreg [fd1 [fd2 [H1 [H2 Hne]]]]].
    set (grp := available_get available argname).
    assert (Hloc : forall fd, In fd (visible getfixturedefs argname items) ->
              In (location fd) (map bestrel grp)).
    { intros fd Hfd. unfold grp. rewrite (Hgroup _ Hreg).
      apply fold_add_locations. right. rewrite map_map. simpl.
      apply in_map_iff. exists fd. split; [reflexivity | exact Hfd]. }
    assert (Hlen : 1 < List.length grp).
    { rewrite <- (length_map bestrel).
      apply (two_members_length _ (location fd1) (location fd2));
        [apply Hloc, H1 | apply Hloc, H2 | exact Hne]. }
    assert (Hin : In (argname, grp) available).
    { unfold grp, available_get in *.
      destruct (dict_get available argname) as [g|] eqn:Eg;
        [apply dict_get_In, Eg | simpl in Hlen; lia]. }
    apply in_flat_map. exists (argname, grp). split.
    + apply (Permutation_in _ (Permutation_sym (sorted_perm String.ltb fst available))).
      exact Hin.
    + unfold group_report. cbn [fst snd].
      rewrite (proj2 (Nat.ltb_lt _ _) Hlen). right. left. reflexivity.
Qed.

Lemma name_reported_iff_two_locations_witness :
  In (tw_sep "-" "db")
     [tw_line ""; tw_sep "-" "db";
      tw_line "/root/api/conftest.py"; tw_line "/root/conftest.py"].
Proof.
  apply (name_reported_iff_two_locations (show_all two_names_registry)
           func_file two_names_registry ["test_a"] _ "db").
  - simpl. constructor; [intros [H|[]]; discriminate H|].
    constructor; [intros [] | constructor].
  - reflexivity.
  - split; [left; reflexivity|].
    exists db_in_conftest, db_in_api. simpl. repeat split; auto.
    discriminate.
Defined.

(** * Further properties of the graph *)

Lemma subgraph_nodes (c : string) (sub : dict (list depended * string))
    (ns : list Node) (es : list (string * string)) :
  subgraph_nodes_edges c sub = Ok (ns, es) -> ns = map (entry_node c) sub.
Proof.
  revert ns es. induction sub as [|[n [deps col]] rest IH]; intros ns es.
  - intros [= <- <-]. reflexivity.
  - cbn [subgraph_nodes_edges node_name].
    destruct (node_edges _ deps) as [es1|e]; [|discriminate]. cbn [bind].
    destruct (subgraph_nodes_edges c rest) as [[ns2 es2]|e]; [|discriminate].
    cbn [bind]. intros [= <- <-]. rewrite (IH ns2 es2 eq_refl). reflexivity.
Qed.

(** The clusters of an assembled graph, read off [data]. *)
Lemma build_graph_subgraphs (data : graph_data) (g : Dot) :
  build_graph data = Ok g ->
  subgraphs g
  = map (fun cs => mkCluster (fst cs) (fst cs) (map (entry_node (fst cs)) (snd cs)))
        data.
Proof.
  revert g. induction data as [|[c sub] rest IH]; intros g.
  - intros [= <-]. reflexivity.
  - cbn [build_graph].
    destruct (subgraph_nodes_edges c sub) as [[ns es]|e] eqn:E; [|discriminate].
    cbn [bind]. destruct (build_graph rest) as [g'|e]; [|discriminate].
    cbn [bind]. intros [= <-]. cbn [subgraphs map fst snd].
    rewrite (IH g' eq_refl), (subgraph_nodes _ _ _ _ E). reflexivity.
Qed.

Section GraphNodes.
Variable relpath : string -> string -> string.
Variable cwd : string.
Variable name2fixturedefs : dict (list FixtureDef).

(** An entry made by the loop over the registry is green and is not one of
    [request]. *)
Definition entry_ok (e : string * string * (list depended * string)) : Prop :=
  snd (fst e) <> "request" /\ snd (snd e) = "green".

Lemma add_fixture_defs_entry_ok (fixture_name : string)
    (fixture_defs : list FixtureDef) (data : graph_data) :
  fixture_name <> "request" ->
  Forall entry_ok (entries data) ->
  Forall entry_ok
    (entries (add_fixture_defs relpath cwd name2fixturedefs fixture_name
                fixture_defs data)).
Proof.
  intros Hn. unfold add_fixture_defs. revert data.
  induction fixture_defs as [|fd rest IH]; intros data H; simpl; [exact H|].
  apply IH. apply Forall_forall. intros e He. apply entries_data_set in He.
  destruct He as [->|He]; [|rewrite Forall_forall in H; apply H, He].
  split; [exact Hn | reflexivity].
Qed.

Lemma add_registry_entry_ok (items : list (string * list FixtureDef))
    (data : graph_data) :
  Forall entry_ok (entries data) ->
  Forall entry_ok
    (entries (add_registry relpath cwd name2fixturedefs items data)).
Proof.
  unfold add_registry. revert data.
  induction items as [|[n defs] rest IH]; intros data H; simpl; [exact H|].
  apply IH. destruct (String.eqb_spec n "request") as [->|Hn]; [exact H|].
  apply add_fixture_defs_entry_ok; assumption.
Qed.

(** The nodes of the graph of a registry are the nodes of its definitions,
    those of [request] left out. *)
Lemma registry_graph_nodes :
  exists g,
    fixture_graph relpath cwd name2fixturedefs None = Ok g
    /\ forall x, In x (node_names g) <->
         exists n defs fd,
           In (n, defs) name2fixturedefs /\ In fd defs /\ n <> "request"
           /\ x = node_of relpath cwd n fd.
Proof.
  set (data := build_data relpath cwd name2fixturedefs None).
  assert (Hfrom : Forall (from_registry relpath cwd name2fixturedefs)
                    (entries data)).
  { apply add_registry_entries; [apply incl_refl | constructor]. }
  assert (Hok : Forall entry_ok (entries data)).
  { apply add_registry_entry_ok. constructor. }
  rewrite Forall_forall in Hfrom, Hok.
  destruct (build_graph_pairs data) as [g [Hg [Hnodes _]]].
  { intros e He. destruct (Hfrom e He) as [defs [fd [_ [_ [_ Hdeps]]]]].
    rewrite Hdeps. apply depended_of_pairs. }
  exists g. split; [exact Hg|]. intros x. rewrite Hnodes. split.
  - intros Hx. apply in_map_iff in Hx. destruct Hx as [[[c n] v] [<- He]].
    destruct (Hfrom _ He) as [defs [fd [Hreg [Hfd [Hc _]]]]].
    destruct (Hok _ He) as [Hn _]. cbn [fst snd] in *.
    exists n, defs, fd. subst c. repeat split; assumption.
  - intros [n [defs [fd [Hreg [Hfd [Hn ->]]]]]].
    pose proof (add_registry_adds relpath cwd name2fixturedefs name2fixturedefs
                  [] n defs fd Hreg Hfd Hn) as Hkey.
    fold (build_data relpath cwd name2fixturedefs None) in Hkey. fold data in Hkey.
    destruct (data_get data (_get_cluster_name relpath cwd (func_file fd)) n)
      as [v|] eqn:Ev; [|congruence].
    apply data_get_entries in Ev. apply in_map_iff.
    eexists. split; [|exact Ev]. reflexivity.
Qed.

End GraphNodes.

(** X10: the graph of a registry has a node for a name exactly when the
    name is not [request] and the node is that of one of its definitions;
    every cluster is labelled by its own name, and every node is filled
    green, is labelled by the fixture name alone and is named by the
    cluster, a slash and the label. *)
Theorem registry_graph_nodes_and_labels
    (relpath : string -> string -> string) (cwd : string)
    (name2fixturedefs : dict (list FixtureDef)) :
  exists g,
    fixture_graph relpath cwd name2fixturedefs None = Ok g
    /\ (forall x, In x (node_names g) <->
          exists n defs fd,
            In (n, defs) name2fixturedefs /\ In fd defs /\ n <> "request"
            /\ x = node_of relpath cwd n fd)
    /\ forall c, In c (subgraphs g) ->
         cluster_label c = graph_name c
         /\ forall nd, In nd (cluster_nodes c) ->
              fillcolor nd = "green"
              /\ node_label nd <> "request"
              /\ node_name nd = (graph_name c ++ "/" ++ node_label nd)%string.
Proof.
  destruct (registry_graph_nodes relpath cwd name2fixturedefs) as [g [Hg Hn]].
  exists g. split; [exact Hg|]. split; [exact Hn|].
  intros c Hc. unfold fixture_graph in Hg.
  rewrite (build_graph_subgraphs _ _ Hg) in Hc. apply in_map_iff in Hc.
  destruct Hc as [[cn sub] [<- Hsub]]. cbn [cluster_label graph_name cluster_nodes fst snd].
  split; [reflexivity|]. intros nd Hnd. apply in_map_iff in Hnd.
  destruct Hnd as [[n [deps col]] [<- Hin]].
  assert (He : In (cn, n, (deps, col))
                 (entries (build_data relpath cwd name2fixturedefs None))).
  { unfold entries. apply in_flat_map. exists (cn, sub). split; [exact Hsub|].
    apply in_map_iff. exists (n, (deps, col)). split; [reflexivity | exact Hin]. }
  assert (Hok : Forall (entry_ok)
                  (entries (build_data relpath cwd name2fixturedefs None))).
  { apply add_registry_entry_ok. constructor. }
  rewrite Forall_forall in Hok. destruct (Hok _ He) as [Hreq Hcol].
  cbn [fst snd] in Hreq, Hcol. unfold entry_node. cbn [fst snd fillcolor node_label node_name].
  repeat split; assumption.
Qed.

Lemma registry_graph_nodes_and_labels_witness :
  exists g,
    fixture_graph (fun p _ => p) "/work/" request_registry None = Ok g
    /\ In "/root/conftest.py/a" (node_names g).
Proof.
  destruct (registry_graph_nodes_and_labels (fun p _ => p) "/work/"
              request_registry) as [g [Hg [Hn _]]].
  exists g. split; [exact Hg|]. apply Hn.
  exists "a", [a_def], a_def. repeat split.
  - right. left. reflexivity.
  - left. reflexivity.
  - discriminate.
Defined.

Section GraphEdges.
Variable relpath : string -> string -> string.
Variable cwd : string.
Variable name2fixturedefs : dict (list FixtureDef).

(** A key of [data] that the definitions of a name do not write keeps its
    value. *)
Lemma add_fixture_defs_get_unchanged (fixture_name : string)
    (fixture_defs : list FixtureDef) (data : graph_data) (c m : string) :
  (m = fixture_name ->
   forall x, In x fixture_defs ->
             _get_cluster_name relpath cwd (func_file x) <> c) ->
  data_get (add_fixture_defs relpath cwd name2fixturedefs fixture_name
              fixture_defs data) c m
  = data_get data c m.
Proof.
  unfold add_fixture_defs. revert data.
  induction fixture_defs as [|fd rest IH]; intros data H; simpl; [reflexivity|].
  rewrite IH by (intros Hm x Hx; apply (H Hm); right; exact Hx).
  rewrite data_get_set.
  destruct (String.eqb_spec fixture_name m) as [<-|Hnm];
    [|rewrite andb_false_r; reflexivity].
  rewrite (proj2 (String.eqb_neq _ _) (H eq_refl fd (or_introl eq_refl))).
  reflexivity.
Qed.

(** The value of a key is the one written by the last definition of the
    name that is declared in the cluster. *)
Lemma add_fixture_defs_get_last (fixture_name : string)
    (l1 l2 : list FixtureDef) (fd : FixtureDef) (data : graph_data) :
  (forall x, In x l2 ->
     _get_cluster_name relpath cwd (func_file x)
     <> _get_cluster_name relpath cwd (func_file fd)) ->
  data_get (add_fixture_defs relpath cwd name2fixturedefs fixture_name
              (l1 ++ fd :: l2) data)
    (_get_cluster_name relpath cwd (func_file fd)) fixture_name
  = Some (depended_of relpath cwd name2fixturedefs fixture_name fd, "green").
Proof.
  intros H. unfold add_fixture_defs. rewrite fold_left_app. cbn [fold_left].
  match goal with
  | |- data_get (fold_left ?f l2 ?d) _ _ = _ =>
      change (fold_left f l2 d)
        with (add_fixture_defs relpath cwd name2fixturedefs fixture_name l2 d)
  end.
  rewrite add_fixture_defs_get_unchanged by (intros _; exact H).
  rewrite data_get_set, !String.eqb_refl. reflexivity.
Qed.

Lemma add_registry_get_unchanged (items : list (string * list FixtureDef))
    (data : graph_data) (c m : string) :
  ~ In m (dict_keys items) ->
  data_get (add_registry relpath cwd name2fixturedefs items data) c m
  = data_get data c m.
Proof.
  unfold add_registry. revert data.
  induction items as [|[n defs] rest IH]; intros data H; simpl; [reflexivity|].
  rewrite IH by (intros Hin; apply H; right; exact Hin).
  destruct (String.eqb n "request"); [reflexivity|].
  apply add_fixture_defs_get_unchanged. intros ->. exfalso. apply H. left. reflexivity.
Qed.

Lemma add_registry_get_last (items : list (string * list FixtureDef))
    (data : graph_data) (n : string) (l1 l2 : list FixtureDef) (fd : FixtureDef) :
  NoDup (dict_keys items) ->
  In (n, l1 ++ fd :: l2) items ->
  n <> "request" ->
  (forall x, In x l2 ->
     _get_cluster_name relpath cwd (func_file x)
     <> _get_cluster_name relpath cwd (func_file fd)) ->
  data_get (add_registry relpath cwd name2fixturedefs items data)
    (_get_cluster_name relpath cwd (func_file fd)) n
  = Some (depended_of relpath cwd name2fixturedefs n fd, "green").
Proof.
  intros Hnd Hin Hn Hlast. apply in_split in Hin.
  destruct Hin as [i1 [i2 ->]].
  assert (Hi2 : ~ In n (dict_keys i2)).
  { unfold dict_keys in *. rewrite map_app in Hnd. cbn [map fst] in Hnd.
    apply NoDup_remove_2 in Hnd. intros H. apply Hnd, in_or_app. right. exact H. }
  unfold add_registry. rewrite fold_left_app. cbn [fold_left].
  rewrite (proj2 (String.eqb_neq _ _) Hn).
  match goal with
  | |- data_get (fold_left ?f i2 ?d) _ _ = _ =>
      change (fold_left f i2 d)
        with (add_registry relpath cwd name2fixturedefs i2 d)
  end.
  rewrite (add_registry_get_unchanged i2 _ _ n Hi2).
  apply add_fixture_defs_get_last. exact Hlast.
Qed.

End GraphEdges.

(** X11: in the graph of a registry with distinct names, take the
    definition of a name (not [request]) that is the last of that name
    declared in its file: each of its dependency names that is not empty
    and resolves to a definition gives the edge from its node to the node
    of that definition. A definition that asks for its own name and has no
    other candidate thereby gets an edge to itself. *)
Theorem registry_graph_has_resolved_edges
    (relpath : string -> string -> string) (cwd : string)
    (name2fixturedefs : dict (list FixtureDef))
    (fixture_name argname : string) (l1 l2 : list FixtureDef)
    (fd rd : FixtureDef) :
  NoDup (dict_keys name2fixturedefs) ->
  In (fixture_name, l1 ++ fd :: l2) name2fixturedefs ->
  fixture_name <> "request" ->
  (forall x, In x l2 ->
     _get_cluster_name relpath cwd (func_file x)
     <> _get_cluster_name relpath cwd (func_file fd)) ->
  In argname (argnames fd) ->
  argname <> "" ->
  _find_fixture_def fixture_name (func_file fd) argname name2fixturedefs
    = Some rd ->
  exists g,
    fixture_graph relpath cwd name2fixturedefs None = Ok g
    /\ In (node_of relpath cwd fixture_name fd, node_of relpath cwd argname rd)
          (edges g).
Proof.
  intros Hnd Hin Hn Hlast Harg Hne Hfind.
  set (data := build_data relpath cwd name2fixturedefs None).
  assert (Hfrom : Forall (from_registry relpath cwd name2fixturedefs)
                    (entries data)).
  { apply add_registry_entries; [apply incl_refl | constructor]. }
  rewrite Forall_forall in Hfrom.
  destruct (build_graph_pairs data) as [g [Hg [_ Hedges]]].
  { intros e He. destruct (Hfrom e He) as [defs [fd' [_ [_ [_ Hdeps]]]]].
    rewrite Hdeps. apply depended_of_pairs. }
  exists g. split; [exact Hg|]. rewrite Hedges.
  pose proof (add_registry_get_last relpath cwd name2fixturedefs
                name2fixturedefs [] fixture_name l1 l2 fd Hnd Hin Hn Hlast)
    as Hget.
  apply data_get_entries in Hget.
  apply in_flat_map. eexists. split; [exact Hget|]. cbn [fst snd].
  unfold pair_edges. apply in_flat_map.
  exists (dep_pair (_get_cluster_name relpath cwd (func_file rd)) argname).
  split.
  - unfold depended_of. apply in_map_iff. exists argname.
    rewrite Hfind. split; [reflexivity | exact Harg].
  - rewrite (proj2 (String.eqb_neq _ _) Hne). left. reflexivity.
Qed.

(** A definition of [db] that asks for [db] and has no other candidate. *)
Definition db_on_itself : FixtureDef :=
  mkFixtureDef "" "conftest" "/root/conftest.py" ["db"].

Lemma registry_graph_has_resolved_edges_witness :
  exists g,
    fixture_graph (fun p _ => p) "/work/" [("db", [db_on_itself])] None = Ok g
    /\ In ("/root/conftest.py/db", "/root/conftest.py/db") (edges g).
Proof.
  apply (registry_graph_has_resolved_edges (fun p _ => p) "/work/"
           [("db", [db_on_itself])] "db" "db" [] [] db_on_itself db_on_itself).
  - simpl. constructor; [intros [] | constructor].
  - left. reflexivity.
  - discriminate.
  - intros x [].
  - left. reflexivity.
  - discriminate.
  - reflexivity.
Defined.

(** * The hooks *)

Lemma has_dot_app_dot (a b : string) : has_dot (a ++ String "." b) = true.
Proof.
  induction a as [|c r IH]; simpl; [reflexivity|].
  rewrite IH. apply orb_true_r.
Qed.

Lemma last_component_app (pkg b : string) :
  has_dot b = false -> last_component (pkg ++ String "." b) = b.
Proof.
  intros Hb. induction pkg as [|c r IH].
  - simpl. rewrite Hb. reflexivity.
  - change (String c r ++ String "." b)%string
      with (String c (r ++ String "." b)).
    cbn [last_component]. rewrite has_dot_app_dot. exact IH.
Qed.

Lemma last_component_no_dot (b : string) :
  has_dot b = false -> last_component b = b.
Proof.
  destruct b as [|c r]; [reflexivity|]. simpl.
  destruct (Ascii.eqb c "."); simpl; [discriminate|].
  intros ->. reflexivity.
Qed.

Lemma exclude_test_modules_keys (arg2fixturedefs : dict (list FixtureDef)) :
  dict_keys (exclude_test_modules arg2fixturedefs) = dict_keys arg2fixturedefs.
Proof.
  unfold dict_keys, exclude_test_modules. rewrite map_map. reflexivity.
Qed.

Lemma exclude_test_modules_In (arg2fixturedefs : dict (list FixtureDef))
    (n : string) (kept : list FixtureDef) :
  In (n, kept) (exclude_test_modules arg2fixturedefs) <->
  exists defs,
    In (n, defs) arg2fixturedefs
    /\ kept = filter (fun fd => negb (in_test_module fd)) defs.
Proof.
  unfold exclude_test_modules. rewrite in_map_iff. split.
  - intros [[m defs] [[= <- <-] Hin]]. exists defs. split; [exact Hin | reflexivity].
  - intros [defs [Hin ->]]. exists (n, defs). split; [reflexivity | exact Hin].
Qed.

(** X12: [pytest_collection_modifyitems] does nothing unless the option is
    set; with the option it writes, under the name [fixture-graph], the
    graph of the registry from which the definitions of test modules are
    taken out. Only what follows the last dot of the module's name counts
    for that. Every name of the registry is kept, the graph is always
    assembled, and its nodes are the nodes of the definitions that are not
    of a test module, those of [request] left out. *)
Theorem collection_graph_excludes_test_modules
    (w : World) (relpath : string -> string -> string)
    (cwd log_dir output_type : string)
    (arg2fixturedefs : dict (list FixtureDef)) :
  pytest_collection_modifyitems w relpath cwd false log_dir output_type
    arg2fixturedefs = ([], Ok tt)
  /\ dict_keys (exclude_test_modules arg2fixturedefs)
     = dict_keys arg2fixturedefs
  /\ (forall pkg name fd,
        has_dot name = false ->
        (func_module fd = (pkg ++ String "." name)%string
         \/ func_module fd = name) ->
        in_test_module fd = startswith name "test_")
  /\ exists g,
       fixture_graph relpath cwd (exclude_test_modules arg2fixturedefs) None
         = Ok g
       /\ pytest_collection_modifyitems w relpath cwd true log_dir output_type
            arg2fixturedefs
          = write_graph w log_dir output_type "fixture-graph"
       /\ forall x, In x (node_names g) <->
            exists n defs fd,
              In (n, defs) arg2fixturedefs /\ In fd defs
              /\ n <> "request" /\ in_test_module fd = false
              /\ x = node_of relpath cwd n fd.
Proof.
  split; [reflexivity|]. split; [apply exclude_test_modules_keys|].
  split.
  { intros pkg name fd Hname [H|H]; unfold in_test_module; rewrite H.
    - rewrite (last_component_app pkg name Hname). reflexivity.
    - rewrite (last_component_no_dot name Hname). reflexivity. }
  destruct (registry_graph_nodes relpath cwd
              (exclude_test_modules arg2fixturedefs)) as [g [Hg Hn]].
  exists g. split; [exact Hg|]. split.
  { unfold pytest_collection_modifyitems, save_fixture_graph.
    rewrite Hg. reflexivity. }
  intros x. rewrite Hn. split.
  - intros [n [kept [fd [Hin [Hfd [Hreq ->]]]]]].
    apply exclude_test_modules_In in Hin. destruct Hin as [defs [Hin ->]].
    apply filter_In in Hfd. destruct Hfd as [Hfd Htest].
    apply negb_true_iff in Htest.
    exists n, defs, fd. repeat split; assumption.
  - intros [n [defs [fd [Hin [Hfd [Hreq [Htest ->]]]]]]].
    exists n, (filter (fun fd => negb (in_test_module fd)) defs), fd.
    repeat split; try assumption.
    + apply exclude_test_modules_In. exists defs. split; [exact Hin | reflexivity].
    + apply filter_In. split; [exact Hfd|]. rewrite Htest. reflexivity.
Qed.

Definition db_in_test_module : FixtureDef :=
  mkFixtureDef "tests/test_db.py" "tests.test_db" "/root/tests/test_db.py" [].
Definition db_in_test_package : FixtureDef :=
  mkFixtureDef "test_pkg" "test_pkg.conftest" "/root/test_pkg/conftest.py" [].

Lemma collection_graph_excludes_test_modules_witness :
  in_test_module db_in_test_module = true
  /\ in_test_module db_in_test_package = false.
Proof.
  destruct (collection_graph_excludes_test_modules no_renderer (fun p _ => p)
              "/work/" "artifacts" "png" [])
    as [_ [_ [H _]]].
  split.
  - rewrite (H "tests" "test_db" db_in_test_module); [reflexivity | reflexivity|].
    left. reflexivity.
  - rewrite (H "test_pkg" "conftest" db_in_test_package);
      [reflexivity | reflexivity|].
    left. reflexivity.
Defined.

(** [c in s] for a character. *)
Fixpoint occurs (c : ascii) (s : string) : bool :=
  match s with
  | EmptyString => false
  | String a r => Ascii.eqb a c || occurs c r
  end.

Lemma has_sep_occurs (s : string) : has_sep s = occurs "/" s.
Proof. induction s as [|a r IH]; simpl; [reflexivity|]. rewrite IH. reflexivity. Qed.

Lemma replace_char_removes (old new : ascii) (s : string) :
  old <> new -> occurs old (replace_char old new s) = false.
Proof.
  intros Hne. induction s as [|a r IH]; simpl; [reflexivity|]. rewrite IH.
  destruct (Ascii.eqb_spec a old) as [->|Ha].
  - rewrite (proj2 (Ascii.eqb_neq _ _) (not_eq_sym Hne)). reflexivity.
  - rewrite (proj2 (Ascii.eqb_neq _ _) Ha). reflexivity.
Qed.

Lemma replace_char_keeps_absent (old new c : ascii) (s : string) :
  c <> new -> occurs c s = false -> occurs c (replace_char old new s) = false.
Proof.
  intros Hne. induction s as [|a r IH]; simpl; [reflexivity|].
  intros H. apply orb_false_iff in H. destruct H as [Ha Hr].
  rewrite (IH Hr), orb_false_r.
  destruct (Ascii.eqb a old); [apply Ascii.eqb_neq, not_eq_sym, Hne | exact Ha].
Qed.

Lemma replace_char_length (old new : ascii) (s : string) :
  String.length (replace_char old new s) = String.length s.
Proof. induction s as [|a r IH]; simpl; [reflexivity|]. rewrite IH. reflexivity. Qed.

Lemma has_sep_starts_sep (b : string) : has_sep b = false -> starts_sep b = false.
Proof.
  destruct b as [|c r]; simpl; [reflexivity|].
  intros H. apply orb_false_iff in H. tauto.
Qed.

(** The parent of a file put into a directory is that directory. *)
Lemma dirname_join_nosep (d b : string) :
  dir_normal d -> has_sep b = false -> dirname (join d b) = d.
Proof.
  intros Hn Hb. unfold join. rewrite (has_sep_starts_sep b Hb).
  destruct (String.eqb_spec d "") as [->|Hne].
  - cbn [orb String.append]. unfold dirname. rewrite (head_no_sep b Hb). reflexivity.
  - cbn [orb]. destruct (ends_sep d) eqn:Hend.
    + destruct Hn as [Hall|Hf]; [|congruence].
      unfold dirname. rewrite (head_app_ends d b Hend Hb).
      rewrite Hall, andb_false_r. reflexivity.
    + cbn [String.append]. unfold dirname. rewrite (head_app_sep d b Hb).
      assert (Hd : all_sep (d ++ "/")%string = false).
      { destruct (all_sep (d ++ "/")%string) eqn:E; [|reflexivity].
        apply all_sep_app_l in E. apply (all_sep_ends d Hne) in E. congruence. }
      rewrite Hd.
      assert (Hnz : ((d ++ "/")%string =? "") = false).
      { apply String.eqb_neq. destruct d; discriminate. }
      rewrite Hnz. cbn [negb andb]. apply rstrip_app_sep. exact Hend.
Qed.

(** X13: the file name made from the identifier of an item has neither a
    slash nor a colon and is as long as the identifier and the prefix
    [fixture-graph-], so the file lies in the output directory itself; the
    name does not tell two identifiers apart that differ only in slashes
    against dashes. *)
Theorem item_filename_is_flat (nodeid log_dir : string) :
  has_sep (item_filename nodeid) = false
  /\ occurs ":" (item_filename nodeid) = false
  /\ String.length (item_filename nodeid) = 14 + String.length nodeid
  /\ (dir_normal log_dir ->
      dirname (join log_dir (item_filename nodeid)) = log_dir)
  /\ item_filename "a/b-c.py::t" = item_filename "a-b/c.py::t".
Proof.
  assert (Hsep : has_sep (item_filename nodeid) = false).
  { unfold item_filename. cbn [String.append has_sep is_sep Ascii.eqb Bool.eqb orb].
    rewrite has_sep_occurs. apply replace_char_removes. discriminate. }
  split; [exact Hsep|]. split.
  { unfold item_filename. cbn [String.append occurs Ascii.eqb Bool.eqb orb].
    apply replace_char_keeps_absent; [discriminate|].
    apply replace_char_removes. discriminate. }
  split.
  { unfold item_filename. cbn [String.append String.length].
    rewrite !replace_char_length. reflexivity. }
  split; [|reflexivity].
  intros Hn. apply dirname_join_nosep; assumption.
Qed.

Lemma item_filename_is_flat_witness :
  dirname (join "artifacts" (item_filename "tests/test_a.py::test_one"))
  = "artifacts".
Proof.
  destruct (item_filename_is_flat "tests/test_a.py::test_one" "artifacts")
    as [_ [_ [_ [H _]]]].
  apply H. right. reflexivity.
Defined.

Lemma unpack_pair_raise (d : depended) (e : exn) :
  unpack_pair d = Raise e -> e = ValueError.
Proof.
  destruct d as [c n|a]; [discriminate|]. unfold unpack_pair.
  destruct (code_points a) as [|x [|y [|z r]]]; intros H;
    try (injection H as <-; reflexivity); discriminate H.
Qed.

(** One name that is not a pair makes the loop over the edges fail. *)
Lemma node_edges_bad_name (node : string) (l : list depended) (a : string) :
  In (dep_name a) l -> str_len a <> 2 ->
  node_edges node l = Raise ValueError.
Proof.
  intros Hin Ha. induction l as [|d rest IH]; [destruct Hin|].
  cbn [node_edges]. destruct (unpack_pair d) as [[c n]|e] eqn:E.
  - cbn [bind]. destruct Hin as [->|Hin].
    + rewrite (unpack_name_raises a Ha) in E. discriminate E.
    + rewrite (IH Hin). reflexivity.
  - cbn [bind]. rewrite (unpack_pair_raise d e E). reflexivity.
Qed.

Lemma build_graph_root_bad_name (a : string) (l : list depended)
    (data : graph_data) :
  In (dep_name a) l -> str_len a <> 2 ->
  root_first l data -> build_graph data = Raise ValueError.
Proof.
  intros Hin Ha [sub [rest ->]].
  cbn [build_graph subgraph_nodes_edges node_name].
  rewrite (node_edges_bad_name _ l a Hin Ha). reflexivity.
Qed.

(** X14: [pytest_runtest_setup] does nothing when the option is not set or
    the item has no fixture information. With the option, as soon as one of
    the names the item asks for does not have exactly two characters
    ([str_len], the number of code points) and no fixture is called
    [func_args], it raises [ValueError] before it prints or writes
    anything. *)
Theorem runtest_setup_raises_on_requested_names
    (w : World) (relpath : string -> string -> string)
    (cwd log_dir output_type nodeid : string)
    (name2fixturedefs : dict (list FixtureDef)) (argnames : list string) :
  pytest_runtest_setup w relpath cwd false log_dir output_type
    (Some (name2fixturedefs, argnames)) nodeid = ([], Ok tt)
  /\ pytest_runtest_setup w relpath cwd true log_dir output_type None nodeid
     = ([], Ok tt)
  /\ ((exists a, In a argnames /\ str_len a <> 2) ->
      ~ In "func_args" (dict_keys name2fixturedefs) ->
      pytest_runtest_setup w relpath cwd true log_dir output_type
        (Some (name2fixturedefs, argnames)) nodeid = ([], Raise ValueError)).
Proof.
  split; [reflexivity|]. split; [reflexivity|].
  intros [a [Hin Ha]] Hkey.
  unfold pytest_runtest_setup, save_fixture_graph.
  assert (Hraise : fixture_graph relpath cwd name2fixturedefs (Some argnames)
                   = Raise ValueError).
  { unfold fixture_graph, build_data.
    destruct argnames as [|a0 rest]; [destruct Hin|].
    apply (build_graph_root_bad_name a (map dep_name (a0 :: rest)));
      [apply in_map, Hin | exact Ha|].
    apply add_registry_root_first; [exact Hkey|].
    exists [], []. reflexivity. }
  rewrite Hraise. reflexivity.
Qed.

Lemma runtest_setup_raises_on_requested_names_witness :
  pytest_runtest_setup no_renderer (fun p _ => p) "/work/" true "artifacts"
    "png" (Some (scenario_registry, ["db"; "client"])) "tests/test_a.py::test_one"
  = ([], Raise ValueError).
Proof.
  destruct (runtest_setup_raises_on_requested_names no_renderer (fun p _ => p)
              "/work/" "artifacts" "png" "tests/test_a.py::test_one"
              scenario_registry ["db"; "client"]) as [_ [_ H]].
  apply H.
  - exists "client". split; [right; left; reflexivity | vm_compute; lia].
  - simpl. intros [H1|[H1|[]]]; discriminate H1.
Defined.

(** * Failures while writing the graph *)

Lemma classic_mkdir (w : World) (path : string) :
  mkdir_ok w path \/ ~ mkdir_ok w path.
Proof.
  unfold mkdir_ok. destruct (makedirs w path) as [|[|]].
  - left. left. reflexivity.
  - destruct (isdir w path).
    + left. right. split; reflexivity.
    + right. intros [H|[_ H]]; discriminate H.
  - right. intros [H|[H _]]; discriminate H.
Qed.

Lemma mkdir_recursive_not_ok (w : World) (path : string) :
  ~ mkdir_ok w path ->
  mkdir_recursive w path = ([ev_makedirs path], Raise OSError).
Proof.
  unfold mkdir_ok, mkdir_recursive. intros H.
  destruct (makedirs w path) as [|[|]].
  - exfalso. apply H. left. reflexivity.
  - destruct (isdir w path); [|reflexivity].
    exfalso. apply H. right. split; reflexivity.
  - reflexivity.
Qed.

Lemma write_graph_not_ok (w : World) (log_dir output_type filename : string) :
  ~ mkdir_ok w log_dir ->
  write_graph w log_dir output_type filename
  = ([ev_makedirs log_dir], Raise OSError).
Proof.
  intros H. unfold write_graph.
  rewrite (mkdir_recursive_not_ok w log_dir H). reflexivity.
Qed.

(** Once the directory is there, the three lines of the report and the
    call that writes the textual file follow, whatever comes next. *)
Lemma write_graph_started (w : World) (log_dir output_type filename : string) :
  mkdir_ok w log_dir ->
  exists more r,
    write_graph w log_dir output_type filename
    = ([ev_makedirs log_dir; ev_tw (tw_line "");
        ev_tw (tw_sep "-" "fixture-graph");
        ev_tw (tw_line ("created " ++ join log_dir filename ++ ".dot."));
        ev_write (join log_dir filename ++ ".dot") None] ++ more, r)%list.
Proof.
  intros Hm.
  pose proof (write_graph_cases w log_dir output_type filename) as Hcases.
  cbv zeta in Hcases.
  destruct Hcases as [[Hn _]|[[e [_ H]]|[[_ [_ [_ H]]]|[[e [_ [_ [_ [_ H]]]]]|[e [_ [_ H]]]]]]];
    [contradiction|..]; rewrite H.
  - exists [], (Raise e). rewrite app_nil_r. reflexivity.
  - eexists. eexists. reflexivity.
  - eexists. eexists. reflexivity.
  - eexists. eexists. reflexivity.
Qed.

(** X15: when the output directory cannot be made (an [OSError] that is not
    "it exists and is a directory"), [save_fixture_graph] raises [OSError]
    after the one call of [os.makedirs]: nothing is printed and no file is
    written. When the directory is there already, the run goes on as if it
    had been made. *)
Theorem save_fixture_graph_mkdir_failure
    (w : World) (relpath : string -> string -> string)
    (cwd log_dir output_type : string)
    (name2fixturedefs : dict (list FixtureDef)) (filename : string)
    (func_args : option (list string)) (g : Dot) :
  fixture_graph relpath cwd name2fixturedefs func_args = Ok g ->
  (~ mkdir_ok w log_dir ->
   save_fixture_graph w relpath cwd log_dir output_type name2fixturedefs
     filename func_args = ([ev_makedirs log_dir], Raise OSError))
  /\ (mkdir_ok w log_dir <->
      In (ev_tw (tw_sep "-" "fixture-graph"))
         (fst (save_fixture_graph w relpath cwd log_dir output_type
                 name2fixturedefs filename func_args))).
Proof.
  intros Hg. unfold save_fixture_graph. rewrite Hg.
  split; [apply write_graph_not_ok|].
  destruct (classic_mkdir w log_dir) as [Hm|Hm].
  - destruct (write_graph_started w log_dir output_type filename Hm)
      as [more [r H]].
    rewrite H. cbn [fst]. split; [|intros _; exact Hm].
    intros _. right. right. left. reflexivity.
  - rewrite (write_graph_not_ok w log_dir output_type filename Hm). cbn [fst].
    split; [contradiction|]. intros [Hin|[]]. discriminate Hin.
Qed.

(** A world in which a file stands where the directory should be. *)
Definition no_directory : World :=
  mkWorld (fun _ => md_oserror true) (fun _ => false) (fun _ => None)
          (fun _ _ => None).

Lemma save_fixture_graph_mkdir_failure_witness :
  save_fixture_graph no_directory (fun p _ => p) "/work/" "artifacts" "png"
    scenario_registry "fixture-graph" None
  = ([ev_makedirs "artifacts"], Raise OSError).
Proof.
  destruct (fixture_graph (fun p _ => p) "/work/" scenario_registry None)
    as [g|e] eqn:Eg; [|discriminate Eg].
  destruct (save_fixture_graph_mkdir_failure no_directory (fun p _ => p)
              "/work/" "artifacts" "png" scenario_registry "fixture-graph"
              None g Eg) as [H _].
  apply H. intros [Hm|[_ Hm]]; discriminate Hm.
Defined.

(** X16: when writing the textual file fails, the exception leaves
    [save_fixture_graph]: the renderer is not called and no hint is given,
    but the line "created ... .dot." has been printed already, for it comes
    before the write. *)
Theorem save_fixture_graph_dot_write_failure
    (w : World) (relpath : string -> string -> string)
    (cwd log_dir output_type : string)
    (name2fixturedefs : dict (list FixtureDef)) (filename : string)
    (func_args : option (list string)) (g : Dot) (e : exn) :
  fixture_graph relpath cwd name2fixturedefs func_args = Ok g ->
  mkdir_ok w log_dir ->
  write_raw w (join log_dir filename ++ ".dot") = Some e ->
  save_fixture_graph w relpath cwd log_dir output_type name2fixturedefs
    filename func_args
  = ([ev_makedirs log_dir; ev_tw (tw_line "");
      ev_tw (tw_sep "-" "fixture-graph");
      ev_tw (tw_line ("created " ++ join log_dir filename ++ ".dot."));
      ev_write (join log_dir filename ++ ".dot") None],
     Raise e).
Proof.
  intros Hg Hm Hraw. unfold save_fixture_graph. rewrite Hg.
  unfold write_graph. rewrite (mkdir_recursive_ok w log_dir Hm).
  unfold graph_write, line, sep, io_emit, io_bind, io_ret, io_raise,
    try_except_Exception.
  rewrite Hraw. reflexivity.
Qed.

(** A world with a full disk: the directory can be made, no file written. *)
Definition disk_full : World :=
  mkWorld (fun _ => md_created) (fun _ => true) (fun _ => Some OSError)
          (fun _ _ => None).

Lemma save_fixture_graph_dot_write_failure_witness :
  save_fixture_graph disk_full (fun p _ => p) "/work/" "artifacts" "png"
    scenario_registry "fixture-graph" None
  = ([ev_makedirs "artifacts"; ev_tw (tw_line "");
      ev_tw (tw_sep "-" "fixture-graph");
      ev_tw (tw_line "created artifacts/fixture-graph.dot.");
      ev_write "artifacts/fixture-graph.dot" None],
     Raise OSError).
Proof.
  destruct (fixture_graph (fun p _ => p) "/work/" scenario_registry None)
    as [g|e] eqn:Eg; [|discriminate Eg].
  apply (save_fixture_graph_dot_write_failure disk_full (fun p _ => p) "/work/"
           "artifacts" "png" scenario_registry "fixture-graph" None g OSError Eg).
  - left. reflexivity.
  - reflexivity.
Defined.

(** X17: once the textual file is written, the renderer is called once.
    If it returns, the line "created ..." for its file ends the run; an
    exception that is not an [Exception] leaves [save_fixture_graph]
    without a hint. The hint is printed exactly when the renderer raised an
    [Exception], and the run returns normally exactly when the renderer
    raised nothing else. *)
Theorem save_fixture_graph_render_outcomes
    (w : World) (relpath : string -> string -> string)
    (cwd log_dir output_type : string)
    (name2fixturedefs : dict (list FixtureDef)) (filename : string)
    (func_args : option (list string)) (g : Dot) :
  fixture_graph relpath cwd name2fixturedefs func_args = Ok g ->
  mkdir_ok w log_dir ->
  write_raw w (join log_dir filename ++ ".dot") = None ->
  let path := join log_dir filename in
  let out := (path ++ "." ++ output_type)%string in
  let start :=
    [ev_makedirs log_dir; ev_tw (tw_line ""); ev_tw (tw_sep "-" "fixture-graph");
     ev_tw (tw_line ("created " ++ path ++ ".dot."));
     ev_write (path ++ ".dot") None; ev_write out (Some output_type)] in
  let run :=
    save_fixture_graph w relpath cwd log_dir output_type name2fixturedefs
      filename func_args in
  (render w out output_type = None ->
   run = ((start ++ [ev_tw (tw_line ("created " ++ path ++ "." ++ output_type
                                     ++ "."))])%list, Ok tt))
  /\ (forall e, render w out output_type = Some e -> is_Exception e = false ->
                run = (start, Raise e))
  /\ (In (ev_tw (tw_line "graphvis wasn't found in PATH")) (fst run)
      <-> exists e, render w out output_type = Some e /\ is_Exception e = true)
  /\ (snd run = Ok tt
      <-> forall e, render w out output_type = Some e -> is_Exception e = true).
Proof.
  intros Hg Hm Hraw path out start run.
  assert (Hrun : run
            = match render w out output_type with
              | None =>
                  ((start ++ [ev_tw (tw_line ("created " ++ path ++ "."
                                              ++ output_type ++ "."))])%list,
                   Ok tt)
              | Some e =>
                  if is_Exception e
                  then ((start ++ [ev_tw (tw_line "graphvis wasn't found in PATH");
                                   ev_tw (tw_line (render_hint path))])%list,
                        Ok tt)
                  else (start, Raise e)
              end).
  { unfold run, save_fixture_graph. rewrite Hg.
    unfold write_graph. rewrite (mkdir_recursive_ok w log_dir Hm).
    unfold graph_write, line, sep, io_emit, io_bind, io_ret, io_raise,
      try_except_Exception.
    fold path. fold out. unfold path in Hraw |- *. rewrite Hraw.
    fold path. destruct (render w out output_type) as [e|]; [|reflexivity].
    destruct (is_Exception e); reflexivity. }
  rewrite Hrun. clear Hrun.
  destruct (render w out output_type) as [e|] eqn:Er.
  - destruct (is_Exception e) eqn:Ee.
    + split; [discriminate|]. split; [intros e' [= <-]; congruence|]. split.
      * split; [intros _; exists e; split; [reflexivity | exact Ee]|].
        intros _. cbn [fst]. apply in_or_app. right. left. reflexivity.
      * split; [intros _ e' [= <-]; exact Ee | reflexivity].
    + split; [discriminate|]. split; [intros e' [= <-] _; reflexivity|]. split.
      * split; [|intros [e' [[= <-] He']]; congruence].
        cbn [fst]. unfold start.
        intros [H|[H|[H|[H|[H|[H|[]]]]]]]; discriminate H.
      * split; [discriminate|]. intros H. specialize (H e eq_refl). congruence.
  - split; [reflexivity|]. split; [discriminate|]. split.
    + split; [|intros [e' [He' _]]; discriminate He'].
      cbn [fst]. unfold start. cbn [app].
      intros [H|[H|[H|[H|[H|[H|[H|[]]]]]]]]; discriminate H.
    + split; [discriminate | reflexivity].
Qed.

(** A world in which everything works. *)
Definition all_fine : World :=
  mkWorld (fun _ => md_created) (fun _ => true) (fun _ => None)
          (fun _ _ => None).

Lemma save_fixture_graph_render_outcomes_witness :
  save_fixture_graph all_fine (fun p _ => p) "/work/" "artifacts" "png"
    scenario_registry "fixture-graph" None
  = ([ev_makedirs "artifacts"; ev_tw (tw_line "");
      ev_tw (tw_sep "-" "fixture-graph");
      ev_tw (tw_line "created artifacts/fixture-graph.dot.");
      ev_write "artifacts/fixture-graph.dot" None;
      ev_write "artifacts/fixture-graph.png" (Some "png");
      ev_tw (tw_line "created artifacts/fixture-graph.png.")],
     Ok tt).
Proof.
  destruct (fixture_graph (fun p _ => p) "/work/" scenario_registry None)
    as [g|e] eqn:Eg; [|discriminate Eg].
  destruct (save_fixture_graph_render_outcomes all_fine (fun p _ => p) "/work/"
              "artifacts" "png" scenario_registry "fixture-graph" None g Eg)
    as [H _].
  - left. reflexivity.
  - reflexivity.
  - apply H. reflexivity.
Defined.

(** * The graph with direct requests *)

(** An element of a [depended_list] that unpacks into two values. *)
Definition unpackable (d : depended) : Prop :=
  exists c n, unpack_pair d = Ok (c, n).

Lemma unpackable_name (a : string) :
  str_len a = 2 -> unpackable (dep_name a).
Proof.
  unfold str_len, unpackable, unpack_pair.
  destruct (code_points a) as [|x [|y [|z r]]]; simpl; try discriminate.
  intros _. eexists. eexists. reflexivity.
Qed.

Lemma node_edges_unpackable (node : string) (l : list depended) :
  Forall unpackable l -> exists es, node_edges node l = Ok es.
Proof.
  intros H. induction H as [|d rest [c [n Hd]] Hrest [es IH]].
  - exists []. reflexivity.
  - cbn [node_edges]. rewrite Hd. cbn [bind]. rewrite IH. cbn [bind].
    destruct (String.eqb n ""); eexists; reflexivity.
Qed.

Lemma subgraph_unpackable (c : string) (sub : dict (list depended * string)) :
  (forall nv, In nv sub -> Forall unpackable (fst (snd nv))) ->
  exists r, subgraph_nodes_edges c sub = Ok r.
Proof.
  induction sub as [|[n [deps col]] rest IH]; intros H.
  - eexists. reflexivity.
  - cbn [subgraph_nodes_edges].
    destruct (node_edges_unpackable (node_name (mkNode (c ++ "/" ++ n) n col))
                deps (H (n, (deps, col)) (or_introl eq_refl))) as [es Hes].
    rewrite Hes. cbn [bind].
    destruct IH as [[ns es'] Hr]; [intros nv Hnv; apply H; right; exact Hnv|].
    rewrite Hr. cbn [bind]. eexists. reflexivity.
Qed.

Lemma build_graph_unpackable (data : graph_data) :
  (forall e, In e (entries data) -> Forall unpackable (fst (snd e))) ->
  exists g, build_graph data = Ok g.
Proof.
  induction data as [|[c sub] rest IH]; intros H.
  - eexists. reflexivity.
  - cbn [build_graph].
    destruct (subgraph_unpackable c sub) as [[ns es] Hr].
    { intros nv Hnv. apply (H (c, fst nv, snd nv)). unfold entries.
      cbn [flat_map fst snd]. apply in_or_app. left. apply in_map_iff.
      exists nv. split; [reflexivity | exact Hnv]. }
    rewrite Hr. cbn [bind].
    destruct IH as [g Hg].
    { intros e He. apply H. unfold entries. cbn [flat_map].
      apply in_or_app. right. exact He. }
    rewrite Hg. cbn [bind]. eexists. reflexivity.
Qed.

Section RequestedNames.
Variable relpath : string -> string -> string.
Variable cwd : string.
Variable name2fixturedefs : dict (list FixtureDef).

Lemma add_registry_unpackable (items : list (string * list FixtureDef))
    (data : graph_data) :
  Forall (fun e => Forall unpackable (fst (snd e))) (entries data) ->
  Forall (fun e => Forall unpackable (fst (snd e)))
    (entries (add_registry relpath cwd name2fixturedefs items data)).
Proof.
  unfold add_registry. revert data.
  induction items as [|[n defs] rest IH]; intros data H; simpl; [exact H|].
  apply IH. destruct (String.eqb n "request"); [exact H|].
  unfold add_fixture_defs. clear IH. revert data H.
  induction defs as [|fd defs IHd]; intros data H; simpl; [exact H|].
  apply IHd. apply Forall_forall. intros e He. apply entries_data_set in He.
  destruct He as [->|He]; [|rewrite Forall_forall in H; apply H, He].
  cbn [fst snd].
  pose proof (depended_of_pairs relpath cwd name2fixturedefs n fd) as Hp.
  revert Hp. apply Forall_impl. intros d [c [m ->]].
  exists c, m. reflexivity.
Qed.

(** X18: with direct requests (and no fixture called [func_args]) the graph
    is assembled exactly when every requested name has exactly two
    characters ([str_len], the number of code points); in every other case
    assembling it raises [ValueError]. *)
Theorem graph_with_requests_assembled_iff (a : string) (l : list string) :
  ~ In "func_args" (dict_keys name2fixturedefs) ->
  ((exists g,
      fixture_graph relpath cwd name2fixturedefs (Some (a :: l)) = Ok g)
   <-> forall x, In x (a :: l) -> str_len x = 2)
  /\ ((exists x, In x (a :: l) /\ str_len x <> 2) ->
      fixture_graph relpath cwd name2fixturedefs (Some (a :: l))
      = Raise ValueError).
Proof.
  intros Hkey.
  assert (Hraise : (exists x, In x (a :: l) /\ str_len x <> 2) ->
                   fixture_graph relpath cwd name2fixturedefs (Some (a :: l))
                   = Raise ValueError).
  { intros [x [Hx Hlen]]. unfold fixture_graph, build_data.
    apply (build_graph_root_bad_name x (map dep_name (a :: l)));
      [apply in_map, Hx | exact Hlen|].
    apply add_registry_root_first; [exact Hkey|].
    exists [], []. reflexivity. }
  split; [|exact Hraise]. split.
  - intros [g Hg] x Hx.
    destruct (Nat.eq_dec (str_len x) 2) as [H|H]; [exact H|].
    rewrite Hraise in Hg by (exists x; split; assumption). discriminate Hg.
  - intros Hall. unfold fixture_graph, build_data.
    apply build_graph_unpackable. apply Forall_forall.
    apply add_registry_unpackable.
    constructor; [|constructor]. cbn [fst snd].
    apply Forall_map, Forall_forall. intros x Hx.
    apply unpackable_name, Hall, Hx.
Qed.

End RequestedNames.

Lemma graph_with_requests_assembled_iff_witness :
  fixture_graph (fun p _ => p) "/work/" scenario_registry (Some ["db"; "client"])
  = Raise ValueError.
Proof.
  destruct (graph_with_requests_assembled_iff (fun p _ => p) "/work/"
              scenario_registry "db" ["client"]) as [_ H].
  - simpl. intros [H1|[H1|[]]]; discriminate H1.
  - apply H. exists "client". split; [right; left; reflexivity | vm_compute; lia].
Defined.

(** The count is one of characters, not of bytes: the one letter lambda,
    two bytes long, is not unpacked, and the two letters lambda and mu,
    four bytes long, are. *)
Example graph_with_requests_lambda :
  str_len lambda = 1
  /\ fixture_graph (fun p _ => p) "/work/" scenario_registry (Some [lambda])
     = Raise ValueError
  /\ str_len (lambda ++ mu)%string = 2
  /\ exists g,
       fixture_graph (fun p _ => p) "/work/" scenario_registry
         (Some [(lambda ++ mu)%string]) = Ok g
       /\ In ("/func_args", (lambda ++ "/" ++ mu)%string) (edges g).
Proof.
  split; [reflexivity|]. split; [reflexivity|]. split; [reflexivity|].
  eexists. split; [reflexivity|]. left. reflexivity.
Qed.
